(** * Meta Ads pipeline: the Graph API client, the data processor and the
      database manager, embedded from [utils/graph_api.py] and
      [utils/database.py].

    The Python code is modelled the way it is written: the pagination loop as
    a loop over an explicit state, fed by the answers of the HTTP server;
    pandas frames as a column list with rows of cells; exceptions as an error
    result; the two stores as finite maps from qualified table names to rows.
    Definitions come first, the properties follow. *)

From Stdlib Require Import ZArith Ascii String List Lia Bool DecimalString
  Permutation OrderedTypeEx.
From stdpp Require Import base option list strings gmap.

Local Open Scope Z_scope.

(* ===================================================================== *)
(** * Python values *)
(* ===================================================================== *)

Module Py.

(** The exceptions the modelled code can raise. [Unmodelled] marks an
    input whose behaviour in pandas or in the store the model does not
    describe; no property below speaks about it. *)
Inductive exn : Type :=
| KeyError (labels : list string)
| ValueError
| TypeError
| ProgrammingError (table : string)
| Unmodelled.

(** A computation that returns a value or raises. *)
Inductive result (A : Type) : Type :=
| Ok (a : A)
| Raise (e : exn).
Arguments Ok {A} a.
Arguments Raise {A} e.

#[global] Instance result_ret : MRet result := fun A a => Ok a.

#[global] Instance result_bind : MBind result := fun A B k m =>
  match m with
  | Ok a => k a
  | Raise e => Raise e
  end.

(** A list comprehension whose body can raise: the first exception wins. *)
Fixpoint map_result {A B : Type} (f : A -> result B) (l : list A)
  : result (list B) :=
  match l with
  | [] => Ok []
  | a :: l' => b ← f a; bs ← map_result f l'; Ok (b :: bs)
  end.

(** [str.lower()] on the bytes of a string. The only characters whose
    lower-case form is an ASCII letter of the phrase searched for below are
    the ASCII capitals, so working on bytes loses nothing. *)
Definition lower_ascii (c : ascii) : ascii :=
  let n := N_of_ascii c in
  if ((65 <=? n) && (n <=? 90))%N then ascii_of_N (n + 32) else c.

Fixpoint lower (s : string) : string :=
  match s with
  | EmptyString => EmptyString
  | String c s' => String (lower_ascii c) (lower s')
  end.

(** [needle in hay] on strings. *)
Fixpoint contains (needle hay : string) : bool :=
  String.prefix needle hay
  || match hay with
     | EmptyString => false
     | String _ hay' => contains needle hay'
     end.

(** [sep.join(parts)]. *)
Fixpoint join (sep : string) (parts : list string) : string :=
  match parts with
  | [] => EmptyString
  | [p] => p
  | p :: rest => p +:+ sep +:+ join sep rest
  end.

(** Truthiness of an optional string: [None] and [''] are false. *)
Definition truthy (s : option string) : option string :=
  match s with
  | Some EmptyString => None
  | other => other
  end.

End Py.

Import Py.

(* ===================================================================== *)
(** * The HTTP side: [requests.get] and its answers *)
(* ===================================================================== *)

Module Http.

(** Query parameters of a request, in the order of the Python dict. *)
Definition Params : Type := list (string * string).

(** One call [requests.get(url, params=..., timeout=...)]. *)
Record Request : Type := mkRequest {
  req_url : string;
  req_params : option Params;
  req_timeout : Z
}.

(** The JSON object of a page: [data] is the value under ['data'] when
    the key is there, [paging_next] the value of ['paging']['next'] when
    both keys are there. *)
Record Body (Item : Type) : Type := mkBody {
  data : option (list Item);
  paging_next : option string
}.
Arguments mkBody {Item} data paging_next.
Arguments data {Item} b.
Arguments paging_next {Item} b.

(** A response: status, text, and what [response.json()] gives ([None]
    when the text is not JSON; [requests] then raises its
    [JSONDecodeError], which is a [RequestException]). *)
Record Response (Item : Type) : Type := mkResponse {
  status_code : Z;
  text : string;
  json : option (Body Item)
}.
Arguments mkResponse {Item} status_code text json.
Arguments status_code {Item} r.
Arguments text {Item} r.
Arguments json {Item} r.

(** What one call of [requests.get] does: it answers, or it raises a
    [requests.exceptions.RequestException] (connection error, timeout). *)
Inductive Outcome (Item : Type) : Type :=
| Responds (r : Response Item)
| RaisesRequestException.
Arguments Responds {Item} r.
Arguments RaisesRequestException {Item}.

(** What the client does to the outside world, in order. *)
Inductive Event : Type :=
| Get (r : Request)
| Sleep (seconds : Z).

End Http.

Import Http.

(* ===================================================================== *)
(** * The items of the Graph API *)
(* ===================================================================== *)

Module Raw.

(** The dicts of the two endpoints, with the keys the code reads. The Graph
    API sends every scalar field as a JSON string; a field is [None] when
    the key is absent from the item. *)

(** One entry of an insight item's ['actions']. *)
Record Action : Type := mkAction {
  action_type : option string;
  value : option string
}.

(** One item of the insights endpoint: one ad on one day. *)
Record InsightItem : Type := mkInsight {
  account_name : option string;
  adset_id : option string;
  adset_name : option string;
  ad_id : option string;
  ad_name : option string;
  campaign_id : option string;
  campaign_name : option string;
  objective : option string;
  spend : option string;
  clicks : option string;
  inline_link_clicks : option string;
  impressions : option string;
  date_start : option string;
  actions : option (list Action)
}.

(** One item of the campaigns endpoint. *)
Record CampaignItem : Type := mkCampaign {
  id : option string;
  name : option string;
  status : option string;
  start_time : option string
}.

End Raw.

(* ===================================================================== *)
(** * [GraphAPIConfig] and [GraphAPIClient.paginate_api] *)
(* ===================================================================== *)

Module GraphAPIClient.

(** [GraphAPIConfig]: the four settings read from the environment. *)
Record GraphAPIConfig : Type := mkConfig {
  api_version : string;
  request_timeout : Z;
  rate_limit_sleep : Z;
  data_retention_days : Z
}.

(** The values [GraphAPIConfig()] takes when the environment sets none. *)
Definition default_config : GraphAPIConfig :=
  {| api_version := "v19.0";
     request_timeout := 30;
     rate_limit_sleep := 60;
     data_retention_days := 15 |}.

(** The phrase of line 90. *)
Definition rate_limit_phrase : string := "too many calls".

Section Paginate.

Context {Item : Type}.
Variable config : GraphAPIConfig.
(** The arguments [url] and [params] of [paginate_api]. *)
Variable url : string.
Variable params : Params.

(** The local variables of [paginate_api], with the trace of what the
    loop has done so far: its requests and its sleeps (what it prints is
    left out). *)
Record LoopState : Type := mkLoop {
  all_data : list Item;
  next_url : option string;
  page_count : Z;
  trace : list Event
}.

Definition initial : LoopState :=
  {| all_data := []; next_url := Some url; page_count := 1; trace := [] |}.

(** How one pass through the loop body ends. *)
Inductive Flow : Type :=
| Continue (st : LoopState)
| Break (st : LoopState).

(** The request of lines 80-84, issued for the current [next_url]. *)
Definition request_for (cur : string) : Request :=
  {| req_url := cur;
     req_params := if String.eqb cur url then Some params else None;
     req_timeout := request_timeout config |}.

(** The test of line 90. *)
Definition is_rate_limit (r : Response Item) : bool :=
  contains rate_limit_phrase (lower (text r)).

(** Lines 79-109: one pass through the body of the [while], for the
    current URL [cur] and the outcome [o] of its [requests.get]. *)
Definition iteration (st : LoopState) (cur : string) (o : Outcome Item)
  : Flow :=
  let sent := trace st ++ [Get (request_for cur)] in
  match o with
  | RaisesRequestException =>
      Break (mkLoop (all_data st) (next_url st) (page_count st) sent)
  | Responds r =>
      if negb (status_code r =? 200) then
        if is_rate_limit r then
          Continue (mkLoop (all_data st) (next_url st) (page_count st)
                      (sent ++ [Sleep (rate_limit_sleep config)]))
        else
          Break (mkLoop (all_data st) (next_url st) (page_count st) sent)
      else
        match json r with
        | None =>
            Break (mkLoop (all_data st) (next_url st) (page_count st) sent)
        | Some body =>
            Continue (mkLoop (all_data st ++ default [] (data body))
                        (paging_next body)
                        (page_count st + 1)
                        sent)
        end
  end.

(** How a run of the loop against a finite list of server outcomes ends:
    the loop is left ([Finished], with the outcomes not consumed), or it
    is about to issue a request the list has no outcome for
    ([Waiting]). *)
Inductive Run : Type :=
| Finished (st : LoopState) (rest : list (Outcome Item))
| Waiting (st : LoopState).

(** Lines 78-109: [while next_url: ...]. The k-th outcome of [script]
    is what the k-th [requests.get] of this run does. *)
Fixpoint while_next_url (script : list (Outcome Item)) (st : LoopState)
  : Run :=
  match truthy (next_url st) with
  | None => Finished st script
  | Some cur =>
      match script with
      | [] => Waiting st
      | o :: script' =>
          match iteration st cur o with
          | Continue st' => while_next_url script' st'
          | Break st' => Finished st' script'
          end
      end
  end.

(** [paginate_api(url, params)]: the loop from the initial state; the
    method returns [all_data] when the loop is left. *)
Definition paginate_api (script : list (Outcome Item)) : Run :=
  while_next_url script initial.

(** The value returned by a finished run. *)
Definition returned (r : Run) : option (list Item) :=
  match r with
  | Finished st _ => Some (all_data st)
  | Waiting _ => None
  end.

End Paginate.

Arguments LoopState Item : clear implicits.
Arguments Run Item : clear implicits.
Arguments Flow Item : clear implicits.

(** ** The two requests of a run *)

(** [str(d)] for a [datetime.date], given as its day number counted from
    1970-01-01: the proleptic Gregorian date as [YYYY-MM-DD]. *)
Definition civil_of_days (days : Z) : Z * Z * Z :=
  let z := days + 719468 in
  let era := z / 146097 in
  let doe := z - era * 146097 in
  let yoe := (doe - doe / 1460 + doe / 36524 - doe / 146096) / 365 in
  let doy := doe - (365 * yoe + yoe / 4 - yoe / 100) in
  let mp := (5 * doy + 2) / 153 in
  let d := doy - (153 * mp + 2) / 5 + 1 in
  let m := if mp <? 10 then mp + 3 else mp - 9 in
  let y := yoe + era * 400 + (if m <=? 2 then 1 else 0) in
  (y, m, d).

Definition digit (n : Z) : string :=
  String (ascii_of_N (Z.to_N (48 + n mod 10))) EmptyString.

Definition str_of_date (days : Z) : string :=
  let '(y, m, d) := civil_of_days days in
  digit (y / 1000) +:+ digit (y / 100) +:+ digit (y / 10) +:+ digit y
  +:+ "-" +:+ digit (m / 10) +:+ digit m
  +:+ "-" +:+ digit (d / 10) +:+ digit d.

Definition quoted (s : string) : string :=
  String (ascii_of_N 34) (s +:+ String (ascii_of_N 34) EmptyString).

(** The client: [GraphAPIClient(account_id, access_token, config)]. *)
Record Client : Type := mkClient {
  account_id : string;
  access_token : string;
  config : GraphAPIConfig
}.

Definition insights_url (c : Client) : string :=
  "https://graph.facebook.com/" +:+ api_version (config c) +:+ "/"
  +:+ "act_" +:+ account_id c +:+ "/insights".

Definition campaigns_url (c : Client) : string :=
  "https://graph.facebook.com/" +:+ api_version (config c) +:+ "/"
  +:+ "act_" +:+ account_id c +:+ "/campaigns".

(** [get_time_range()], with [today] the day number of [date.today()];
    the pair is the dict with keys ['since'] and ['until']. *)
Definition get_time_range (c : Client) (today : Z) : string * string :=
  let start_date := today - data_retention_days (config c) in
  (str_of_date start_date, str_of_date today).

(** [json.dumps] of that dict. *)
Definition dumps_time_range (range : string * string) : string :=
  "{" +:+ quoted "since" +:+ ": " +:+ quoted (fst range) +:+ ", "
  +:+ quoted "until" +:+ ": " +:+ quoted (snd range) +:+ "}".

Definition insights_params (c : Client) (today : Z) : Params :=
  [("time_increment", "1");
   ("time_range", dumps_time_range (get_time_range c today));
   ("level", "ad");
   ("fields",
    "ad_name,ad_id,adset_name,adset_id,campaign_name,campaign_id,"
    +:+ "account_id,account_name,spend,clicks,inline_link_clicks,"
    +:+ "impressions,objective,actions,date_start");
   ("access_token", access_token c)].

Definition campaigns_params (c : Client) : Params :=
  [("fields", "id,name,status,start_time");
   ("access_token", access_token c)].

(** [get_insights()], against the outcomes of the insights endpoint. *)
Definition get_insights (c : Client) (today : Z)
    (script : list (Outcome Raw.InsightItem)) : Run Raw.InsightItem :=
  paginate_api (config c) (insights_url c) (insights_params c today) script.

(** [get_campaigns()], against the outcomes of the campaigns endpoint. *)
Definition get_campaigns (c : Client)
    (script : list (Outcome Raw.CampaignItem)) : Run Raw.CampaignItem :=
  paginate_api (config c) (campaigns_url c) (campaigns_params c) script.

End GraphAPIClient.

Import GraphAPIClient.

(* ===================================================================== *)
(** * [hashlib.md5]: the MD5 digest of RFC 1321 *)
(* ===================================================================== *)

Module Hashlib.

(** 32-bit words are integers in [0, 2^32); additions wrap. *)
Definition word_mask : Z := 4294967295.

Definition add32 (a b : Z) : Z := (a + b) mod 4294967296.

Definition not32 (a : Z) : Z := Z.lxor a word_mask.

Definition rotl32 (x c : Z) : Z :=
  Z.lor (Z.shiftl x c mod 4294967296) (Z.shiftr x (32 - c)).

(** The per-round shift amounts. *)
Definition shifts : list Z :=
  [7; 12; 17; 22; 7; 12; 17; 22; 7; 12; 17; 22; 7; 12; 17; 22;
   5; 9; 14; 20; 5; 9; 14; 20; 5; 9; 14; 20; 5; 9; 14; 20;
   4; 11; 16; 23; 4; 11; 16; 23; 4; 11; 16; 23; 4; 11; 16; 23;
   6; 10; 15; 21; 6; 10; 15; 21; 6; 10; 15; 21; 6; 10; 15; 21].

(** The sine table: entry i is the integer part of 2^32 * |sin (i + 1)|. *)
Definition sines : list Z :=
  [3614090360; 3905402710; 606105819; 3250441966;
   4118548399; 1200080426; 2821735955; 4249261313;
   1770035416; 2336552879; 4294925233; 2304563134;
   1804603682; 4254626195; 2792965006; 1236535329;
   4129170786; 3225465664; 643717713; 3921069994;
   3593408605; 38016083; 3634488961; 3889429448;
   568446438; 3275163606; 4107603335; 1163531501;
   2850285829; 4243563512; 1735328473; 2368359562;
   4294588738; 2272392833; 1839030562; 4259657740;
   2763975236; 1272893353; 4139469664; 3200236656;
   681279174; 3936430074; 3572445317; 76029189;
   3654602809; 3873151461; 530742520; 3299628645;
   4096336452; 1126891415; 2878612391; 4237533241;
   1700485571; 2399980690; 4293915773; 2240044497;
   1873313359; 4264355552; 2734768916; 1309151649;
   4149444226; 3174756917; 718787259; 3951481745].

(** The digest state: the four chaining words A, B, C, D. *)
Record state : Type := mkState { wa : Z; wb : Z; wc : Z; wd : Z }.

Definition initial_state : state :=
  {| wa := 1732584193; wb := 4023233417; wc := 2562383102; wd := 271733878 |}.

(** The bytes of a string ([str.encode()]: a string is kept as its UTF-8
    bytes). *)
Fixpoint bytes_of_string (s : string) : list Z :=
  match s with
  | EmptyString => []
  | String c s' => Z.of_N (N_of_ascii c) :: bytes_of_string s'
  end.

(** [n] as [k] little-endian bytes. *)
Fixpoint le_bytes (k : nat) (n : Z) : list Z :=
  match k with
  | O => []
  | S k' => n mod 256 :: le_bytes k' (n / 256)
  end.

(** Padding: the bit 1, zeros up to 56 modulo 64, the bit length on 8
    bytes. *)
Definition pad (msg : list Z) : list Z :=
  let len := Z.of_nat (length msg) in
  let zeros := Z.to_nat ((55 - len) mod 64) in
  msg ++ [128] ++ repeat 0 zeros ++ le_bytes 8 ((8 * len) mod 2 ^ 64).

(** Little-endian 32-bit words of a byte list (four bytes each). *)
Fixpoint words (fuel : nat) (bs : list Z) : list Z :=
  match fuel with
  | O => []
  | S fuel' =>
      match bs with
      | b0 :: b1 :: b2 :: b3 :: bs' =>
          (b0 + 256 * b1 + 65536 * b2 + 16777216 * b3) :: words fuel' bs'
      | _ => []
      end
  end.

(** Blocks of sixteen words. *)
Fixpoint blocks (fuel : nat) (ws : list Z) : list (list Z) :=
  match fuel with
  | O => []
  | S fuel' =>
      match ws with
      | [] => []
      | _ => take 16 ws :: blocks fuel' (drop 16 ws)
      end
  end.

(** Operation [i] of the 64 applied to a block [m]. *)
Definition operation (m : list Z) (st : state) (i : nat) : state :=
  let iz := Z.of_nat i in
  let '(f, g) :=
    if iz <? 16 then
      (Z.lor (Z.land (wb st) (wc st)) (Z.land (not32 (wb st)) (wd st)), iz)
    else if iz <? 32 then
      (Z.lor (Z.land (wd st) (wb st)) (Z.land (not32 (wd st)) (wc st)),
       (5 * iz + 1) mod 16)
    else if iz <? 48 then
      (Z.lxor (Z.lxor (wb st) (wc st)) (wd st), (3 * iz + 5) mod 16)
    else
      (Z.lxor (wc st) (Z.lor (wb st) (not32 (wd st))), (7 * iz) mod 16) in
  let f' :=
    add32 (add32 (add32 f (wa st)) (nth i sines 0)) (nth (Z.to_nat g) m 0) in
  {| wa := wd st;
     wb := add32 (wb st) (rotl32 f' (nth i shifts 0));
     wc := wb st;
     wd := wc st |}.

Definition compress (st : state) (m : list Z) : state :=
  let st' := fold_left (operation m) (seq 0 64) st in
  {| wa := add32 (wa st) (wa st');
     wb := add32 (wb st) (wb st');
     wc := add32 (wc st) (wc st');
     wd := add32 (wd st) (wd st') |}.

(** [hashlib.md5(data).digest()] as sixteen bytes. *)
Definition md5_digest (msg : list Z) : list Z :=
  let padded := pad msg in
  let ws := words (length padded) padded in
  let st := fold_left compress (blocks (length ws) ws) initial_state in
  le_bytes 4 (wa st) ++ le_bytes 4 (wb st)
  ++ le_bytes 4 (wc st) ++ le_bytes 4 (wd st).

Definition hex_digit (n : Z) : ascii :=
  if n <? 10 then ascii_of_N (Z.to_N (48 + n)) else ascii_of_N (Z.to_N (87 + n)).

Fixpoint hex_of_bytes (bs : list Z) : string :=
  match bs with
  | [] => EmptyString
  | b :: bs' => String (hex_digit (b / 16)) (String (hex_digit (b mod 16)) (hex_of_bytes bs'))
  end.

(** [hashlib.md5(s.encode()).hexdigest()]. *)
Definition md5_hexdigest (s : string) : string :=
  hex_of_bytes (md5_digest (bytes_of_string s)).

End Hashlib.

(* ===================================================================== *)
(** * pandas: the frame operations the pipeline calls *)
(* ===================================================================== *)

Module Pandas.

(** A frame: its column labels and its rows, each row holding one cell per
    column. The index is not modelled (every frame here has the default
    one). *)
Record DataFrame (C : Type) : Type := mkFrame {
  columns : list string;
  rows : list (list C)
}.
Arguments mkFrame {C} columns rows.
Arguments columns {C} _.
Arguments rows {C} _.

(** A Python dict with string keys, in insertion order. *)
Definition dict (C : Type) : Type := list (string * C).

(** [d.get(key)]. *)
Fixpoint dict_get {C : Type} (key : string) (d : dict C) : option C :=
  match d with
  | [] => None
  | (k, v) :: d' => if String.eqb k key then Some v else dict_get key d'
  end.

(** [name in names]. *)
Definition mem (name : string) (names : list string) : bool :=
  existsb (String.eqb name) names.

(** Position of a label among the columns. *)
Fixpoint column_index (name : string) (cols : list string) : option nat :=
  match cols with
  | [] => None
  | c :: cols' =>
      if String.eqb c name then Some O else S <$> column_index name cols'
  end.

Section Frames.

Context {C : Type}.
(** The value pandas puts where a row has nothing: NaN. *)
Variable missing : C.

(** Labels of a list of dicts, in order of first appearance. *)
Definition add_keys (seen : list string) (d : dict C) : list string :=
  fold_left (fun acc kv => if mem (fst kv) acc then acc else acc ++ [fst kv])
    d seen.

Definition keys_union (records : list (dict C)) : list string :=
  fold_left add_keys records [].

(** [pd.DataFrame(records)] for a list of dicts: one column per key, one
    row per dict. An empty list gives a frame with no columns. *)
Definition from_records (records : list (dict C)) : DataFrame C :=
  let cols := keys_union records in
  {| columns := cols;
     rows := map (fun d => map (fun c => default missing (dict_get c d)) cols)
               records |}.

(** [df.empty]: one of the two axes has length 0. *)
Definition empty (df : DataFrame C) : bool :=
  match rows df, columns df with
  | [], _ => true
  | _, [] => true
  | _, _ => false
  end.

(** [len(df)]. *)
Definition len (df : DataFrame C) : nat := length (rows df).

(** The cell of a row in column number [i]. *)
Definition cell_at (i : nat) (row : list C) : C := nth i row missing.

(** [df[name]]: the cells of one column; [KeyError] without it. *)
Definition getitem (name : string) (df : DataFrame C) : result (list C) :=
  match column_index name (columns df) with
  | None => Raise (KeyError [name])
  | Some i => Ok (map (cell_at i) (rows df))
  end.

(** [df[[n1, n2, ...]]]: the frame restricted to the listed columns, in
    the listed order; [KeyError] naming the labels that are not columns. *)
Definition getitem_list (names : list string) (df : DataFrame C)
  : result (DataFrame C) :=
  match filter (fun n => negb (mem n (columns df))) names with
  | [] =>
      Ok {| columns := names;
            rows := map (fun row =>
                      map (fun n =>
                        cell_at (default O (column_index n (columns df))) row)
                        names)
                    (rows df) |}
  | absent => Raise (KeyError absent)
  end.

(** Whether two key cells are joined by [merge]; nulls join nulls. *)
Variable key_match : C -> C -> bool.

(** A row without the cell of column number [i]. *)
Definition drop_cell (i : nat) (row : list C) : list C :=
  take i row ++ drop (S i) row.

(** [left.merge(right, on=key, how='left')]: every left row, in order,
    once for each right row with a matching key (in the order of the right
    frame), or once with NaN in the right columns when no key matches.
    The result has the left columns, then the right columns but the key;
    a label on both sides gets the suffixes [_x] and [_y]. *)
Definition merge_left (left right : DataFrame C) (key : string)
  : result (DataFrame C) :=
  match column_index key (columns right), column_index key (columns left) with
  | None, _ | _, None => Raise (KeyError [key])
  | Some ir, Some il =>
      let right_cols := take ir (columns right) ++ drop (S ir) (columns right) in
      let shared n := mem n (columns left) && mem n right_cols in
      let lcols :=
        map (fun n => if shared n then n +:+ "_x" else n) (columns left) in
      let rcols :=
        map (fun n => if shared n then n +:+ "_y" else n) right_cols in
      let unmatched := map (fun _ => missing) right_cols in
      Ok {| columns := lcols ++ rcols;
            rows :=
              flat_map (fun l =>
                match filter (fun r => key_match (cell_at il l) (cell_at ir r))
                        (rows right) with
                | [] => [l ++ unmatched]
                | matches => map (fun r => l ++ drop_cell ir r) matches
                end)
              (rows left) |}
  end.

(** [df[name] = values]: a new last column, or new cells in place when the
    column exists. *)
Definition setitem (name : string) (values : list C) (df : DataFrame C)
  : DataFrame C :=
  match column_index name (columns df) with
  | None =>
      {| columns := columns df ++ [name];
         rows := zip_with (fun row v => row ++ [v]) (rows df) values |}
  | Some i =>
      {| columns := columns df;
         rows := zip_with (fun row v => <[i := v]> row) (rows df) values |}
  end.

(** The dicts [to_sql] writes: each row with its column labels. *)
Definition to_records (df : DataFrame C) : list (dict C) :=
  map (fun row => zip (columns df) row) (rows df).

(** [df.iloc[i:i+n]] for [i] in [range(0, len(df), n)], with [n > 0]. *)
Fixpoint split_rows (fuel : nat) (n : nat) (l : list (list C))
  : list (list (list C)) :=
  match fuel with
  | O => []
  | S fuel' =>
      match l with
      | [] => []
      | _ => take n l :: split_rows fuel' n (drop n l)
      end
  end.

End Frames.

(** ** Cells of the frames built by the data processor *)

(** The Python values the processor puts in a frame: [None], NaN, a
    string, an int, or a float. A float is kept as its [repr], the shortest
    decimal text that reads back as the same double. *)
Inductive cell : Type :=
| CNone
| CNaN
| CStr (s : string)
| CInt (n : Z)
| CFloat (repr : string).

#[global] Instance cell_eq_dec : EqDecision cell.
Proof. solve_decision. Defined.

(** Keys joined by [merge]: equal values; [None] and NaN are both null and
    join each other. *)
Definition key_match (a b : cell) : bool :=
  match a, b with
  | (CNone | CNaN), (CNone | CNaN) => true
  | CStr s, CStr t => String.eqb s t
  | CInt n, CInt m => n =? m
  | CFloat r, CFloat q => String.eqb r q
  | _, _ => false
  end.

(** [str(n)] for an int. *)
Definition str_of_int (n : Z) : string :=
  DecimalString.NilZero.string_of_int (Z.to_int n).

(** [str(v)] for a cell, as [row.astype(str)] computes it. *)
Definition str (v : cell) : string :=
  match v with
  | CNone => "None"
  | CNaN => "nan"
  | CStr s => s
  | CInt n => str_of_int n
  | CFloat r => r
  end.

(** [row.astype(str)]. *)
Definition astype_str (row : list cell) : list string := map str row.

(** Order of two cells of a date column, where Python orders them: two
    strings (by code point, which is the order of their UTF-8 bytes) or two
    ints. *)
Definition cell_compare (a b : cell) : option comparison :=
  match a, b with
  | CStr s, CStr t => Some (String.compare s t)
  | CInt n, CInt m => Some (n ?= m)
  | _, _ => None
  end.

Definition cell_leb (a b : cell) : bool :=
  match cell_compare a b with
  | Some Gt | None => false
  | Some _ => true
  end.

(** Whether a column is one [min()] and [max()] are modelled for: strings
    only, or ints only. *)
Definition all_str (cells : list cell) : bool :=
  forallb (fun c => match c with CStr _ => true | _ => false end) cells.

Definition all_int (cells : list cell) : bool :=
  forallb (fun c => match c with CInt _ => true | _ => false end) cells.

Definition cell_min (a b : cell) : cell := if cell_leb a b then a else b.
Definition cell_max (a b : cell) : cell := if cell_leb a b then b else a.

(** [series.min()] and [series.max()] on a non-empty column of strings or
    of ints. Columns with nulls or of mixed kinds are left out of the
    model. *)
Definition series_min (cells : list cell) : result cell :=
  match cells with
  | c :: cells' =>
      if all_str cells || all_int cells then Ok (fold_left cell_min cells' c)
      else Raise Unmodelled
  | [] => Raise Unmodelled
  end.

Definition series_max (cells : list cell) : result cell :=
  match cells with
  | c :: cells' =>
      if all_str cells || all_int cells then Ok (fold_left cell_max cells' c)
      else Raise Unmodelled
  | [] => Raise Unmodelled
  end.

End Pandas.

(* ===================================================================== *)
(** * [DatabaseManager]: the two stores and the two write paths *)
(* ===================================================================== *)

Module DatabaseManager.

Import Pandas.

(** [DatabaseConfig]: of the settings read from the environment, the two
    default schema names are the ones the operations below use. *)
Record DatabaseConfig : Type := mkDatabaseConfig {
  postgres_schema : string;
  sqlserver_schema : string
}.

Definition default_database_config : DatabaseConfig :=
  {| postgres_schema := "public"; sqlserver_schema := "dbo" |}.

(** The name [{schema}.{table}] the SQL statements use. *)
Definition qualified (schema table : string) : string :=
  schema +:+ "." +:+ table.

(** What the methods print, as events. *)
Inductive LogEvent : Type :=
| NothingToInsert (schema : option string) (table : string)
| Deleting (table : string)
| Inserting (count : nat) (table : string)
| Inserted (count : nat) (table : string)
| SyncStarting (source target : string)
| ReadRecords (count : nat) (source : string)
| NoDataFound (view : string)
| DeletedData (target : string) (first last : Z)
| ChunkInsertError (chunk : nat).

(** The effect of a method on a store: the store it leaves, what it
    printed, and the exception it raised, if any. *)
Record Effect (S : Type) : Type := mkEffect {
  store : S;
  log : list LogEvent;
  raised : option exn
}.
Arguments mkEffect {S} store log raised.
Arguments store {S} _.
Arguments log {S} _.
Arguments raised {S} _.

(** ** PostgreSQL and [upsert_dataframe] *)

(** The primary store: the rows of each table, by qualified name. The
    store orders the values of a date column as [Pandas.cell_compare]
    does (ISO dates held as strings compare as the dates do). *)
Abbreviation PgStore := (gmap string (list (dict cell))).

(** [WHERE date_column BETWEEN lo AND hi] on a stored row; a row without a
    value there is not selected. *)
Definition between (date_column : string) (lo hi : cell) (r : dict cell)
  : bool :=
  match dict_get date_column r with
  | Some d => cell_leb lo d && cell_leb d hi
  | None => false
  end.

(** Lines 105-106: the bounds of the frame's date column. *)
Definition date_bounds (df : DataFrame cell) (date_column : string)
  : result (cell * cell) :=
  dates ← getitem CNaN date_column df;
  min_date ← series_min dates;
  max_date ← series_max dates;
  Ok (min_date, max_date).

(** [upsert_dataframe(df, table_name, date_column, schema)], lines 100-130.
    The [DELETE] fails on a table that does not exist. *)
Definition upsert_dataframe (config : DatabaseConfig) (df : DataFrame cell)
    (table_name date_column : string) (schema : option string) (db : PgStore)
  : Effect PgStore :=
  if empty df then
    mkEffect db [NothingToInsert schema table_name] None
  else
    let schema := default (postgres_schema config) (truthy schema) in
    let name := qualified schema table_name in
    match date_bounds df date_column with
    | Raise e => mkEffect db [] (Some e)
    | Ok (min_date, max_date) =>
        match db !! name with
        | None => mkEffect db [Deleting name] (Some (ProgrammingError name))
        | Some stored =>
            let kept :=
              filter (fun r => negb (between date_column min_date max_date r))
                stored in
            mkEffect (<[name := kept ++ to_records df]> db)
              [Deleting name; Inserting (len df) name; Inserted (len df) name]
              None
        end
    end.

(** ** SQL Server and [sync_postgres_to_sqlserver] *)

(** Values read from a PostgreSQL view and written to SQL Server. A date
    is a day number, a timestamp a day number and the seconds into the day;
    a dict or list (a json column) is kept as its [json.dumps] text. *)
Inductive sqlvalue : Type :=
| SqlNull
| SqlText (s : string)
| SqlInt (n : Z)
| SqlDate (day : Z)
| SqlTimestamp (day seconds : Z)
| SqlJson (dumps : string).

#[global] Instance sqlvalue_eq_dec : EqDecision sqlvalue.
Proof. solve_decision. Defined.

(** A table of the secondary store: its column list, as
    [INFORMATION_SCHEMA.COLUMNS] reports it, and its rows. A row holds the
    columns that were populated. *)
Record Table : Type := mkTable {
  table_columns : list string;
  table_rows : list (dict sqlvalue)
}.

Abbreviation SqlStore := (gmap string Table).

(** Lines 219-222: [isinstance(x, (dict, list))] and the serialisation. *)
Definition is_structured (v : sqlvalue) : bool :=
  match v with
  | SqlJson _ => true
  | _ => false
  end.

Definition dumps_if_structured (v : sqlvalue) : sqlvalue :=
  match v with
  | SqlJson s => SqlText s
  | other => other
  end.

(** [df[col] = df[col].apply(f)] for the column number [i]. *)
Definition apply_column (f : sqlvalue -> sqlvalue) (i : nat)
    (df : DataFrame sqlvalue) : DataFrame sqlvalue :=
  {| columns := columns df; rows := map (alter f i) (rows df) |}.

(** [_preprocess_dataframe(df)], lines 217-223. *)
Definition _preprocess_dataframe (df : DataFrame sqlvalue)
  : DataFrame sqlvalue :=
  fold_left (fun (acc : DataFrame sqlvalue) (i : nat) =>
      if existsb is_structured (map (cell_at SqlNull i) (rows acc))
      then apply_column dumps_if_structured i acc
      else acc)
    (seq 0 (length (columns df))) df.

(** [_get_sqlserver_columns(schema, table)], lines 227-234: the query
    returns no row for a table that does not exist. *)
Definition _get_sqlserver_columns (schema table : string) (db : SqlStore)
  : list string :=
  match db !! qualified schema table with
  | Some t => table_columns t
  | None => []
  end.

(** [WHERE date_column >= start] on the value of the date column, for the
    kinds of value a date or timestamp column holds. *)
Definition on_or_after (start : Z) (v : sqlvalue) : result bool :=
  match v with
  | SqlDate d => Ok (start <=? d)
  | SqlTimestamp d _ => Ok (start <=? d)
  | SqlNull => Ok false
  | _ => Raise Unmodelled
  end.

Fixpoint filter_result {A : Type} (p : A -> result bool) (l : list A)
  : result (list A) :=
  match l with
  | [] => Ok []
  | a :: l' =>
      keep ← p a;
      rest ← filter_result p l';
      Ok (if keep : bool then a :: rest else rest)
  end.

(** Line 168: [pd.read_sql] of the query of lines 163-166 against the
    rows [view] of the source view. *)
Definition read_sql (view : DataFrame sqlvalue) (source date_column : string)
    (start_date : Z) : result (DataFrame sqlvalue) :=
  match column_index date_column (columns view) with
  | None => Raise (ProgrammingError source)
  | Some i =>
      selected ←
        filter_result (fun row => on_or_after start_date (cell_at SqlNull i row))
          (rows view);
      Ok {| columns := columns view; rows := selected |}
  end.

(** Line 177: [pd.to_datetime(...).dt.date] on one value. *)
Definition to_date (v : sqlvalue) : result sqlvalue :=
  match v with
  | SqlDate d => Ok (SqlDate d)
  | SqlTimestamp d _ => Ok (SqlDate d)
  | SqlNull => Ok SqlNull
  | _ => Raise Unmodelled
  end.

Definition coerce_date_column (date_column : string) (df : DataFrame sqlvalue)
  : result (DataFrame sqlvalue) :=
  match column_index date_column (columns df) with
  | None => Raise (KeyError [date_column])
  | Some i =>
      coerced ←
        map_result (fun row =>
            d ← to_date (cell_at SqlNull i row); Ok (<[i := d]> row))
          (rows df);
      Ok {| columns := columns df; rows := coerced |}
  end.

(** Line 181: the frame restricted to its columns that the target has
    ([col for col in df.columns if col in sql_columns]). *)
Definition common_columns (df_columns sql_columns : list string)
  : list string :=
  filter (fun col => mem col sql_columns) df_columns.

(** [WHERE date_column BETWEEN start AND end] on a stored row, the bounds
    being dates. *)
Definition in_window (date_column : string) (first last : Z)
    (r : dict sqlvalue) : bool :=
  match dict_get date_column r with
  | Some (SqlDate d) => (first <=? d) && (d <=? last)
  | Some (SqlTimestamp d s) =>
      (first <=? d) && ((d <? last) || ((d =? last) && (s =? 0)))
  | _ => false
  end.

(** Line 196: the chunks; [range] raises on a step of 0 and is empty on a
    negative one. *)
Definition chunks_of (df : DataFrame sqlvalue) (chunksize : Z)
  : result (list (DataFrame sqlvalue)) :=
  if chunksize =? 0 then Raise ValueError
  else if chunksize <? 0 then Ok []
  else
    Ok (map (fun part => {| columns := columns df; rows := part |})
          (split_rows (len df) (Z.to_nat chunksize) (rows df))).

(** Lines 198-208: [insert_chunk] on chunk number [i]: the insert appends
    the chunk, or fails as a whole and the exception is printed. *)
Definition insert_chunk (fails : nat -> bool)
    (acc : list (dict sqlvalue) * list LogEvent)
    (job : nat * DataFrame sqlvalue) : list (dict sqlvalue) * list LogEvent :=
  if fails (fst job) then (fst acc, snd acc ++ [ChunkInsertError (fst job)])
  else (fst acc ++ to_records (snd job), snd acc).

(** Lines 210-211: the pool runs [insert_chunk] on every chunk; [order]
    is the order in which the inserts reach the table. *)
Definition executor_map (fails : nat -> bool) (order : list nat)
    (chunks : list (DataFrame sqlvalue)) (stored : list (dict sqlvalue))
  : list (dict sqlvalue) * list LogEvent :=
  fold_left (insert_chunk fails)
    (omap (fun i => pair i <$> chunks !! i) order) (stored, []).

Section Sync.

Variable config : DatabaseConfig.
(** The date of [datetime.now()] at line 162 and at line 184. *)
Variable today_at_read today_at_delete : Z.
(** Which chunk inserts fail, and the order in which the pool commits. *)
Variable fails : nat -> bool.
Variable order : list nat.

(** [sync_postgres_to_sqlserver], lines 156-213, against the rows [view]
    of the source view. *)
Definition sync_postgres_to_sqlserver (view : DataFrame sqlvalue)
    (view_name target_table date_column : string) (days : Z)
    (source_schema target_schema : option string) (chunksize max_threads : Z)
    (db : SqlStore) : Effect SqlStore :=
  let source_schema := default (postgres_schema config) (truthy source_schema) in
  let target_schema := default (sqlserver_schema config) (truthy target_schema) in
  let source := qualified source_schema view_name in
  let target := qualified target_schema target_table in
  let log0 := [SyncStarting source target] in
  let start_date := today_at_read - days in
  match read_sql view source date_column start_date with
  | Raise e => mkEffect db log0 (Some e)
  | Ok df =>
      let log1 := log0 ++ [ReadRecords (len df) source] in
      if empty df then mkEffect db (log1 ++ [NoDataFound view_name]) None
      else
        match coerce_date_column date_column (_preprocess_dataframe df) with
        | Raise e => mkEffect db log1 (Some e)
        | Ok df =>
            let sql_columns :=
              _get_sqlserver_columns target_schema target_table db in
            match getitem_list SqlNull
                    (common_columns (columns df) sql_columns) df with
            | Raise e => mkEffect db log1 (Some e)
            | Ok df =>
                let end_date := today_at_delete in
                match db !! target with
                | None => mkEffect db log1 (Some (ProgrammingError target))
                | Some t =>
                    if negb (mem date_column (table_columns t)) then
                      mkEffect db log1 (Some (ProgrammingError target))
                    else
                      let kept :=
                        filter (fun r =>
                            negb (in_window date_column start_date end_date r))
                          (table_rows t) in
                      let deleted :=
                        <[target := mkTable (table_columns t) kept]> db in
                      let log2 :=
                        log1 ++ [DeletedData target start_date end_date] in
                      match chunks_of df chunksize with
                      | Raise e => mkEffect deleted log2 (Some e)
                      | Ok chunks =>
                          if max_threads <=? 0 then
                            mkEffect deleted log2 (Some ValueError)
                          else
                            let '(stored, errors) :=
                              executor_map fails order chunks kept in
                            mkEffect
                              (<[target := mkTable (table_columns t) stored]> db)
                              (log2 ++ errors ++ [Inserted (len df) target])
                              None
                      end
                end
            end
        end
  end.

End Sync.

End DatabaseManager.

(* ===================================================================== *)
(** * [GraphAPIDataProcessor] *)
(* ===================================================================== *)

Module GraphAPIDataProcessor.

Import Pandas.

(** [generate_unique_id(row)], lines 164-165. *)
Definition generate_unique_id (row : list cell) : string :=
  let concatenated := join "_" (astype_str row) in
  Hashlib.md5_hexdigest concatenated.

(** ** The coercions of lines 199-202 and 213 *)

Definition is_space (c : ascii) : bool :=
  let n := N_of_ascii c in
  (((9 <=? n) && (n <=? 13)) || (n =? 32))%N.

Definition is_digit (c : ascii) : bool :=
  let n := N_of_ascii c in
  ((48 <=? n) && (n <=? 57))%N.

Definition digit_value (c : ascii) : Z := Z.of_N (N_of_ascii c) - 48.

Fixpoint lstrip (s : string) : string :=
  match s with
  | String c s' => if is_space c then lstrip s' else s
  | EmptyString => s
  end.

Definition strip (s : string) : string :=
  String.rev (lstrip (String.rev (lstrip s))).

(** Decimal digits, single underscores allowed between two digits. *)
Fixpoint digits (acc : Z) (after_underscore : bool) (s : string) : option Z :=
  match s with
  | EmptyString => if after_underscore then None else Some acc
  | String c s' =>
      if is_digit c then digits (10 * acc + digit_value c) false s'
      else if Ascii.eqb c "_" && negb after_underscore then digits acc true s'
      else None
  end.

Definition unsigned (s : string) : option Z :=
  match s with
  | String c s' => if is_digit c then digits (digit_value c) false s' else None
  | EmptyString => None
  end.

(** [int(s)] for a string of ASCII characters: blanks around an optional
    sign and decimal digits; [None] stands for [ValueError]. *)
Definition int_of_str (s : string) : option Z :=
  match strip s with
  | String "-" s' => Z.opp <$> unsigned s'
  | String "+" s' => unsigned s'
  | s' => unsigned s'
  end.

(** [int(item.get(key, 0))]. *)
Definition int_or_zero (field : option string) : result Z :=
  match field with
  | None => Ok 0
  | Some s =>
      match int_of_str s with
      | Some n => Ok n
      | None => Raise ValueError
      end
  end.

Definition of_option (field : option string) : cell :=
  match field with
  | Some s => CStr s
  | None => CNone
  end.

Section Process.

(** [float(s)] on a string, as the [repr] of the double it gives; [None]
    stands for [ValueError]. Decimal-to-binary rounding is not modelled:
    the function is a parameter. *)
Variable float_of_str : string -> option string.

(** [float(item.get('spend', 0))]. *)
Definition float_or_zero (field : option string) : result cell :=
  match field with
  | None => Ok (CFloat "0.0")
  | Some s =>
      match float_of_str s with
      | Some r => Ok (CFloat r)
      | None => Raise ValueError
      end
  end.

(** Lines 189-204: the dict [adset_info] of one insight item. *)
Definition adset_info (account_id : string) (item : Raw.InsightItem)
  : result (dict cell) :=
  spend ← float_or_zero (Raw.spend item);
  clicks ← int_or_zero (Raw.clicks item);
  inline_link_clicks ← int_or_zero (Raw.inline_link_clicks item);
  impressions ← int_or_zero (Raw.impressions item);
  Ok [("account_id", CStr account_id);
      ("account_name", of_option (Raw.account_name item));
      ("adset_id", of_option (Raw.adset_id item));
      ("adset_name", of_option (Raw.adset_name item));
      ("ad_id", of_option (Raw.ad_id item));
      ("ad_name", of_option (Raw.ad_name item));
      ("campaign_id", of_option (Raw.campaign_id item));
      ("campaign_name", of_option (Raw.campaign_name item));
      ("objective", of_option (Raw.objective item));
      ("spend", spend);
      ("clicks", CInt clicks);
      ("inline_link_clicks", CInt inline_link_clicks);
      ("impressions", CInt impressions);
      ("date", of_option (Raw.date_start item))].

(** Lines 209-215: the dict of one action of an item. *)
Definition action_info (account_id : string) (item : Raw.InsightItem)
    (action : Raw.Action) : result (dict cell) :=
  value ← int_or_zero (Raw.value action);
  Ok [("account_id", CStr account_id);
      ("ad_id", of_option (Raw.ad_id item));
      ("action_type", of_option (Raw.action_type action));
      ("value", CInt value);
      ("date", of_option (Raw.date_start item))].

(** Lines 188-215: the loop over the insights, filling [adset_data] and
    [actions_data]. *)
Fixpoint process_items (account_id : string) (insights : list Raw.InsightItem)
  : result (list (dict cell) * list (dict cell)) :=
  match insights with
  | [] => Ok ([], [])
  | item :: rest =>
      info ← adset_info account_id item;
      acts ← map_result (action_info account_id item)
                (default [] (Raw.actions item));
      '(adset_data, actions_data) ← process_items account_id rest;
      Ok (info :: adset_data, acts ++ actions_data)
  end.

(** Lines 224-230: the dict of one campaign. *)
Definition campaign_info (account_id : string) (campaign : Raw.CampaignItem)
  : dict cell :=
  [("account_id", CStr account_id);
   ("campaign_id", of_option (Raw.id campaign));
   ("campaign_name", of_option (Raw.name campaign));
   ("campaign_status", of_option (Raw.status campaign));
   ("start_time", of_option (Raw.start_time campaign))].

(** [process_insights_data(insights, campaigns, account_id)], lines
    184-248: the pair [(df_ads, df_actions)]. *)
Definition process_insights_data (insights : list Raw.InsightItem)
    (campaigns : list Raw.CampaignItem) (account_id : string)
  : result (DataFrame cell * DataFrame cell) :=
  '(adset_data, actions_data) ← process_items account_id insights;
  let df_adset := from_records CNaN adset_data in
  let df_actions := from_records CNaN actions_data in
  let campaigns_data := map (campaign_info account_id) campaigns in
  let df_campaigns := from_records CNaN campaigns_data in
  status ← getitem_list CNaN ["campaign_id"; "campaign_status"] df_campaigns;
  df_ads ← merge_left CNaN key_match df_adset status "campaign_id";
  let df_ads :=
    if negb (empty df_ads) then
      setitem "unique_id"
        (map (fun row => CStr (generate_unique_id row)) (rows df_ads)) df_ads
    else df_ads in
  Ok (df_ads, df_actions).

End Process.

End GraphAPIDataProcessor.

(* ===================================================================== *)
(** * [extract_meta_ads_data] *)
(* ===================================================================== *)

Module Pipeline.

Import Pandas DatabaseManager GraphAPIDataProcessor.

(** How a call of [extract_meta_ads_data] ends: it returns, it raises, or
    it is left waiting for an endpoint that answers no more. In each case
    the store is the one the call leaves behind. *)
Inductive Exit : Type :=
| Completed (db : PgStore)
| Raised (e : exn) (db : PgStore)
| Blocked.

Section Extract.

Variable float_of_str : string -> option string.
(** What [GraphAPIConfig()] and [date.today()] read from the environment,
    and the configuration of [db_manager]. *)
Variable api_config : GraphAPIConfig.
Variable today : Z.
Variable db_config : DatabaseConfig.

(** [extract_meta_ads_data(account_id, access_token, table_name,
    actions_table_name, db_manager, schema)], lines 275-299, against the
    outcomes of the two endpoints and the primary store [db]. *)
Definition extract_meta_ads_data (account_id access_token : string)
    (table_name actions_table_name : string) (schema : option string)
    (insights_script : list (Outcome Raw.InsightItem))
    (campaigns_script : list (Outcome Raw.CampaignItem))
    (db : PgStore) : Exit :=
  let client := mkClient account_id access_token api_config in
  match get_insights client today insights_script with
  | Waiting _ => Blocked
  | Finished fetched_insights _ =>
      let insights := all_data fetched_insights in
      match get_campaigns client campaigns_script with
      | Waiting _ => Blocked
      | Finished fetched_campaigns _ =>
          let campaigns := all_data fetched_campaigns in
          match process_insights_data float_of_str insights campaigns
                  account_id with
          | Raise e => Raised e db
          | Ok (df_ads, df_actions) =>
              let ads :=
                upsert_dataframe db_config df_ads table_name "date" schema db in
              match raised ads with
              | Some e => Raised e (store ads)
              | None =>
                  let acts :=
                    upsert_dataframe db_config df_actions actions_table_name
                      "date" schema (store ads) in
                  match raised acts with
                  | Some e => Raised e (store acts)
                  | None => Completed (store acts)
                  end
              end
          end
      end
  end.

End Extract.

End Pipeline.

(* ===================================================================== *)
(** * Python strings: [split] and [strip] *)
(* ===================================================================== *)

Module PyStr.

(** [s.split(sep)] for a separator of one character: the pieces between
    the separators; a string without the separator is one piece. *)
Fixpoint split (sep : ascii) (s : string) : list string :=
  match s with
  | EmptyString => [EmptyString]
  | String c s' =>
      if Ascii.eqb c sep then EmptyString :: split sep s'
      else
        match split sep s' with
        | piece :: pieces => String c piece :: pieces
        | [] => [String c EmptyString]
        end
  end.

Definition utf8 (bytes : list N) : string :=
  fold_right (fun b s => String (ascii_of_N b) s) EmptyString bytes.

(** The characters for which [str.isspace()] holds, as their UTF-8 bytes
    (a string is kept as its UTF-8 bytes): U+0009 to U+000D, U+001C to
    U+0020, U+0085, U+00A0, U+1680, U+2000 to U+200A, U+2028, U+2029,
    U+202F, U+205F, U+3000. *)
Definition whitespace : list string :=
  map utf8
    [[9]; [10]; [11]; [12]; [13]; [28]; [29]; [30]; [31]; [32];
     [194; 133]; [194; 160]; [225; 154; 128];
     [226; 128; 128]; [226; 128; 129]; [226; 128; 130]; [226; 128; 131];
     [226; 128; 132]; [226; 128; 133]; [226; 128; 134]; [226; 128; 135];
     [226; 128; 136]; [226; 128; 137]; [226; 128; 138];
     [226; 128; 168]; [226; 128; 169]; [226; 128; 175];
     [226; 129; 159]; [227; 128; 128]]%N.

(** [s] without its prefix [p], when it starts with [p]. *)
Fixpoint removeprefix (p s : string) : option string :=
  match p, s with
  | EmptyString, _ => Some s
  | String a p', String b s' =>
      if Ascii.eqb a b then removeprefix p' s' else None
  | String _ _, EmptyString => None
  end.

(** [s] without its first character, when that is one of [blanks]. *)
Definition drop_blank (blanks : list string) (s : string) : option string :=
  head (omap (fun w => removeprefix w s) blanks).

Fixpoint lstrip_with (blanks : list string) (fuel : nat) (s : string)
  : string :=
  match fuel with
  | O => s
  | S fuel' =>
      match drop_blank blanks s with
      | Some s' => lstrip_with blanks fuel' s'
      | None => s
      end
  end.

(** [s.lstrip()], [s.rstrip()] and [s.strip()]. *)
Definition lstrip (s : string) : string :=
  lstrip_with whitespace (String.length s) s.

Definition rstrip (s : string) : string :=
  String.rev
    (lstrip_with (map String.rev whitespace) (String.length s) (String.rev s)).

Definition strip (s : string) : string := rstrip (lstrip s).

(** [c in s]. *)
Fixpoint has_char (c : ascii) (s : string) : bool :=
  match s with
  | EmptyString => false
  | String c' s' => Ascii.eqb c' c || has_char c s'
  end.

(** [s.replace(old, new)] for two characters. *)
Fixpoint replace_char (old new : ascii) (s : string) : string :=
  match s with
  | EmptyString => EmptyString
  | String c s' =>
      String (if Ascii.eqb c old then new else c) (replace_char old new s')
  end.

End PyStr.

(* ===================================================================== *)
(** * [AccountsConfig], from [config/accounts_config.py] *)
(* ===================================================================== *)

Module AccountsConfig.

Import PyStr.

(** The environment: [os.getenv(name)] is [env !! name]. *)
Abbreviation Environ := (gmap string string).

(** The texts of the [ValueError]s of this class, and that of [range]. *)
Inductive message : Type :=
| NoTokensConfigured
| NoAccountsConfigured
| InvalidFormat (item : string)
| NoValidAccounts
| NoAccounts
| NoTokens
| DuplicateAccountIds
| DuplicateTableNames
| RangeStepZero
| NotInList.

(** The exceptions raised here. [IndexError (Some i)] is the one of line
    93, [IndexError None] the one of list indexing. *)
Inductive exn : Type :=
| ValueError (m : message)
| IndexError (index : option Z)
| ZeroDivisionError.

Inductive raising (A : Type) : Type :=
| Returns (a : A)
| Raises (e : exn).
Arguments Returns {A} a.
Arguments Raises {A} e.

#[global] Instance raising_ret : MRet raising := fun A a => Returns a.

#[global] Instance raising_bind : MBind raising := fun A B k m =>
  match m with
  | Returns a => k a
  | Raises e => Raises e
  end.

(** A list comprehension or loop whose body can raise. *)
Fixpoint map_raising {A B : Type} (f : A -> raising B) (l : list A)
  : raising (list B) :=
  match l with
  | [] => Returns []
  | a :: l' => b ← f a; bs ← map_raising f l'; Returns (b :: bs)
  end.

(** One account: the dict with the keys ['account_id'] and ['table']. *)
Record Account : Type := mkAccount {
  account_id : string;
  table : string
}.

#[global] Instance account_eq_dec : EqDecision Account.
Proof. solve_decision. Defined.

(** The attributes of an [AccountsConfig] object. *)
Record Self : Type := mkSelf {
  tokens : list string;
  accounts : list Account
}.

(** [_load_tokens()], lines 23-32. *)
Definition _load_tokens (env : Environ) : raising (list string) :=
  let tokens_str := default EmptyString (env !! "GRAPH_API_TOKENS") in
  let tokens :=
    map strip
      (filter (fun token => strip token <> EmptyString)
         (split "," tokens_str)) in
  match tokens with
  | [] => Raises (ValueError NoTokensConfigured)
  | _ => Returns tokens
  end.

(** Lines 55-70: the loop over the pieces of [META_ACCOUNTS]. The first
    piece that is not of the form [account_id:table_name] raises. *)
Fixpoint parse_accounts (items : list string) : raising (list Account) :=
  match items with
  | [] => Returns []
  | item :: rest =>
      let item := strip item in
      if bool_decide (item = EmptyString) then parse_accounts rest
      else
        match split ":" item with
        | [account_id; table_name] =>
            accounts ← parse_accounts rest;
            Returns ({| account_id := strip account_id;
                        table := strip table_name |} :: accounts)
        | _ => Raises (ValueError (InvalidFormat item))
        end
  end.

(** [_load_accounts()], lines 46-75. *)
Definition _load_accounts (env : Environ) : raising (list Account) :=
  let accounts_str := default EmptyString (env !! "META_ACCOUNTS") in
  if bool_decide (accounts_str = EmptyString) then
    Raises (ValueError NoAccountsConfigured)
  else
    accounts ← parse_accounts (split "," accounts_str);
    match accounts with
    | [] => Raises (ValueError NoValidAccounts)
    | _ => Returns accounts
    end.

(** [AccountsConfig()], lines 10-11. *)
Definition __init__ (env : Environ) : raising Self :=
  tokens ← _load_tokens env;
  accounts ← _load_accounts env;
  Returns {| tokens := tokens; accounts := accounts |}.

(** [l[i]] on a list: a negative index counts from the end; [None] stands
    for the [IndexError] of an index out of range. *)
Definition list_item {A : Type} (l : list A) (i : Z) : option A :=
  let n := Z.of_nat (length l) in
  if i <? 0 then
    if i + n <? 0 then None else l !! Z.to_nat (i + n)
  else l !! Z.to_nat i.

(** [get_account_with_token(account_index)], lines 92-99. *)
Definition get_account_with_token (self : Self) (account_index : Z)
  : raising (Account * string) :=
  if Z.of_nat (length (accounts self)) <=? account_index then
    Raises (IndexError (Some account_index))
  else
    match list_item (accounts self) account_index with
    | None => Raises (IndexError None)
    | Some account =>
        if Z.of_nat (length (tokens self)) =? 0 then Raises ZeroDivisionError
        else
          match list_item (tokens self)
                  (account_index mod Z.of_nat (length (tokens self))) with
          | None => Raises (IndexError None)
          | Some token => Returns (account, token)
          end
    end.

(** A bound of a slice, brought into [0, n]. *)
Definition slice_bound (n i : Z) : Z :=
  if i <? 0 then Z.max 0 (i + n) else Z.min i n.

(** [l[start:stop]]. *)
Definition slice {A : Type} (l : list A) (start stop : Z) : list A :=
  let n := Z.of_nat (length l) in
  let lo := slice_bound n start in
  let hi := slice_bound n stop in
  take (Z.to_nat (hi - lo)) (drop (Z.to_nat lo) l).

(** [get_accounts_chunk(start_idx, end_idx)], line 112. *)
Definition get_accounts_chunk (self : Self) (start_idx end_idx : Z)
  : list Account :=
  slice (accounts self) start_idx end_idx.

(** [list(range(start, stop, step))]. *)
Definition range (start stop step : Z) : raising (list Z) :=
  if step =? 0 then Raises (ValueError RangeStepZero)
  else
    let count :=
      if 0 <? step then (stop - start + step - 1) / step
      else (start - stop - step - 1) / (- step) in
    Returns (map (fun k => start + Z.of_nat k * step) (seq 0 (Z.to_nat count))).

(** [split_accounts_into_groups(num_groups)], lines 124-131. Python's
    [//] rounds down, as [Z.div] does. *)
Definition split_accounts_into_groups (self : Self) (num_groups : Z)
  : raising (list (list Account)) :=
  let total_accounts := Z.of_nat (length (accounts self)) in
  if num_groups =? 0 then Raises ZeroDivisionError
  else
    let accounts_per_group := (total_accounts + num_groups - 1) / num_groups in
    starts ← range 0 total_accounts accounts_per_group;
    Returns (map (fun i => slice (accounts self) i (i + accounts_per_group))
               starts).

(** [get_total_accounts()] and [get_total_tokens()]. *)
Definition get_total_accounts (self : Self) : nat := length (accounts self).
Definition get_total_tokens (self : Self) : nat := length (tokens self).

(** [len(set(names))]. *)
Definition distinct (names : list string) : nat :=
  size (list_to_set names : gset string).

(** [validate_configuration()], lines 151-167. *)
Definition validate_configuration (self : Self) : raising bool :=
  match accounts self, tokens self with
  | [], _ => Raises (ValueError NoAccounts)
  | _, [] => Raises (ValueError NoTokens)
  | _, _ =>
      let account_ids := map account_id (accounts self) in
      if negb (length account_ids =? distinct account_ids)%nat then
        Raises (ValueError DuplicateAccountIds)
      else
        let table_names := map table (accounts self) in
        if negb (length table_names =? distinct table_names)%nat then
          Raises (ValueError DuplicateTableNames)
        else Returns true
  end.

End AccountsConfig.

(* ===================================================================== *)
(** * The DAG, from [dags/meta_graph_api_pipeline.py] *)
(* ===================================================================== *)

Module Dag.

Import Pandas DatabaseManager Pipeline.

(** ** The task functions *)

Section Tasks.

Variable float_of_str : string -> option string.
(** What [GraphAPIConfig()], [date.today()] and [DatabaseConfig()] read
    from the environment. *)
Variable api_config : GraphAPIConfig.
Variable today : Z.
Variable db_config : DatabaseConfig.

(** [extract_account_data(account_id, token, table_name)], lines 54-67.
    The [dispose()] of the [finally] releases the connections of the
    manager; the rows of the store and the exception are those of the
    call. *)
Definition extract_account_data (account_id token table_name : string)
    (insights_script : list (Outcome Raw.InsightItem))
    (campaigns_script : list (Outcome Raw.CampaignItem))
    (db : PgStore) : Exit :=
  extract_meta_ads_data float_of_str api_config today db_config
    account_id token table_name (table_name +:+ "_actions")
    (Some (postgres_schema db_config))
    insights_script campaigns_script db.

(** What a call of [sync_postgres_to_sqlserver] meets at run time: the
    dates of its two [datetime.now()], the chunk inserts that fail and the
    order in which the pool commits. *)
Record Runtime : Type := mkRuntime {
  today_at_read : Z;
  today_at_delete : Z;
  fails : nat -> bool;
  order : list nat
}.

(** Lines 84-87: the views and their target tables. *)
Definition sync_mappings : list (string * string) :=
  [("vw_graph_ads", "graph_ads");
   ("vw_graph_ads_actions", "graph_ads_actions")].

(** Lines 90-96: the loop over the mappings; an exception leaves it.
    [views] gives the rows of each source view, [runtime] what the call
    for a view meets. *)
Fixpoint sync_each (views : string -> DataFrame sqlvalue)
    (runtime : string -> Runtime) (mappings : list (string * string))
    (db : SqlStore) : Effect SqlStore :=
  match mappings with
  | [] => mkEffect db [] None
  | mapping :: rest =>
      let at_run := runtime (fst mapping) in
      let run :=
        sync_postgres_to_sqlserver db_config
          (today_at_read at_run) (today_at_delete at_run)
          (fails at_run) (order at_run)
          (views (fst mapping)) (fst mapping) (snd mapping) "date" 15
          (Some (postgres_schema db_config))
          (Some (sqlserver_schema db_config)) 1000 8 db in
      match raised run with
      | Some e => run
      | None =>
          let later := sync_each views runtime rest (store run) in
          mkEffect (store later) (log run ++ log later) (raised later)
      end
  end.

(** [sync_to_sqlserver()], lines 80-98. *)
Definition sync_to_sqlserver (views : string -> DataFrame sqlvalue)
    (runtime : string -> Runtime) (db : SqlStore) : Effect SqlStore :=
  sync_each views runtime sync_mappings db.

End Tasks.

(** ** The tasks of the DAG *)

Import AccountsConfig.

(** An extraction task: its [task_id] and its [op_kwargs]. *)
Record Task : Type := mkTask {
  task_id : string;
  op_account_id : string;
  op_token : string;
  op_table_name : string
}.

Record TaskGroup : Type := mkTaskGroup {
  group_id : string;
  tooltip : string;
  tasks : list Task
}.

(** The DAG: its task groups, and its edges [upstream >> downstream]
    between the groups and the task [sync_to_sqlserver]. *)
Record Graph : Type := mkGraph {
  task_groups : list TaskGroup;
  dependencies : list (string * string)
}.

(** [l.index(x)]: the first position of [x]. *)
Fixpoint index {A : Type} `{EqDecision A} (x : A) (l : list A) : option nat :=
  match l with
  | [] => None
  | y :: l' => if decide (y = x) then Some O else S <$> index x l'
  end.

(** Lines 143-158: the task of one account. *)
Definition extract_task (accounts_config : Self) (account : Account)
  : raising Task :=
  match index account (accounts accounts_config) with
  | None => Raises (ValueError NotInList)
  | Some global_idx =>
      '(_, token) ←
        get_account_with_token accounts_config (Z.of_nat global_idx);
      Returns {| task_id := "extract_" +:+ table account;
                 op_account_id := account_id account;
                 op_token := token;
                 op_table_name := table account |}
  end.

(** Lines 135-160: the task group of the group number [group_idx]. *)
Definition task_group (accounts_config : Self) (group_idx : Z)
    (accounts_group : list Account) : raising TaskGroup :=
  let size := Z.of_nat (length accounts_group) in
  group_tasks ← map_raising (extract_task accounts_config) accounts_group;
  Returns {| group_id := "accounts_group_" +:+ str_of_int group_idx;
             tooltip :=
               "Process accounts " +:+ str_of_int ((group_idx - 1) * size + 1)
               +:+ " to " +:+ str_of_int (group_idx * size);
             tasks := group_tasks |}.

(** Lines 171-175: the groups in sequence, then the synchronisation. *)
Definition chain (groups : list TaskGroup) : raising (list (string * string)) :=
  match last groups with
  | None => Raises (IndexError None)
  | Some final =>
      Returns (zip (map group_id groups) (map group_id (drop 1 groups))
               ++ [(group_id final, "sync_to_sqlserver")])
  end.

(** Lines 126-175: the DAG built from the environment. *)
Definition dag (env : Environ) : raising Graph :=
  accounts_config ← __init__ env;
  _ ← validate_configuration accounts_config;
  account_groups ← split_accounts_into_groups accounts_config 2;
  groups ←
    map_raising (fun numbered =>
        task_group accounts_config (Z.of_nat (fst numbered) + 1) (snd numbered))
      (imap pair account_groups);
  edges ← chain groups;
  Returns {| task_groups := groups; dependencies := edges |}.

End Dag.

(* ===================================================================== *)
(** * The SQL Server connection string of [DatabaseConfig] *)
(* ===================================================================== *)

Module Urllib.

Import PyStr.

(** The bytes [quote] never escapes: letters, digits and [_.-~]. *)
Definition always_safe (c : ascii) : bool :=
  let n := N_of_ascii c in
  (((65 <=? n) && (n <=? 90)) || ((97 <=? n) && (n <=? 122))
   || ((48 <=? n) && (n <=? 57))
   || (n =? 95) || (n =? 46) || (n =? 45) || (n =? 126))%N.

Definition hex_upper (n : N) : ascii :=
  if (n <? 10)%N then ascii_of_N (48 + n) else ascii_of_N (55 + n).

(** One byte as [quote] writes it: itself when safe, [%XX] otherwise. *)
Definition quoter (safe : string) (c : ascii) : string :=
  if always_safe c || has_char c safe then String c EmptyString
  else
    let n := N_of_ascii c in
    String "%" (String (hex_upper (n / 16))
                  (String (hex_upper (n mod 16)) EmptyString)).

(** [urllib.parse.quote(s, safe)] on the UTF-8 bytes of [s]. *)
Fixpoint quote (safe : string) (s : string) : string :=
  match s with
  | EmptyString => EmptyString
  | String c s' => quoter safe c +:+ quote safe s'
  end.

(** [urllib.parse.quote_plus(s)]. *)
Definition quote_plus (s : string) : string :=
  if has_char " " s then replace_char " " "+" (quote " " s)
  else quote EmptyString s.

Definition hex_value (c : ascii) : option N :=
  let n := N_of_ascii c in
  if ((48 <=? n) && (n <=? 57))%N then Some (n - 48)%N
  else if ((65 <=? n) && (n <=? 70))%N then Some (n - 55)%N
  else if ((97 <=? n) && (n <=? 102))%N then Some (n - 87)%N
  else None.

(** [urllib.parse.unquote(s)] on bytes: every [%XX] becomes its byte. *)
Fixpoint unquote (s : string) : string :=
  match s with
  | EmptyString => EmptyString
  | String c rest =>
      if Ascii.eqb c "%" then
        match rest with
        | String a (String b s') =>
            match hex_value a, hex_value b with
            | Some x, Some y => String (ascii_of_N (16 * x + y)) (unquote s')
            | _, _ => String c (unquote rest)
            end
        | _ => String c (unquote rest)
        end
      else String c (unquote rest)
  end.

(** [urllib.parse.unquote_plus(s)], the reading the URL gets when the
    engine is created. *)
Definition unquote_plus (s : string) : string :=
  unquote (replace_char "+" " " s).

End Urllib.

Module Connection.

(** The attributes of [DatabaseConfig] that the SQL Server connection
    string uses. A variable the environment does not set is [None]; the
    port has a default. *)
Record Settings : Type := mkSettings {
  sqlserver_host : option string;
  sqlserver_port : string;
  sqlserver_database : option string;
  sqlserver_user : option string;
  sqlserver_password : option string
}.

(** Lines 23-27. *)
Definition settings_of (env : gmap string string) : Settings :=
  {| sqlserver_host := env !! "SQLSERVER_HOST";
     sqlserver_port := default "1433" (env !! "SQLSERVER_PORT");
     sqlserver_database := env !! "SQLSERVER_DATABASE";
     sqlserver_user := env !! "SQLSERVER_USER";
     sqlserver_password := env !! "SQLSERVER_PASSWORD" |}.

(** A value in an f-string: [None] is written as the text None. *)
Definition formatted (v : option string) : string := default "None" v.

(** Lines 39-48. *)
Definition odbc_string (self : Settings) : string :=
  "Driver={ODBC Driver 18 for SQL Server};"
  +:+ "Server=tcp:" +:+ formatted (sqlserver_host self) +:+ ","
  +:+ sqlserver_port self +:+ ";"
  +:+ "Database=" +:+ formatted (sqlserver_database self) +:+ ";"
  +:+ "Uid=" +:+ formatted (sqlserver_user self) +:+ ";"
  +:+ "Pwd=" +:+ formatted (sqlserver_password self) +:+ ";"
  +:+ "Encrypt=yes;"
  +:+ "TrustServerCertificate=no;"
  +:+ "Connection Timeout=30;".

(** [get_sqlserver_connection_string()], line 49, for the settings the
    environment gives. *)
Definition get_sqlserver_connection_string (env : gmap string string)
  : string :=
  "mssql+pyodbc:///?odbc_connect="
  +:+ Urllib.quote_plus (odbc_string (settings_of env)).

End Connection.

Import Pandas DatabaseManager GraphAPIDataProcessor Pipeline.

(* ===================================================================== *)
(** * Vocabulary of the properties *)
(* ===================================================================== *)

(** [needle] occurs in [hay] when case is ignored: the lower-cased text
    has the lower-cased phrase as a substring. *)
Definition occurs_ignoring_case (needle hay : string) : Prop :=
  exists before after : string,
    lower hay = before +:+ lower needle +:+ after.

Section PaginationVocabulary.

Context {Item : Type}.

(** A page answered with HTTP 200: its text, its items, its next link. *)
Definition page (body_text : string) (items : list Item)
    (next : option string) : Outcome Item :=
  Responds {| status_code := 200; text := body_text;
              json := Some {| data := Some items; paging_next := next |} |}.

(** A page that has a next link, as the triple of its text, its items and
    that link. *)
Definition linked_page (p : string * list Item * string) : Outcome Item :=
  page (fst (fst p)) (snd (fst p)) (Some (snd p)).

Definition items_of (p : string * list Item * string) : list Item :=
  snd (fst p).

Definition link_of (p : string * list Item * string) : string := snd p.

(** A fatal outcome: an answer other than 200 without the rate-limit
    phrase, or a network-level exception. *)
Definition fatal (o : Outcome Item) : Prop :=
  match o with
  | RaisesRequestException => True
  | Responds r => status_code r <> 200 /\ is_rate_limit r = false
  end.

(** The items of the successful pages among the outcomes. *)
Definition successful_items (script : list (Outcome Item)) : list Item :=
  flat_map (fun o =>
      match o with
      | Responds r =>
          if status_code r =? 200 then
            match json r with
            | Some body => default [] (data body)
            | None => []
            end
          else []
      | RaisesRequestException => []
      end)
    script.

(** The requests among the events of a trace. *)
Definition requests_of (events : list Event) : list Request :=
  omap (fun e => match e with Get r => Some r | Sleep _ => None end) events.

(** The state after one rate-limited attempt on [cur]: the request and the
    sleep are added to the trace, nothing else changes. *)
Definition backoff (config : GraphAPIConfig) (url : string) (params : Params)
    (cur : string) (st : LoopState Item) : LoopState Item :=
  {| all_data := all_data st;
     next_url := next_url st;
     page_count := page_count st;
     trace := trace st ++ [Get (request_for config url params cur);
                           Sleep (rate_limit_sleep config)] |}.

End PaginationVocabulary.

(** ** The date column of a frame *)

(** The cells of a column of strings, or of a column of ints. *)
Definition one_kind (cells : list cell) : Prop :=
  all_str cells || all_int cells = true.

(** ** The synchronisation *)

(** Values of a column of SQL type date or timestamp. *)
Definition is_dated (v : sqlvalue) : bool :=
  match v with
  | SqlDate _ | SqlTimestamp _ _ | SqlNull => true
  | _ => false
  end.

(** The rows read from the view and prepared for the target: lines
    168-177 in one piece. *)
Definition prepared_frame (view : DataFrame sqlvalue)
    (source date_column : string) (start_date : Z)
  : result (DataFrame sqlvalue) :=
  df ← read_sql view source date_column start_date;
  coerce_date_column date_column (_preprocess_dataframe df).

(** The cells of a row under the columns [names] of a frame with the
    columns [cols]. *)
Definition project (cols names : list string) (row : list sqlvalue)
  : list sqlvalue :=
  map (fun n => cell_at SqlNull (default 0%nat (column_index n cols)) row)
    names.

(** The frame [sync_postgres_to_sqlserver] hands to the chunked insert:
    lines 168-181 in one piece. *)
Definition frame_to_write (view : DataFrame sqlvalue)
    (source date_column : string) (start_date : Z) (sql_columns : list string)
  : result (DataFrame sqlvalue) :=
  df ← prepared_frame view source date_column start_date;
  getitem_list SqlNull (common_columns (columns df) sql_columns) df.

(** The rows a run of the chunked insert adds: those of the chunks whose
    insert does not fail, in the order the pool commits them. *)
Definition written_rows (fails : nat -> bool) (order : list nat)
    (chunks : list (DataFrame sqlvalue)) : list (dict sqlvalue) :=
  flat_map (fun i =>
      match chunks !! i with
      | Some chunk => if fails i then [] else to_records chunk
      | None => []
      end)
    order.

(** The errors a run of the chunked insert prints. *)
Definition chunk_errors (fails : nat -> bool) (order : list nat)
    (chunks : list (DataFrame sqlvalue)) : list LogEvent :=
  flat_map (fun i =>
      match chunks !! i with
      | Some _ => if fails i then [ChunkInsertError i] else []
      | None => []
      end)
    order.

(** ** The frames of the data processor *)

(** The columns of [df_adset] and of [df_actions]. *)
Definition adset_columns : list string :=
  ["account_id"; "account_name"; "adset_id"; "adset_name"; "ad_id"; "ad_name";
   "campaign_id"; "campaign_name"; "objective"; "spend"; "clicks";
   "inline_link_clicks"; "impressions"; "date"].

Definition actions_columns : list string :=
  ["account_id"; "ad_id"; "action_type"; "value"; "date"].

(** The columns of [df_ads]. *)
Definition ads_columns : list string :=
  adset_columns ++ ["campaign_status"; "unique_id"].

(** The columns of [df_campaigns]. *)
Definition campaign_columns : list string :=
  ["account_id"; "campaign_id"; "campaign_name"; "campaign_status";
   "start_time"].

(** Whether [int(field or 0)] and [float(field or 0)] return. *)
Definition int_coerces (field : option string) : bool :=
  match field with
  | None => true
  | Some s => match int_of_str s with Some _ => true | None => false end
  end.

Definition float_coerces (float_of_str : string -> option string)
    (field : option string) : bool :=
  match field with
  | None => true
  | Some s => match float_of_str s with Some _ => true | None => false end
  end.

(** An insight item whose numeric fields, and those of its actions, are
    numbers. *)
Definition coerces (float_of_str : string -> option string)
    (item : Raw.InsightItem) : bool :=
  float_coerces float_of_str (Raw.spend item)
  && int_coerces (Raw.clicks item)
  && int_coerces (Raw.inline_link_clicks item)
  && int_coerces (Raw.impressions item)
  && forallb (fun a => int_coerces (Raw.value a))
       (default [] (Raw.actions item)).

(** The cells of the candidate row of an insight item: the values of its
    [adset_info]. *)
Definition candidate (float_of_str : string -> option string)
    (account_id : string) (item : Raw.InsightItem) : list cell :=
  match adset_info float_of_str account_id item with
  | Ok info => map snd info
  | Raise _ => []
  end.

(** The statuses the left join attaches to an item: the status of each
    campaign that has the item's campaign identifier, in the order of the
    campaigns, or NaN alone when there is none. *)
Definition joined_statuses (campaigns : list Raw.CampaignItem)
    (item : Raw.InsightItem) : list cell :=
  match filter (fun c => bool_decide (Raw.id c = Raw.campaign_id item))
          campaigns with
  | [] => [CNaN]
  | matched => map (fun c => of_option (Raw.status c)) matched
  end.

(** The status the left join attaches to an item when no two campaigns
    share an identifier: that of the campaign with the item's identifier,
    or NaN. *)
Definition campaign_status_of (campaigns : list Raw.CampaignItem)
    (item : Raw.InsightItem) : cell :=
  match List.find (fun c => bool_decide (Raw.id c = Raw.campaign_id item))
          campaigns with
  | Some c => of_option (Raw.status c)
  | None => CNaN
  end.

(** The row of [df_ads] made of candidate cells and a status: the cells,
    the status, and the fingerprint of both. *)
Definition ad_record (cells : list cell) (status : cell) : list cell :=
  (cells ++ [status]) ++ [CStr (generate_unique_id (cells ++ [status]))].

(** An item with a date whose numeric fields are numbers. *)
Definition dated_item (float_of_str : string -> option string)
    (item : Raw.InsightItem) : Prop :=
  coerces float_of_str item = true /\ is_Some (Raw.date_start item).

(** ** Sample data for the concrete runs *)

(** A view with the columns a, b, c (a being the date column) and three
    rows, a target with the columns a, c, d, chunks of two rows, the second
    of which fails, the pool committing the second chunk first. *)
Definition sample_view : DataFrame sqlvalue :=
  {| columns := ["a"; "b"; "c"];
     rows := [[SqlDate 19730; SqlText "x"; SqlInt 1];
              [SqlTimestamp 19731 3600; SqlJson "{}"; SqlInt 2];
              [SqlDate 19732; SqlText "z"; SqlInt 3]] |}.

Definition sample_target : Table :=
  {| table_columns := ["a"; "c"; "d"];
     table_rows := [[("a", SqlDate 19000); ("c", SqlInt 0); ("d", SqlInt 0)];
                    [("a", SqlDate 19731); ("c", SqlInt 9); ("d", SqlInt 9)]] |}.

Definition sample_store : SqlStore := {["dbo.t" := sample_target]}.

Definition second_fails (k : nat) : bool := Nat.eqb k 1.

(** An account whose insights listing breaks with an answer 500 after one
    page, whose campaigns listing has one page, and whose two tables
    exist. *)
Definition sample_insight : Raw.InsightItem :=
  Raw.mkInsight (Some "Acme") (Some "as1") None (Some "ad1") None (Some "c1")
    None None None (Some "3") None (Some "100") (Some "2024-01-01")
    (Some [Raw.mkAction (Some "purchase") (Some "2")]).

Definition sample_campaign : Raw.CampaignItem :=
  Raw.mkCampaign (Some "c1") (Some "Spring") (Some "ACTIVE") None.


Definition sample_tables : PgStore :=
  <["public.ads" := []]> (<["public.ads_actions" := []]> ∅).

(** ** Further vocabulary *)

Section TraceVocabulary.

Context {Item : Type}.

(** The sleeps among the events of a trace. *)
Definition sleeps_of (events : list Event) : list Z :=
  omap (fun e => match e with Sleep s => Some s | Get _ => None end) events.

(** An answer other than 200 that holds the rate-limit phrase. *)
Definition rate_limited (o : Outcome Item) : bool :=
  match o with
  | Responds r => negb (status_code r =? 200) && is_rate_limit r
  | RaisesRequestException => false
  end.

End TraceVocabulary.

(** A request as the loop issues it for a URL: it carries the configured
    timeout, and the caller's params exactly when the URL is the initial
    one. *)
Definition well_formed_request (config : GraphAPIConfig) (url : string)
    (params : Params) (r : Request) : Prop :=
  req_timeout r = request_timeout config
  /\ req_params r = (if String.eqb (req_url r) url then Some params else None).

(** ** Strings and accounts *)

(** Blanks none of which is the empty string. *)
Definition proper (blanks : list string) : Prop :=
  Forall (fun w => w <> EmptyString) blanks.

Section AccountsVocabulary.

Import PyStr AccountsConfig.

(** A text as [strip] leaves it, without a comma and without a colon. *)
Definition clean (s : string) : Prop :=
  strip s = s /\ has_char "," s = false /\ has_char ":" s = false.

(** The pieces of a text between its commas, stripped, but for the blank
    ones. *)
Definition stripped_items (s : string) : list string :=
  filter (fun item => item <> EmptyString) (map strip (split "," s)).

(** An item of the form [account_id:table_name], and the account it
    gives. *)
Definition account_of (item : string) (account : Account) : Prop :=
  exists a t, split ":" item = [a; t]
              /\ account = {| account_id := strip a; table := strip t |}.

End AccountsVocabulary.

(** ** The actions frame *)

(** The cells of the row of one action of an insight item: the values of
    its [action_info]. *)
Definition action_record (account_id : string) (item : Raw.InsightItem)
    (action : Raw.Action) : list cell :=
  match action_info account_id item action with
  | Ok info => map snd info
  | Raise _ => []
  end.

(** The rows of the actions of a list of insight items, item by item. *)
Definition action_records (account_id : string)
    (insights : list Raw.InsightItem) : list (list cell) :=
  flat_map (fun item =>
      map (action_record account_id item) (default [] (Raw.actions item)))
    insights.

(** ** Frames and dates of the synchronisation *)

(** A frame whose rows hold one cell for each column. *)
Definition rectangular {C : Type} (df : DataFrame C) : Prop :=
  Forall (fun row => length row = length (columns df)) (rows df).

(** The day of a date or of a timestamp. *)
Definition day_of (v : sqlvalue) : option Z :=
  match v with
  | SqlDate d | SqlTimestamp d _ => Some d
  | _ => None
  end.

(** A row with its first [k] cells serialised. *)
Definition serialised_upto (k : nat) (row : list sqlvalue) : list sqlvalue :=
  map dumps_if_structured (take k row) ++ drop k row.

(** ** The connection string *)

(** The characters of an escaped text: letters, digits, [_.-~], and the
    [+] and [%] of the escapes. *)
Definition url_safe (c : ascii) : bool :=
  Urllib.always_safe c || Ascii.eqb c "+" || Ascii.eqb c "%".

(** ** Sample data for the further concrete runs *)

(** Three accounts and two tokens, as the environment gives them. *)
Definition sample_environ : gmap string string :=
  {[ "GRAPH_API_TOKENS" := "t1, t2 ,";
     "META_ACCOUNTS" := "1:a, 2:b ,3 : c" ]}.

Definition sample_accounts : AccountsConfig.Self :=
  {| AccountsConfig.tokens := ["t1"; "t2"];
     AccountsConfig.accounts :=
       [AccountsConfig.mkAccount "1" "a"; AccountsConfig.mkAccount "2" "b";
        AccountsConfig.mkAccount "3" "c"] |}.

(** A frame of two days, and a store whose table holds two older rows. *)
Definition sample_frame : DataFrame cell :=
  {| columns := ["date"; "clicks"];
     rows := [[CStr "2024-01-02"; CInt 5]; [CStr "2024-01-03"; CInt 7]] |}.

Definition sample_rows : list (dict cell) :=
  [[("date", CStr "2024-01-01"); ("clicks", CInt 1)];
   [("date", CStr "2024-01-02"); ("clicks", CInt 2)]].

(** The frame written from [sample_view] into [sample_target], and its
    chunks of two rows. *)
Definition sample_written : DataFrame sqlvalue :=
  {| columns := ["a"; "c"];
     rows := [[SqlDate 19730; SqlInt 1]; [SqlDate 19731; SqlInt 2];
              [SqlDate 19732; SqlInt 3]] |}.

Definition sample_chunks : list (DataFrame sqlvalue) :=
  [{| columns := ["a"; "c"];
      rows := [[SqlDate 19730; SqlInt 1]; [SqlDate 19731; SqlInt 2]] |};
   {| columns := ["a"; "c"]; rows := [[SqlDate 19732; SqlInt 3]] |}].

(* ===================================================================== *)
(** * Strings *)
(* ===================================================================== *)

Lemma append_cons (c : ascii) (s t : string) :
  String c s +:+ t = String c (s +:+ t).
Proof. reflexivity. Qed.

Lemma prefix_app (p s : string) :
  String.prefix p s = true <-> exists rest, s = p +:+ rest.
Proof.
  revert s. induction p as [|c p IH]; intros s.
  - split; [intros _; exists s; reflexivity | intros _; destruct s; reflexivity].
  - destruct s as [|d s]; simpl.
    + split; [discriminate | intros [rest H]; discriminate].
    + destruct (Ascii.ascii_dec c d) as [->|Hne].
      * rewrite IH. split; intros [rest H]; exists rest;
          rewrite append_cons in *; congruence.
      * split; [discriminate |].
        intros [rest H]. rewrite append_cons in H. congruence.
Qed.

Lemma contains_empty (needle : string) :
  contains needle EmptyString = String.prefix needle EmptyString || false.
Proof. reflexivity. Qed.

Lemma contains_cons (needle : string) (c : ascii) (hay : string) :
  contains needle (String c hay)
  = String.prefix needle (String c hay) || contains needle hay.
Proof. reflexivity. Qed.

Lemma contains_substring (needle hay : string) :
  contains needle hay = true <->
  exists before after, hay = before +:+ needle +:+ after.
Proof.
  induction hay as [|c hay IH].
  - rewrite contains_empty, orb_false_r, prefix_app. split.
    + intros [rest H]. exists EmptyString, rest. exact H.
    + intros [[|d before] [after H]]; [exists after; exact H | discriminate].
  - rewrite contains_cons, orb_true_iff, prefix_app, IH. split.
    + intros [[rest H] | [before [after H]]].
      * exists EmptyString, rest. exact H.
      * exists (String c before), after. rewrite append_cons. congruence.
    + intros [[|d before] [after H]].
      * left. exists after. exact H.
      * right. exists before, after. rewrite append_cons in H. congruence.
Qed.

Lemma lower_idempotent (s : string) : lower (lower s) = lower s.
Proof.
  induction s as [|c s IH]; simpl; [reflexivity |].
  rewrite IH. f_equal.
  destruct c as [[] [] [] [] [] [] [] []]; reflexivity.
Qed.

(** The test of [paginate_api] is the case-insensitive search for the
    phrase. *)
Lemma is_rate_limit_spec {Item : Type} (r : Response Item) :
  is_rate_limit r = true <-> occurs_ignoring_case rate_limit_phrase (text r).
Proof.
  unfold is_rate_limit, occurs_ignoring_case.
  rewrite contains_substring. reflexivity.
Qed.

(* ===================================================================== *)
(** * [paginate_api] *)
(* ===================================================================== *)

Section PaginationFacts.

Context {Item : Type}.
Variable config : GraphAPIConfig.
Variable url : string.
Variable params : Params.

Local Abbreviation loop := (while_next_url (Item := Item) config url params).
Local Abbreviation request := (request_for config url params).

Lemma truthy_some (s : string) : s <> EmptyString -> truthy (Some s) = Some s.
Proof. destruct s; [congruence | reflexivity]. Qed.

(** One pass of the loop on a state whose [next_url] is set. *)
Lemma loop_step (st : LoopState Item) (cur : string) (o : Outcome Item)
    (script : list (Outcome Item)) :
  truthy (next_url st) = Some cur ->
  loop (o :: script) st =
  match iteration config url params st cur o with
  | Continue st' => loop script st'
  | Break st' => Finished st' script
  end.
Proof. intros H. simpl. rewrite H. reflexivity. Qed.

Lemma loop_exit (st : LoopState Item) (script : list (Outcome Item)) :
  truthy (next_url st) = None -> loop script st = Finished st script.
Proof. intros H. destruct script; simpl; rewrite H; reflexivity. Qed.

(** A run that is still waiting goes on with the outcomes that follow. *)
Lemma loop_app (pre post : list (Outcome Item)) (st st' : LoopState Item) :
  loop pre st = Waiting st' -> loop (pre ++ post) st = loop post st'.
Proof.
  revert st. induction pre as [|o pre IH]; intros st H.
  - simpl in H. destruct (truthy (next_url st)) eqn:E; [|discriminate].
    inversion H; subst. reflexivity.
  - simpl in H |- *. destruct (truthy (next_url st)) as [cur|]; [|discriminate].
    destruct (iteration config url params st cur o); [|discriminate].
    apply IH. exact H.
Qed.

(** A waiting run has consumed every outcome, none of them fatal, and
    holds the items of the pages answered with 200. *)
Lemma loop_waiting_items (pre : list (Outcome Item)) (st st' : LoopState Item) :
  loop pre st = Waiting st' ->
  all_data st' = all_data st ++ successful_items pre.
Proof.
  revert st. induction pre as [|o pre IH]; intros st H.
  - simpl in H. destruct (truthy (next_url st)); [|discriminate].
    inversion H; subst. simpl. rewrite app_nil_r. reflexivity.
  - simpl in H. destruct (truthy (next_url st)) as [cur|]; [|discriminate].
    unfold iteration in H.
    destruct o as [r|]; [|discriminate].
    change (successful_items (Responds r :: pre))
      with ((if status_code r =? 200 then
               match json r with
               | Some body => default [] (data body)
               | None => []
               end
             else []) ++ successful_items pre).
    destruct (status_code r =? 200); simpl in H.
    + destruct (json r) as [body|]; [|discriminate].
      apply IH in H. rewrite H. simpl. rewrite <- app_assoc. reflexivity.
    + destruct (is_rate_limit r); [|discriminate].
      apply IH in H. rewrite H. reflexivity.
Qed.

Local Abbreviation after_backoff := (backoff config url params).

Lemma iteration_rate_limit (st : LoopState Item) (cur : string)
    (r : Response Item) :
  status_code r <> 200 -> is_rate_limit r = true ->
  iteration config url params st cur (Responds r)
  = Continue (after_backoff cur st).
Proof.
  intros Hs Hr. unfold iteration, backoff.
  apply Z.eqb_neq in Hs. rewrite Hs, Hr. simpl.
  rewrite <- app_assoc. reflexivity.
Qed.

Lemma iteration_fatal (st : LoopState Item) (cur : string) (o : Outcome Item) :
  fatal o ->
  iteration config url params st cur o
  = Break {| all_data := all_data st;
             next_url := next_url st;
             page_count := page_count st;
             trace := trace st ++ [Get (request cur)] |}.
Proof.
  destruct o as [r|]; simpl; [|reflexivity].
  intros [Hs Hr]. apply Z.eqb_neq in Hs. rewrite Hs, Hr. reflexivity.
Qed.

Lemma iteration_page (st : LoopState Item) (cur body_text : string)
    (items : list Item) (next : option string) :
  iteration config url params st cur (page body_text items next)
  = Continue {| all_data := all_data st ++ items;
                next_url := next;
                page_count := page_count st + 1;
                trace := trace st ++ [Get (request cur)] |}.
Proof. reflexivity. Qed.

(** The pages of a listing, followed by a page without a next link: the
    loop reads them all, one request each, and stops. *)
Lemma loop_pages (pages : list (string * list Item * string))
    (last_text : string) (last_items : list Item)
    (st : LoopState Item) (cur : string) :
  truthy (next_url st) = Some cur ->
  Forall (fun p => link_of p <> EmptyString) pages ->
  loop (map linked_page pages ++ [page last_text last_items None]) st
  = Finished
      {| all_data := all_data st ++ flat_map items_of pages ++ last_items;
         next_url := None;
         page_count := page_count st + Z.of_nat (length pages) + 1;
         trace := trace st ++ map (fun u => Get (request u))
                               (cur :: map link_of pages) |}
      [].
Proof.
  revert st cur. induction pages as [|p pages IH]; intros st cur Hcur Hlinks.
  - simpl app. rewrite (loop_step _ cur) by exact Hcur.
    rewrite iteration_page. rewrite loop_exit by reflexivity.
    simpl. rewrite Z.add_0_r. reflexivity.
  - inversion Hlinks as [|? ? Hp Hrest]; subst.
    change (map linked_page (p :: pages) ++ [page last_text last_items None])
      with (linked_page p
            :: (map linked_page pages ++ [page last_text last_items None])).
    rewrite (loop_step _ cur) by exact Hcur.
    unfold linked_page at 1. rewrite iteration_page.
    rewrite (IH _ (link_of p)); [| apply truthy_some; exact Hp | exact Hrest].
    simpl. f_equal. f_equal.
    + rewrite <- !app_assoc. reflexivity.
    + lia.
    + rewrite <- app_assoc. reflexivity.
Qed.

(** C1, as amended: when the initial URL is not empty and the next link of
    each of the N pages is a non-empty URL other than the initial one, and
    page N+1 has no next link, [paginate_api] returns the items of the
    pages in page order, issues exactly N+1 requests, the first with the
    caller's params and every later one with the next link alone. *)
Theorem paginate_api_reads_every_page
    (pages : list (string * list Item * string))
    (last_text : string) (last_items : list Item) :
  url <> EmptyString ->
  Forall (fun p => link_of p <> EmptyString /\ link_of p <> url) pages ->
  exists st,
    paginate_api config url params
      (map linked_page pages ++ [page last_text last_items None])
    = Finished st []
    /\ all_data st = flat_map items_of pages ++ last_items
    /\ requests_of (trace st)
       = {| req_url := url; req_params := Some params;
            req_timeout := request_timeout config |}
         :: map (fun p => {| req_url := link_of p; req_params := None;
                             req_timeout := request_timeout config |}) pages
    /\ length (requests_of (trace st)) = S (length pages).
Proof.
  intros Hurl Hpages. eexists. split.
  - unfold paginate_api. apply loop_pages.
    + simpl. apply truthy_some. exact Hurl.
    + eapply Forall_impl; [exact Hpages |]. intros p [H _]. exact H.
  - cbn [all_data trace initial app].
    assert (Hreq : requests_of
              (map (fun u => Get (request u)) (url :: map link_of pages))
            = {| req_url := url; req_params := Some params;
                 req_timeout := request_timeout config |}
              :: map (fun p => {| req_url := link_of p; req_params := None;
                                  req_timeout := request_timeout config |})
                   pages).
    { simpl. unfold request_for at 1. rewrite String.eqb_refl. f_equal.
      induction Hpages as [|p pages [_ Hne] _ IH]; [reflexivity |].
      simpl. rewrite IH. f_equal. unfold request_for.
      apply String.eqb_neq in Hne. rewrite Hne. reflexivity. }
    split; [reflexivity |]. split; [exact Hreq |].
    rewrite Hreq. simpl. rewrite length_map. reflexivity.
Qed.

Lemma concat_repeat_snoc {A : Type} (x : list A) (n : nat) :
  concat (repeat x (S n)) = concat (repeat x n) ++ x.
Proof.
  induction n as [|n IH]; simpl in *; [rewrite app_nil_r; reflexivity |].
  rewrite IH at 1. rewrite app_assoc. reflexivity.
Qed.

(** After [n] rate-limited attempts only the trace has grown. *)
Lemma iter_backoff (cur : string) (st : LoopState Item) (n : nat) :
  next_url (Nat.iter n (after_backoff cur) st) = next_url st
  /\ all_data (Nat.iter n (after_backoff cur) st) = all_data st
  /\ trace (Nat.iter n (after_backoff cur) st)
     = trace st
       ++ concat (repeat [Get (request cur); Sleep (rate_limit_sleep config)] n).
Proof.
  induction n as [|n [IHn [IHd IHt]]].
  - simpl. rewrite app_nil_r. auto.
  - rewrite Nat.iter_succ. cbn [backoff next_url all_data trace].
    rewrite IHn, IHd, IHt, concat_repeat_snoc, <- app_assoc. auto.
Qed.

Lemma loop_rate_limited (r : Response Item) (cur : string) (n : nat)
    (script : list (Outcome Item)) (st : LoopState Item) :
  truthy (next_url st) = Some cur ->
  status_code r <> 200 -> is_rate_limit r = true ->
  loop (repeat (Responds r) n ++ script) st
  = loop script (Nat.iter n (after_backoff cur) st).
Proof.
  intros Hcur Hs Hr. revert st Hcur.
  induction n as [|n IH]; intros st Hcur; [reflexivity |].
  simpl repeat. simpl app. rewrite (loop_step _ cur) by exact Hcur.
  rewrite iteration_rate_limit by assumption.
  rewrite IH by exact Hcur. rewrite Nat.iter_succ_r. reflexivity.
Qed.

(** C2: a response with a status other than 200 whose text holds the
    rate-limit phrase, case ignored, makes the client issue the request,
    sleep for the configured time and try the same URL again, with the
    cursor and the items unchanged; this repeats for any number of such
    responses; and when the second attempt succeeds, the page has cost two
    requests and its items are in the result. *)
Theorem paginate_api_retries_rate_limit
    (st : LoopState Item) (cur : string) (r : Response Item)
    (script : list (Outcome Item)) :
  truthy (next_url st) = Some cur ->
  status_code r <> 200 ->
  occurs_ignoring_case rate_limit_phrase (text r) ->
  loop (Responds r :: script) st = loop script (after_backoff cur st)
  /\ (forall n : nat,
        loop (repeat (Responds r) n ++ script) st
        = loop script (Nat.iter n (after_backoff cur) st)
        /\ loop (repeat (Responds r) n) st
           = Waiting (Nat.iter n (after_backoff cur) st)
        /\ all_data (Nat.iter n (after_backoff cur) st) = all_data st
        /\ next_url (Nat.iter n (after_backoff cur) st) = next_url st
        /\ trace (Nat.iter n (after_backoff cur) st)
           = trace st
             ++ concat (repeat [Get (request cur);
                                Sleep (rate_limit_sleep config)] n))
  /\ (forall body_text items next,
        loop (Responds r :: page body_text items next :: script) st
        = loop script
            {| all_data := all_data st ++ items;
               next_url := next;
               page_count := page_count st + 1;
               trace := trace st ++ [Get (request cur);
                                     Sleep (rate_limit_sleep config);
                                     Get (request cur)] |}).
Proof.
  intros Hcur Hstatus Hphrase. apply is_rate_limit_spec in Hphrase.
  assert (Hone : loop (Responds r :: script) st
                 = loop script (after_backoff cur st)).
  { apply (loop_rate_limited r cur 1 script st); assumption. }
  split; [exact Hone |]. split.
  - intros n. destruct (iter_backoff cur st n) as [Hn [Hd Ht]].
    split; [apply loop_rate_limited; assumption |].
    split; [| auto].
    rewrite <- (app_nil_r (repeat (Responds r) n)).
    rewrite (loop_rate_limited r cur n [] st) by assumption.
    simpl. rewrite Hn, Hcur. reflexivity.
  - intros body_text items next.
    rewrite (loop_step _ cur) by exact Hcur.
    rewrite iteration_rate_limit by assumption.
    rewrite (loop_step _ cur) by exact Hcur.
    rewrite iteration_page. cbn [backoff all_data page_count trace].
    rewrite <- app_assoc. reflexivity.
Qed.

(** A fatal outcome, met by a run that is waiting for an answer, ends the
    loop with the items read so far; the outcomes that follow stay unread. *)
Lemma loop_fatal (before : list (Outcome Item)) (o : Outcome Item)
    (after : list (Outcome Item)) (st0 st : LoopState Item) :
  loop before st0 = Waiting st ->
  fatal o ->
  exists cur,
    truthy (next_url st) = Some cur
    /\ loop (before ++ o :: after) st0
       = Finished {| all_data := all_data st;
                     next_url := next_url st;
                     page_count := page_count st;
                     trace := trace st ++ [Get (request cur)] |}
           after.
Proof.
  intros Hwait Hfatal.
  assert (Hcur : exists cur, truthy (next_url st) = Some cur).
  { clear -Hwait. revert st0 Hwait.
    induction before as [|b before IH]; intros s H; simpl in H.
    - destruct (truthy (next_url s)) eqn:E; [|discriminate].
      inversion H; subst. eauto.
    - destruct (truthy (next_url s)) as [cur|]; [|discriminate].
      destruct (iteration config url params s cur b); [|discriminate]. eauto. }
  destruct Hcur as [cur Hcur]. exists cur. split; [exact Hcur |].
  rewrite (loop_app _ _ _ _ Hwait), (loop_step _ cur) by exact Hcur.
  rewrite iteration_fatal by exact Hfatal. reflexivity.
Qed.

(** C3: when a request meets a fatal outcome (a status other than 200
    without the rate-limit phrase, or a network-level exception),
    [paginate_api] leaves the loop at once, without reading what follows,
    and returns the items of the pages answered before; the call returns a
    value, it does not raise. *)
Theorem paginate_api_aborts_on_fatal_error
    (before : list (Outcome Item)) (o : Outcome Item)
    (after : list (Outcome Item)) (st : LoopState Item) :
  paginate_api config url params before = Waiting st ->
  fatal o ->
  exists st',
    paginate_api config url params (before ++ o :: after) = Finished st' after
    /\ returned (paginate_api config url params (before ++ o :: after))
       = Some (successful_items before)
    /\ all_data st' = all_data st
    /\ length (requests_of (trace st')) = S (length (requests_of (trace st))).
Proof.
  intros Hwait Hfatal. unfold paginate_api in *.
  pose proof (loop_waiting_items _ _ _ Hwait) as Hitems. simpl in Hitems.
  destruct (loop_fatal before o after _ st Hwait Hfatal) as [cur [_ Hrun]].
  rewrite Hrun. eexists. split; [reflexivity |]. simpl.
  split; [rewrite Hitems; reflexivity |]. split; [reflexivity |].
  unfold requests_of. rewrite omap_app, length_app. simpl. lia.
Qed.

End PaginationFacts.

(** A listing of two linked pages and a last one, as the insights endpoint
    of account 1 could answer it. *)
Lemma paginate_api_reads_every_page_witness :
  let url := "https://graph.facebook.com/v19.0/act_1/insights" in
  let pages := [("", [1; 2], "https://graph.facebook.com/v19.0/act_1/insights?after=A");
                ("", [3], "https://graph.facebook.com/v19.0/act_1/insights?after=B")] in
  url <> EmptyString
  /\ Forall (fun p => link_of p <> EmptyString /\ link_of p <> url) pages
  /\ exists st,
       paginate_api default_config url [("level", "ad")]
         (map linked_page pages ++ [page "" [4; 5] None])
       = Finished st []
       /\ all_data st = flat_map items_of pages ++ [4; 5]
       /\ requests_of (trace st)
          = {| req_url := url; req_params := Some [("level", "ad")];
               req_timeout := request_timeout default_config |}
            :: map (fun p => {| req_url := link_of p; req_params := None;
                                req_timeout := request_timeout default_config |})
                 pages
       /\ length (requests_of (trace st)) = S (length pages).
Proof.
  intros url pages.
  assert (Hurl : url <> EmptyString) by discriminate.
  assert (Hpages : Forall (fun p : string * list Z * string =>
                      link_of p <> EmptyString /\ link_of p <> url) pages).
  { repeat constructor; discriminate. }
  split; [exact Hurl |]. split; [exact Hpages |].
  exact (paginate_api_reads_every_page default_config url [("level", "ad")]
           pages "" [4; 5] Hurl Hpages).
Defined.

(** C1 fails as stated: when the next link of a page is the initial URL
    itself, the request for it carries the caller's params again. *)
Lemma paginate_api_reattaches_params :
  exists st,
    paginate_api default_config "u" [("level", "ad")]
      [linked_page ("", [1], "u"); page "" [2] None]
    = Finished st []
    /\ all_data st = [1; 2]
    /\ requests_of (trace st)
       = [ {| req_url := "u"; req_params := Some [("level", "ad")];
              req_timeout := 30 |};
           {| req_url := "u"; req_params := Some [("level", "ad")];
              req_timeout := 30 |} ]
    /\ requests_of (trace st)
       <> {| req_url := "u"; req_params := Some [("level", "ad")];
             req_timeout := 30 |}
          :: map (fun p => {| req_url := link_of p; req_params := None;
                              req_timeout := 30 |})
               [("", [1], "u")].
Proof.
  eexists. split; [reflexivity |]. split; [reflexivity |].
  split; [reflexivity | discriminate].
Qed.

(** An answer 400 with the phrase in capitals, met on the first request. *)
Lemma paginate_api_retries_rate_limit_witness :
  let r : Response Z :=
    {| status_code := 400;
       text := "(#17) User request limit reached: Too Many Calls";
       json := None |} in
  let st := initial (Item := Z) "u" in
  truthy (next_url st) = Some "u"
  /\ status_code r <> 200
  /\ occurs_ignoring_case rate_limit_phrase (text r)
  /\ while_next_url default_config "u" [] [Responds r; page "" [7] None] st
     = while_next_url default_config "u" [] [page "" [7] None]
         (backoff default_config "u" [] "u" st).
Proof.
  intros r st.
  assert (H1 : truthy (next_url st) = Some "u") by reflexivity.
  assert (H2 : status_code r <> 200) by discriminate.
  assert (H3 : occurs_ignoring_case rate_limit_phrase (text r)).
  { exists "(#17) user request limit reached: ", EmptyString. reflexivity. }
  split; [exact H1 |]. split; [exact H2 |]. split; [exact H3 |].
  exact (proj1 (paginate_api_retries_rate_limit default_config "u" []
                  st "u" r [page "" [7] None] H1 H2 H3)).
Defined.

(** One page read, then an answer 500. *)
Lemma paginate_api_aborts_on_fatal_error_witness :
  let before := [linked_page ("", [1; 2], "n")] in
  let o : Outcome Z :=
    Responds {| status_code := 500; text := "Internal error"; json := None |} in
  paginate_api default_config "u" [] before
  = Waiting {| all_data := [1; 2]; next_url := Some "n"; page_count := 2;
               trace := [Get (request_for default_config "u" [] "u")] |}
  /\ fatal o
  /\ exists st',
       paginate_api default_config "u" [] (before ++ o :: [page "" [3] None])
       = Finished st' [page "" [3] None]
       /\ returned (paginate_api default_config "u" []
                      (before ++ o :: [page "" [3] None]))
          = Some (successful_items before)
       /\ all_data st' = [1; 2]
       /\ length (requests_of (trace st')) = 2%nat.
Proof.
  intros before o.
  assert (H1 : paginate_api default_config "u" [] before
               = Waiting {| all_data := [1; 2]; next_url := Some "n";
                            page_count := 2;
                            trace := [Get (request_for default_config "u" [] "u")] |})
    by reflexivity.
  assert (H2 : fatal o) by (split; [discriminate | reflexivity]).
  split; [exact H1 |]. split; [exact H2 |].
  exact (paginate_api_aborts_on_fatal_error default_config "u" []
           before o [page "" [3] None] _ H1 H2).
Defined.

(* ===================================================================== *)
(** * [generate_unique_id] *)
(* ===================================================================== *)

Lemma hex_of_bytes_length (bs : list Z) :
  String.length (Hashlib.hex_of_bytes bs) = (2 * length bs)%nat.
Proof.
  induction bs as [|b bs IH]; [reflexivity |].
  cbn [Hashlib.hex_of_bytes String.length length]. rewrite IH. lia.
Qed.

Lemma md5_digest_length (msg : list Z) :
  length (Hashlib.md5_digest msg) = 16%nat.
Proof.
  unfold Hashlib.md5_digest.
  generalize (fold_left Hashlib.compress
                (Hashlib.blocks
                   (length (Hashlib.words (length (Hashlib.pad msg))
                              (Hashlib.pad msg)))
                   (Hashlib.words (length (Hashlib.pad msg)) (Hashlib.pad msg)))
                Hashlib.initial_state).
  intros st. rewrite !length_app. reflexivity.
Qed.

(** C5: the fingerprint of a row is the hexadecimal MD5 digest of the
    string forms of its values, in column order, joined by ['_']; rows
    with the same values in the same order get the same fingerprint,
    character for character; the digest has 32 characters. *)
Theorem generate_unique_id_is_md5_of_joined_values (row row' : list cell) :
  astype_str row' = astype_str row ->
  generate_unique_id row = Hashlib.md5_hexdigest (join "_" (map str row))
  /\ generate_unique_id row' = generate_unique_id row
  /\ String.length (generate_unique_id row) = 32%nat.
Proof.
  intros Hsame. split; [reflexivity |]. split.
  - unfold generate_unique_id. rewrite Hsame. reflexivity.
  - unfold generate_unique_id, Hashlib.md5_hexdigest.
    rewrite hex_of_bytes_length, md5_digest_length. reflexivity.
Qed.

(** The row of an ad with a matched campaign, computed twice. *)
Lemma generate_unique_id_is_md5_of_joined_values_witness :
  let row := [CStr "123"; CStr "Acme"; CNone; CNaN; CFloat "10.5"; CInt 3] in
  astype_str row = astype_str row
  /\ generate_unique_id row
     = Hashlib.md5_hexdigest "123_Acme_None_nan_10.5_3"
  /\ generate_unique_id row = generate_unique_id row
  /\ String.length (generate_unique_id row) = 32%nat.
Proof.
  intros row. split; [reflexivity |].
  exact (generate_unique_id_is_md5_of_joined_values row row eq_refl).
Defined.

(** The digest agrees with [hashlib] on that row. *)
Example generate_unique_id_example :
  generate_unique_id [CStr "123"; CStr "Acme"; CNone; CNaN; CFloat "10.5"; CInt 3]
  = "0f9bf3ea75dafad8986e75c9d932a3a5".
Proof. vm_compute. reflexivity. Qed.

(* ===================================================================== *)
(** * Order of the cells of a date column *)
(* ===================================================================== *)

Lemma string_leb_refl (s : string) : String.leb s s = true.
Proof.
  unfold String.leb.
  assert (H : String.compare s s = Eq) by (apply String_as_OT.cmp_eq; reflexivity).
  rewrite H. reflexivity.
Qed.

Lemma string_leb_trans (a b c : string) :
  String.leb a b = true -> String.leb b c = true -> String.leb a c = true.
Proof.
  unfold String.leb. intros Hab Hbc.
  destruct (String.compare a b) eqn:Eab; [| |discriminate].
  - apply String_as_OT.cmp_eq in Eab. subst. exact Hbc.
  - destruct (String.compare b c) eqn:Ebc; [| |discriminate].
    + apply String_as_OT.cmp_eq in Ebc. subst. rewrite Eab. reflexivity.
    + apply String_as_OT.cmp_lt in Eab, Ebc.
      pose proof (String_as_OT.lt_trans _ _ _ Eab Ebc) as Hac.
      apply String_as_OT.cmp_lt in Hac. unfold String_as_OT.cmp in Hac.
      rewrite Hac. reflexivity.
Qed.

Lemma one_kind_cases (cells : list cell) :
  one_kind cells ->
  Forall (fun c => exists s, c = CStr s) cells
  \/ Forall (fun c => exists n, c = CInt n) cells.
Proof.
  unfold one_kind. rewrite orb_true_iff. unfold all_str, all_int.
  rewrite !forallb_forall. intros [H | H]; [left | right];
    apply Forall_forall; intros c Hc; apply list_elem_of_In in Hc;
    specialize (H c Hc); destruct c; try discriminate; eauto.
Qed.

Lemma cell_leb_refl (cells : list cell) (a : cell) :
  one_kind cells -> a ∈ cells -> cell_leb a a = true.
Proof.
  intros Hk Ha. destruct (one_kind_cases _ Hk) as [H | H];
    rewrite Forall_forall in H; destruct (H a Ha) as [x ->];
    unfold cell_leb; simpl.
  - pose proof (string_leb_refl x) as Hr. unfold String.leb in Hr.
    destruct (String.compare x x); [reflexivity | reflexivity | discriminate].
  - rewrite Z.compare_refl. reflexivity.
Qed.

Lemma cell_leb_total (cells : list cell) (a b : cell) :
  one_kind cells -> a ∈ cells -> b ∈ cells ->
  cell_leb a b = true \/ cell_leb b a = true.
Proof.
  intros Hk Ha Hb. destruct (one_kind_cases _ Hk) as [H | H];
    rewrite Forall_forall in H;
    destruct (H a Ha) as [x ->]; destruct (H b Hb) as [y ->];
    unfold cell_leb; simpl.
  - rewrite (String.compare_antisym y x).
    destruct (String.compare x y); simpl; auto.
  - rewrite (Z.compare_antisym x y).
    destruct (x ?= y); simpl; auto.
Qed.

Lemma cell_leb_trans (cells : list cell) (a b c : cell) :
  one_kind cells -> a ∈ cells -> b ∈ cells -> c ∈ cells ->
  cell_leb a b = true -> cell_leb b c = true -> cell_leb a c = true.
Proof.
  intros Hk Ha Hb Hc. destruct (one_kind_cases _ Hk) as [H | H];
    rewrite Forall_forall in H;
    destruct (H a Ha) as [x ->]; destruct (H b Hb) as [y ->];
    destruct (H c Hc) as [z ->]; unfold cell_leb; simpl.
  - intros Hab Hbc.
    assert (Hxy : String.leb x y = true).
    { unfold String.leb. destruct (String.compare x y); auto. }
    assert (Hyz : String.leb y z = true).
    { unfold String.leb. destruct (String.compare y z); auto. }
    pose proof (string_leb_trans _ _ _ Hxy Hyz) as Hxz.
    unfold String.leb in Hxz. destruct (String.compare x z); auto.
  - destruct (Z.compare_spec x y); try discriminate;
      destruct (Z.compare_spec y z); try discriminate;
      destruct (Z.compare_spec x z); try reflexivity; lia.
Qed.

(** The minimum computed by the fold is a cell of the column and is below
    every cell of it. *)
Lemma fold_min_below (cells rest : list cell) (c : cell) :
  one_kind cells -> c ∈ cells -> rest ⊆ cells ->
  fold_left cell_min rest c ∈ cells
  /\ cell_leb (fold_left cell_min rest c) c = true
  /\ Forall (fun d => cell_leb (fold_left cell_min rest c) d = true) rest.
Proof.
  intros Hk. revert c. induction rest as [|d rest IH]; intros c Hc Hsub.
  - simpl. split; [exact Hc |]. split; [eapply cell_leb_refl; eauto | constructor].
  - assert (Hd : d ∈ cells) by (apply Hsub; left).
    assert (Hrest : rest ⊆ cells) by (intros x Hx; apply Hsub; right; exact Hx).
    simpl. destruct (cell_leb c d) eqn:Ecd.
    + replace (cell_min c d) with c by (unfold cell_min; rewrite Ecd; reflexivity).
      destruct (IH c Hc Hrest) as [Hm [Hmc Hall]].
      split; [exact Hm |]. split; [exact Hmc |]. constructor; [| exact Hall].
      apply (cell_leb_trans cells _ c d); assumption.
    + replace (cell_min c d) with d by (unfold cell_min; rewrite Ecd; reflexivity).
      destruct (IH d Hd Hrest) as [Hm [Hmd Hall]].
      split; [exact Hm |].
      assert (Hdc : cell_leb d c = true).
      { destruct (cell_leb_total cells c d Hk Hc Hd) as [H | H]; congruence. }
      split; [apply (cell_leb_trans cells _ d c); assumption |].
      constructor; assumption.
Qed.

Lemma fold_max_above (cells rest : list cell) (c : cell) :
  one_kind cells -> c ∈ cells -> rest ⊆ cells ->
  fold_left cell_max rest c ∈ cells
  /\ cell_leb c (fold_left cell_max rest c) = true
  /\ Forall (fun d => cell_leb d (fold_left cell_max rest c) = true) rest.
Proof.
  intros Hk. revert c. induction rest as [|d rest IH]; intros c Hc Hsub.
  - simpl. split; [exact Hc |]. split; [eapply cell_leb_refl; eauto | constructor].
  - assert (Hd : d ∈ cells) by (apply Hsub; left).
    assert (Hrest : rest ⊆ cells) by (intros x Hx; apply Hsub; right; exact Hx).
    simpl. destruct (cell_leb c d) eqn:Ecd.
    + replace (cell_max c d) with d by (unfold cell_max; rewrite Ecd; reflexivity).
      destruct (IH d Hd Hrest) as [Hm [Hmd Hall]].
      split; [exact Hm |].
      split; [apply (cell_leb_trans cells c d _); assumption |].
      constructor; assumption.
    + replace (cell_max c d) with c by (unfold cell_max; rewrite Ecd; reflexivity).
      destruct (IH c Hc Hrest) as [Hm [Hmc Hall]].
      split; [exact Hm |]. split; [exact Hmc |]. constructor; [| exact Hall].
      assert (Hdc : cell_leb d c = true).
      { destruct (cell_leb_total cells c d Hk Hc Hd) as [H | H]; congruence. }
      apply (cell_leb_trans cells d c _); assumption.
Qed.

(** [min()] and [max()] of a non-empty column of one kind bound every cell
    of the column. *)
Lemma series_bounds (cells : list cell) :
  cells <> [] -> one_kind cells ->
  exists lo hi,
    series_min cells = Ok lo /\ series_max cells = Ok hi
    /\ Forall (fun d => cell_leb lo d && cell_leb d hi = true) cells.
Proof.
  intros Hne Hk. destruct cells as [|c rest]; [congruence |].
  assert (Hc : c ∈ c :: rest) by left.
  assert (Hsub : rest ⊆ c :: rest) by (intros x Hx; right; exact Hx).
  destruct (fold_min_below (c :: rest) rest c Hk Hc Hsub) as [_ [Hlc Hlo]].
  destruct (fold_max_above (c :: rest) rest c Hk Hc Hsub) as [_ [Hch Hhi]].
  exists (fold_left cell_min rest c), (fold_left cell_max rest c).
  unfold series_min, series_max. unfold one_kind in Hk. rewrite Hk.
  split; [reflexivity |]. split; [reflexivity |].
  constructor; [rewrite Hlc, Hch; reflexivity |].
  rewrite Forall_forall in Hlo, Hhi |- *. intros d Hd.
  rewrite (Hlo d Hd), (Hhi d Hd). reflexivity.
Qed.

(* ===================================================================== *)
(** * Frames built from dicts *)
(* ===================================================================== *)

Lemma mem_elem_of (name : string) (names : list string) :
  mem name names = true <-> name ∈ names.
Proof.
  unfold mem. rewrite existsb_exists. split.
  - intros [x [Hx He]]. apply String.eqb_eq in He. subst.
    apply list_elem_of_In. exact Hx.
  - intros H. exists name. split; [apply list_elem_of_In; exact H |].
    apply String.eqb_refl.
Qed.

Section FromRecords.

Context {C : Type}.
Variable missing : C.

Lemma add_keys_known (seen : list string) (d : dict C) :
  (forall k, k ∈ map fst d -> k ∈ seen) -> add_keys seen d = seen.
Proof.
  unfold add_keys. induction d as [|[k v] d IH]; intros H; [reflexivity |].
  simpl. assert (Hk : mem k seen = true).
  { apply mem_elem_of. apply H. left. }
  rewrite Hk. apply IH. intros k' Hk'. apply H. right. exact Hk'.
Qed.

Lemma add_keys_fresh (seen : list string) (d : dict C) :
  NoDup (map fst d) -> (forall k, k ∈ map fst d -> k ∉ seen) ->
  add_keys seen d = seen ++ map fst d.
Proof.
  unfold add_keys. revert seen.
  induction d as [|[k v] d IH]; intros seen Hnd Hfresh.
  - simpl. rewrite app_nil_r. reflexivity.
  - simpl in *. apply NoDup_cons in Hnd. destruct Hnd as [Hk Hnd].
    assert (Hm : mem k seen = false).
    { destruct (mem k seen) eqn:E; [| reflexivity].
      apply mem_elem_of in E. exfalso. apply (Hfresh k); [left | exact E]. }
    rewrite Hm. rewrite IH; [rewrite <- app_assoc; reflexivity | exact Hnd |].
    intros k' Hk' Hin. apply elem_of_app in Hin. destruct Hin as [Hin | Hin].
    + apply (Hfresh k'); [right; exact Hk' | exact Hin].
    + apply list_elem_of_singleton in Hin. subst. contradiction.
Qed.

Lemma dict_get_values (d : dict C) :
  NoDup (map fst d) ->
  map (fun c => default missing (dict_get c d)) (map fst d) = map snd d.
Proof.
  induction d as [|[k v] d IH]; intros Hnd; [reflexivity |].
  simpl in *. apply NoDup_cons in Hnd. destruct Hnd as [Hk Hnd].
  rewrite String.eqb_refl. simpl. f_equal.
  rewrite <- (IH Hnd). apply map_ext_in. intros c Hc.
  destruct (String.eqb k c) eqn:E; [| reflexivity].
  apply String.eqb_eq in E. subst. exfalso. apply Hk.
  apply list_elem_of_In. exact Hc.
Qed.

(** A non-empty list of dicts that all have the keys [keys], in that
    order, gives the frame with these columns and the values as rows. *)
Lemma from_records_uniform (keys : list string) (records : list (dict C)) :
  NoDup keys -> records <> [] ->
  Forall (fun d => map fst d = keys) records ->
  from_records missing records
  = {| columns := keys; rows := map (map snd) records |}.
Proof.
  intros Hnd Hne Hall.
  assert (Hkeys : keys_union records = keys).
  { unfold keys_union. destruct records as [|d records]; [congruence |].
    inversion Hall as [|? ? Hd Hrest]; subst. simpl.
    rewrite add_keys_fresh; [| exact Hnd | intros k _ Hk; inversion Hk].
    simpl. clear Hall Hne. induction Hrest as [|d' records Hd' _ IH];
      [reflexivity |].
    simpl. rewrite add_keys_known; [exact IH |].
    intros k Hk. rewrite Hd' in Hk. exact Hk. }
  unfold from_records. rewrite Hkeys. f_equal.
  apply map_ext_in. intros d Hd. rewrite Forall_forall in Hall.
  apply list_elem_of_In in Hd. specialize (Hall d Hd). subst keys.
  apply dict_get_values. exact Hnd.
Qed.

Lemma from_records_nil : from_records missing [] = {| columns := []; rows := [] |}.
Proof. reflexivity. Qed.

Lemma zip_with_map {A B D : Type} (f : A -> B -> D) (g : A -> B) (l : list A) :
  zip_with f l (map g l) = map (fun a => f a (g a)) l.
Proof. induction l as [|a l IH]; simpl; [reflexivity | rewrite IH; reflexivity]. Qed.

Lemma filter_map {A B : Type} (p : B -> bool) (f : A -> B) (l : list A) :
  filter p (map f l) = map f (filter (fun a => p (f a)) l).
Proof.
  induction l as [|a l IH]; [reflexivity |].
  simpl map. destruct (p (f a)) eqn:E.
  - rewrite !filter_cons_True by (apply Is_true_true; exact E).
    simpl. rewrite IH. reflexivity.
  - rewrite !filter_cons_False by (apply Is_true_false; exact E).
    exact IH.
Qed.

Lemma filter_ext_bool {A : Type} (p q : A -> bool) (l : list A) :
  (forall a, p a = q a) -> filter p l = filter q l.
Proof.
  intros H. induction l as [|a l IH]; [reflexivity |].
  destruct (q a) eqn:E.
  - rewrite (filter_cons_True q) by (apply Is_true_true; exact E).
    rewrite (filter_cons_True p) by (apply Is_true_true; rewrite H; exact E).
    rewrite IH. reflexivity.
  - rewrite (filter_cons_False q) by (apply Is_true_false; exact E).
    rewrite (filter_cons_False p) by (apply Is_true_false; rewrite H; exact E).
    exact IH.
Qed.

End FromRecords.

(* ===================================================================== *)
(** * [upsert_dataframe] *)
(* ===================================================================== *)

(** The value [to_sql] writes under a column label is the cell of that
    column. *)
Lemma dict_get_zip {C : Type} (name : string) (cols : list string)
    (row : list C) (i : nat) (d : C) :
  column_index name cols = Some i -> (i < length row)%nat ->
  dict_get name (zip cols row) = Some (nth i row d).
Proof.
  revert row i. induction cols as [|c cols IH]; intros row i; simpl;
    [discriminate |].
  destruct row as [|v row]; [simpl; lia |].
  simpl. destruct (String.eqb c name).
  - intros H _. inversion H. reflexivity.
  - destruct (column_index name cols) as [j|] eqn:Ej; simpl; [|discriminate].
    intros H Hlt. inversion H; subst. apply IH; [reflexivity | lia].
Qed.

Lemma nth_inside {C : Type} (i : nat) (row : list C) (d : C) :
  nth i row d <> d -> (i < length row)%nat.
Proof.
  intros H. destruct (Nat.lt_ge_cases i (length row)) as [Hlt | Hge];
    [exact Hlt |].
  rewrite nth_overflow in H by exact Hge. congruence.
Qed.

Lemma one_kind_not_nan (cells : list cell) (c : cell) :
  one_kind cells -> c ∈ cells -> c <> CNaN.
Proof.
  intros Hk Hc. destruct (one_kind_cases _ Hk) as [H | H];
    rewrite Forall_forall in H; destruct (H c Hc) as [x ->]; discriminate.
Qed.

(** Every row of a frame lies between the bounds of its date column. *)
Lemma rows_between_bounds (df : DataFrame cell) (date_column : string)
    (dates : list cell) (lo hi : cell) :
  getitem CNaN date_column df = Ok dates ->
  one_kind dates ->
  Forall (fun d => cell_leb lo d && cell_leb d hi = true) dates ->
  Forall (fun r => between date_column lo hi r = true) (to_records df).
Proof.
  unfold getitem. destruct (column_index date_column (columns df)) as [i|] eqn:Ei;
    [|discriminate].
  intros H Hk Hall. inversion H; subst dates; clear H.
  unfold to_records. rewrite Forall_map in Hall |- *.
  rewrite Forall_forall in Hall |- *. intros row Hrow.
  unfold between.
  assert (Hin : cell_at CNaN i row ∈ map (cell_at CNaN i) (rows df)).
  { apply list_elem_of_fmap. exists row. split; [reflexivity | exact Hrow]. }
  assert (Hlt : (i < length row)%nat).
  { apply (nth_inside i row CNaN). apply (one_kind_not_nan _ _ Hk Hin). }
  rewrite (dict_get_zip _ _ _ i CNaN Ei Hlt). apply Hall. exact Hrow.
Qed.

Lemma filter_all {A : Type} (p : A -> bool) (l : list A) :
  Forall (fun x => p x = true) l -> filter p l = l.
Proof.
  induction 1 as [|x l Hx _ IH]; [reflexivity |].
  rewrite filter_cons_True by (apply Is_true_true; exact Hx).
  rewrite IH. reflexivity.
Qed.

Lemma filter_none {A : Type} (p : A -> bool) (l : list A) :
  Forall (fun x => p x = false) l -> filter p l = [].
Proof.
  induction 1 as [|x l Hx _ IH]; [reflexivity |].
  rewrite filter_cons_False by (apply Is_true_false; exact Hx).
  exact IH.
Qed.

Lemma filter_filter_negb {A : Type} (p : A -> bool) (l : list A) :
  filter p (filter (fun x => negb (p x)) l) = [].
Proof.
  apply filter_none. apply Forall_forall. intros x Hx.
  apply list_elem_of_filter in Hx. destruct Hx as [Hx _].
  destruct (p x); [destruct Hx | reflexivity].
Qed.

Lemma filter_negb_idempotent {A : Type} (p : A -> bool) (l : list A) :
  filter (fun x => negb (p x)) (filter (fun x => negb (p x)) l)
  = filter (fun x => negb (p x)) l.
Proof.
  apply filter_all. apply Forall_forall. intros x Hx.
  apply list_elem_of_filter in Hx. destruct Hx as [Hx _].
  apply Is_true_true. exact Hx.
Qed.

Section Upsert.

Variable config : DatabaseConfig.

(** The effect of [upsert_dataframe] on a frame with rows, whose date
    column holds dates of one kind, when the table exists. *)
Lemma upsert_effect (df : DataFrame cell) (table_name date_column : string)
    (schema : option string) (db : PgStore)
    (dates : list cell) (stored : list (dict cell)) :
  let name :=
    qualified (default (postgres_schema config) (truthy schema)) table_name in
  empty df = false ->
  getitem CNaN date_column df = Ok dates ->
  one_kind dates ->
  db !! name = Some stored ->
  exists min_date max_date,
    series_min dates = Ok min_date
    /\ series_max dates = Ok max_date
    /\ Forall (fun r => between date_column min_date max_date r = true)
         (to_records df)
    /\ upsert_dataframe config df table_name date_column schema db
       = mkEffect
           (<[name := filter (fun r =>
                          negb (between date_column min_date max_date r))
                        stored
                      ++ to_records df]> db)
           [Deleting name; Inserting (len df) name; Inserted (len df) name]
           None.
Proof.
  intros name Hempty Hdates Hk Hstored.
  assert (Hne : dates <> []).
  { unfold getitem in Hdates.
    destruct (column_index date_column (columns df)); [|discriminate].
    inversion Hdates; subst dates. unfold empty in Hempty.
    destruct (rows df); [discriminate | discriminate]. }
  destruct (series_bounds dates Hne Hk) as [lo [hi [Hlo [Hhi Hall]]]].
  pose proof (rows_between_bounds df date_column dates lo hi Hdates Hk Hall)
    as Hrows.
  exists lo, hi. split; [exact Hlo |]. split; [exact Hhi |].
  split; [exact Hrows |].
  unfold upsert_dataframe. rewrite Hempty.
  unfold date_bounds. rewrite Hdates. simpl. rewrite Hlo, Hhi. simpl.
  fold name. rewrite Hstored. reflexivity.
Qed.

(** C8: [upsert_dataframe] on an empty frame leaves the store as it is
    and prints one line. On a frame with rows, whose date column holds
    dates of one kind, and a table that exists, it does not raise, and
    afterwards the rows of the table between the minimum and the maximum
    date of the frame, bounds included, are the rows of the frame, while
    the rows outside that range and the other tables are those of before. *)
Theorem upsert_dataframe_replaces_date_range
    (df : DataFrame cell) (table_name date_column : string)
    (schema : option string) (db : PgStore)
    (dates : list cell) (stored : list (dict cell)) :
  let name :=
    qualified (default (postgres_schema config) (truthy schema)) table_name in
  let run := upsert_dataframe config df table_name date_column schema db in
  (empty df = true ->
     run = mkEffect db [NothingToInsert schema table_name] None)
  /\ (empty df = false ->
      getitem CNaN date_column df = Ok dates ->
      one_kind dates ->
      db !! name = Some stored ->
      exists min_date max_date after,
        series_min dates = Ok min_date
        /\ series_max dates = Ok max_date
        /\ raised run = None
        /\ store run = <[name := after]> db
        /\ filter (between date_column min_date max_date) after
           = to_records df
        /\ filter (fun r => negb (between date_column min_date max_date r))
             after
           = filter
               (fun r => negb (between date_column min_date max_date r)) stored).
Proof.
  intros name run. split.
  - intros Hempty. unfold run, upsert_dataframe. rewrite Hempty. reflexivity.
  - intros Hempty Hdates Hk Hstored.
    destruct (upsert_effect df table_name date_column schema db dates stored
                Hempty Hdates Hk Hstored)
      as [lo [hi [Hlo [Hhi [Hrows Heffect]]]]].
    exists lo, hi,
      (filter (fun r => negb (between date_column lo hi r)) stored
       ++ to_records df).
    unfold run. rewrite Heffect. simpl.
    split; [exact Hlo |]. split; [exact Hhi |]. split; [reflexivity |].
    split; [reflexivity |]. split.
    + rewrite filter_app, filter_filter_negb, filter_all by exact Hrows.
      reflexivity.
    + rewrite filter_app, filter_negb_idempotent.
      rewrite (filter_none _ (to_records df)); [apply app_nil_r |].
      eapply Forall_impl; [exact Hrows |]. intros r Hr. simpl in Hr.
      rewrite Hr. reflexivity.
Qed.

End Upsert.

(* ===================================================================== *)
(** * [sync_postgres_to_sqlserver] *)
(* ===================================================================== *)

Lemma map_result_ok {A B : Type} (f : A -> result B) (g : A -> B)
    (l : list A) :
  Forall (fun a => f a = Ok (g a)) l -> map_result f l = Ok (map g l).
Proof.
  induction 1 as [|a l Ha _ IH]; [reflexivity |].
  simpl. rewrite Ha. simpl. rewrite IH. reflexivity.
Qed.

Lemma filter_result_ok {A : Type} (p : A -> result bool) (q : A -> bool)
    (l : list A) :
  Forall (fun a => p a = Ok (q a)) l -> filter_result p l = Ok (filter q l).
Proof.
  induction 1 as [|a l Ha _ IH]; [reflexivity |].
  simpl. rewrite Ha. simpl. rewrite IH. simpl.
  destruct (q a) eqn:E.
  - rewrite filter_cons_True by (apply Is_true_true; exact E). reflexivity.
  - rewrite filter_cons_False by (apply Is_true_false; exact E). reflexivity.
Qed.

(** ** The projection onto the columns of the target *)

Lemma common_columns_spec (df_columns sql_columns : list string) (c : string) :
  c ∈ common_columns df_columns sql_columns
  <-> c ∈ df_columns /\ c ∈ sql_columns.
Proof.
  unfold common_columns. rewrite list_elem_of_filter.
  rewrite <- (mem_elem_of c sql_columns), Is_true_true. tauto.
Qed.

(** Restricting a frame to its columns that the target has never raises:
    each row keeps the cells of these columns. *)
Lemma getitem_common_columns (df : DataFrame sqlvalue)
    (sql_columns : list string) :
  getitem_list SqlNull (common_columns (columns df) sql_columns) df
  = Ok {| columns := common_columns (columns df) sql_columns;
          rows := map (project (columns df)
                         (common_columns (columns df) sql_columns))
                    (rows df) |}.
Proof.
  unfold getitem_list.
  rewrite (filter_none (fun n => negb (mem n (columns df)))); [reflexivity |].
  apply Forall_forall. intros n Hn.
  apply common_columns_spec in Hn. destruct Hn as [Hn _].
  apply mem_elem_of in Hn. rewrite Hn. reflexivity.
Qed.

(** The value written under a shared column is the cell of that column. *)
Lemma dict_get_project (cols names : list string) (row : list sqlvalue)
    (col : string) :
  col ∈ names ->
  dict_get col (zip names (project cols names row))
  = Some (cell_at SqlNull (default 0%nat (column_index col cols)) row).
Proof.
  unfold project. induction names as [|n names IH]; intros Hin;
    [inversion Hin |].
  simpl. destruct (String.eqb n col) eqn:E.
  - apply String.eqb_eq in E. subst. reflexivity.
  - apply String.eqb_neq in E. apply IH.
    inversion Hin; subst; [congruence | assumption].
Qed.


(** ** Reading and preparing the rows *)

Lemma on_or_after_dated (start : Z) (v : sqlvalue) :
  is_dated v = true ->
  exists keep, on_or_after start v = Ok keep
               /\ (keep = true -> v <> SqlNull).
Proof.
  destruct v; try discriminate; intros _; simpl; eexists;
    (split; [reflexivity |]); intros; discriminate.
Qed.

Lemma to_date_dated (v : sqlvalue) :
  is_dated v = true -> exists d, to_date v = Ok d.
Proof. destruct v; try discriminate; intros _; simpl; eauto. Qed.

Lemma cell_at_alter (f : sqlvalue -> sqlvalue) (i j : nat)
    (row : list sqlvalue) :
  cell_at SqlNull i (alter f j row) = cell_at SqlNull i row
  \/ cell_at SqlNull i (alter f j row) = f (cell_at SqlNull i row).
Proof.
  unfold cell_at. rewrite !nth_lookup, list_lookup_alter.
  destruct (decide (j = i)) as [->|]; destruct (row !! i); simpl; auto.
Qed.

(** The serialisation of the structured cells leaves the column list, the
    number of rows and the dates of the date column alone. *)
Lemma preprocess_keeps_dates (df : DataFrame sqlvalue) (i : nat) :
  Forall (fun row => is_dated (cell_at SqlNull i row) = true) (rows df) ->
  columns (_preprocess_dataframe df) = columns df
  /\ length (rows (_preprocess_dataframe df)) = length (rows df)
  /\ Forall (fun row => is_dated (cell_at SqlNull i row) = true)
       (rows (_preprocess_dataframe df)).
Proof.
  unfold _preprocess_dataframe.
  generalize (seq 0 (length (columns df))). intros js.
  revert df. induction js as [|j js IH]; intros df Hdated; [auto |].
  simpl.
  set (step := if existsb is_structured (map (cell_at SqlNull j) (rows df))
               then apply_column dumps_if_structured j df else df).
  assert (Hstep : columns step = columns df
                  /\ length (rows step) = length (rows df)
                  /\ Forall (fun row => is_dated (cell_at SqlNull i row) = true)
                       (rows step)).
  { unfold step.
    destruct (existsb is_structured (map (cell_at SqlNull j) (rows df)));
      [| auto].
    simpl. split; [reflexivity |]. split; [apply length_map |].
    apply Forall_map. eapply Forall_impl; [exact Hdated |].
    intros row Hrow. simpl in Hrow |- *.
    destruct (cell_at_alter dumps_if_structured i j row) as [-> | ->];
      [exact Hrow |].
    destruct (cell_at SqlNull i row); try discriminate; reflexivity. }
  destruct Hstep as [Hc [Hl Hd]].
  destruct (IH step Hd) as [Hc' [Hl' Hd']].
  rewrite Hc', Hl', Hc, Hl. auto.
Qed.

(** Under the typing of the date column, the rows are read and prepared
    without an exception, one prepared row per row read, and the frame to
    write holds, for each prepared row, its cells under the columns common
    to the view and the target, in the order of the view. *)
Lemma frame_to_write_ok (view : DataFrame sqlvalue)
    (source date_column : string) (start_date : Z) (sql_columns : list string)
    (i : nat) :
  column_index date_column (columns view) = Some i ->
  Forall (fun row => is_dated (cell_at SqlNull i row) = true) (rows view) ->
  exists selected prepared,
    read_sql view source date_column start_date
    = Ok {| columns := columns view; rows := selected |}
    /\ prepared_frame view source date_column start_date
       = Ok {| columns := columns view; rows := prepared |}
    /\ length prepared = length selected
    /\ frame_to_write view source date_column start_date sql_columns
       = Ok {| columns := common_columns (columns view) sql_columns;
               rows := map (project (columns view)
                              (common_columns (columns view) sql_columns))
                         prepared |}.
Proof.
  intros Hi Hdated.
  set (keep := fun row : list sqlvalue =>
         match on_or_after start_date (cell_at SqlNull i row) with
         | Ok b => b
         | Raise _ => false
         end).
  assert (Hread : read_sql view source date_column start_date
                  = Ok {| columns := columns view;
                          rows := filter keep (rows view) |}).
  { unfold read_sql. rewrite Hi.
    rewrite (filter_result_ok _ keep); [reflexivity |].
    eapply Forall_impl; [exact Hdated |]. intros row Hrow. simpl in Hrow.
    unfold keep. destruct (on_or_after_dated start_date _ Hrow) as [b [Hb _]].
    rewrite Hb. reflexivity. }
  set (read := {| columns := columns view; rows := filter keep (rows view) |}).
  assert (Hsel : Forall (fun row => is_dated (cell_at SqlNull i row) = true)
                   (rows read)).
  { simpl. apply Forall_forall. intros row Hrow.
    apply list_elem_of_filter in Hrow. destruct Hrow as [_ Hrow].
    rewrite Forall_forall in Hdated. apply Hdated. exact Hrow. }
  destruct (preprocess_keeps_dates read i Hsel) as [Hc [Hl Hd]].
  set (date_of := fun v => match to_date v with Ok d => d | Raise _ => v end).
  set (prepared := map (fun row => <[i := date_of (cell_at SqlNull i row)]> row)
                     (rows (_preprocess_dataframe read))).
  assert (Hco : coerce_date_column date_column (_preprocess_dataframe read)
                = Ok {| columns := columns view; rows := prepared |}).
  { unfold coerce_date_column. rewrite Hc. simpl. rewrite Hi.
    rewrite (map_result_ok _
               (fun row => <[i := date_of (cell_at SqlNull i row)]> row));
      [reflexivity |].
    eapply Forall_impl; [exact Hd |]. intros row Hrow. simpl in Hrow.
    unfold date_of. destruct (to_date_dated _ Hrow) as [d Hd0].
    rewrite Hd0. reflexivity. }
  assert (Hprep : prepared_frame view source date_column start_date
                  = Ok {| columns := columns view; rows := prepared |}).
  { unfold prepared_frame. rewrite Hread. exact Hco. }
  exists (filter keep (rows view)), prepared.
  split; [exact Hread |]. split; [exact Hprep |]. split.
  - unfold prepared. rewrite length_map. exact Hl.
  - unfold frame_to_write. rewrite Hprep.
    apply (getitem_common_columns {| columns := columns view;
                                     rows := prepared |}).
Qed.

(** ** The chunked insert *)

Lemma executor_map_spec (fails : nat -> bool) (order : list nat)
    (chunks : list (DataFrame sqlvalue)) (stored : list (dict sqlvalue)) :
  executor_map fails order chunks stored
  = (stored ++ written_rows fails order chunks,
     chunk_errors fails order chunks).
Proof.
  unfold executor_map.
  assert (H : forall acc_rows acc_log,
            fold_left (insert_chunk fails)
              (omap (fun i => pair i <$> chunks !! i) order) (acc_rows, acc_log)
            = (acc_rows ++ written_rows fails order chunks,
               acc_log ++ chunk_errors fails order chunks)).
  { induction order as [|i order IH]; intros acc_rows acc_log.
    - simpl. rewrite !app_nil_r. reflexivity.
    - cbn [omap list_omap written_rows chunk_errors flat_map].
      destruct (chunks !! i) as [chunk|] eqn:Ei; simpl.
      + unfold insert_chunk at 2. simpl. destruct (fails i); simpl.
        * rewrite IH. f_equal. rewrite <- app_assoc. reflexivity.
        * rewrite IH. f_equal. rewrite <- app_assoc. reflexivity.
      + apply IH. }
  apply H.
Qed.

Lemma split_rows_concat {C : Type} (fuel n : nat) (l : list (list C)) :
  (0 < n)%nat -> (length l <= fuel)%nat ->
  concat (split_rows fuel n l) = l
  /\ Forall (fun part => part <> []) (split_rows fuel n l).
Proof.
  intros Hn. revert l. induction fuel as [|fuel IH]; intros l Hl.
  - destruct l; [simpl; auto | simpl in Hl; lia].
  - destruct l as [|row l]; [simpl; auto |].
    assert (Hdrop : (length (drop n (row :: l)) <= fuel)%nat).
    { rewrite length_drop. simpl in *. lia. }
    destruct (IH _ Hdrop) as [Hc Hf].
    change (split_rows (S fuel) n (row :: l))
      with (take n (row :: l) :: split_rows fuel n (drop n (row :: l))).
    split.
    + simpl concat. rewrite Hc. apply take_drop.
    + constructor; [| exact Hf]. destruct n; [lia | discriminate].
Qed.

(** For a positive chunk size the chunks are not empty and hold, in
    order, the rows of the frame. *)
Lemma chunks_of_spec (df : DataFrame sqlvalue) (chunksize : Z) :
  0 < chunksize ->
  exists chunks,
    chunks_of df chunksize = Ok chunks
    /\ concat (map rows chunks) = rows df
    /\ Forall (fun chunk => columns chunk = columns df /\ rows chunk <> [])
         chunks.
Proof.
  intros Hpos. unfold chunks_of.
  destruct (chunksize =? 0) eqn:E0; [apply Z.eqb_eq in E0; lia |].
  destruct (chunksize <? 0) eqn:E1; [apply Z.ltb_lt in E1; lia |].
  eexists. split; [reflexivity |].
  assert (Hn : (0 < Z.to_nat chunksize)%nat) by lia.
  destruct (split_rows_concat (len df) (Z.to_nat chunksize) (rows df) Hn
              (le_n _)) as [Hc Hf].
  split.
  - rewrite map_map. simpl. rewrite map_id. exact Hc.
  - apply Forall_map. eapply Forall_impl; [exact Hf |]. intros part Hp. auto.
Qed.

Lemma flat_map_ext_in {A B : Type} (f g : A -> list B) (l : list A) :
  (forall x, In x l -> f x = g x) -> flat_map f l = flat_map g l.
Proof.
  intros H. rewrite !flat_map_concat_map. f_equal. apply map_ext_in. exact H.
Qed.

Lemma flat_map_lookup_seq {A B : Type} (g : nat -> A -> list B) (l : list A) :
  flat_map (fun i => match l !! i with Some a => g i a | None => [] end)
    (seq 0 (length l))
  = concat (imap g l).
Proof.
  induction l as [|a l IH] using rev_ind; [reflexivity |].
  rewrite length_app. simpl length. rewrite Nat.add_1_r, seq_S.
  rewrite flat_map_app, imap_app, concat_app. simpl.
  rewrite lookup_app_r by lia. rewrite Nat.sub_diag. simpl.
  rewrite Nat.add_0_r, !app_nil_r. f_equal.
  rewrite <- IH. apply flat_map_ext_in. intros i Hi. apply in_seq in Hi.
  rewrite lookup_app_l by lia. reflexivity.
Qed.

Lemma length_flat_map_le {A B : Type} (f g : A -> list B) (l : list A) :
  (forall x, x ∈ l -> (length (f x) <= length (g x))%nat) ->
  (length (flat_map f l) <= length (flat_map g l))%nat
  /\ ((exists x, x ∈ l /\ (length (f x) < length (g x))%nat) ->
      (length (flat_map f l) < length (flat_map g l))%nat).
Proof.
  induction l as [|a l IH]; intros Hle.
  - simpl. split; [lia |]. intros [x [Hx _]]. inversion Hx.
  - assert (Ha : (length (f a) <= length (g a))%nat) by (apply Hle; left).
    assert (Hl : forall x, x ∈ l -> (length (f x) <= length (g x))%nat)
      by (intros x Hx; apply Hle; right; exact Hx).
    destruct (IH Hl) as [IH1 IH2].
    simpl. rewrite !length_app. split; [lia |].
    intros [x [Hx Hlt]]. inversion Hx; subst.
    + lia.
    + assert (length (flat_map f l) < length (flat_map g l))%nat
        by (apply IH2; eauto). lia.
Qed.

Lemma length_to_records {C : Type} (df : DataFrame C) :
  length (to_records df) = length (rows df).
Proof. unfold to_records. apply length_map. Qed.

Lemma concat_imap_const {A B : Type} (f : A -> list B) (l : list A) :
  concat (imap (fun _ a => f a) l) = concat (map f l).
Proof.
  change (imap (fun _ a => f a) l) with (imap (const f) l).
  rewrite imap_const. reflexivity.
Qed.

Lemma concat_to_records {C : Type} (df : DataFrame C)
    (chunks : list (DataFrame C)) :
  Forall (fun chunk => columns chunk = columns df /\ rows chunk <> []) chunks ->
  concat (map to_records chunks) = to_records {| columns := columns df;
                                                 rows := concat (map rows chunks) |}.
Proof.
  induction 1 as [|chunk chunks [Hc _] _ IH]; [reflexivity |].
  cbn [map concat]. rewrite IH. unfold to_records. cbn [columns rows].
  rewrite map_app, Hc. reflexivity.
Qed.

(** When the pool runs every chunk once, the rows added are, up to their
    order, the rows of the chunks that did not fail; a failing chunk makes
    them strictly fewer than the rows of the frame, no failing chunk makes
    them the rows of the frame. *)
Lemma written_rows_permutation (fails : nat -> bool) (order : list nat)
    (df : DataFrame sqlvalue) (chunks : list (DataFrame sqlvalue)) :
  concat (map rows chunks) = rows df ->
  Forall (fun chunk => columns chunk = columns df /\ rows chunk <> []) chunks ->
  order ≡ₚ seq 0 (length chunks) ->
  written_rows fails order chunks
  ≡ₚ concat (imap (fun i chunk => if fails i then [] else to_records chunk)
               chunks)
  /\ ((exists k, (k < length chunks)%nat /\ fails k = true) ->
      (length (written_rows fails order chunks) < length (rows df))%nat)
  /\ ((forall k, (k < length chunks)%nat -> fails k = false) ->
      written_rows fails order chunks ≡ₚ to_records df).
Proof.
  intros Hconcat Hchunks Hperm.
  set (f := fun i => match chunks !! i with
                     | Some chunk => if fails i then [] else to_records chunk
                     | None => []
                     end).
  set (g := fun i => match chunks !! i with
                     | Some chunk => to_records chunk
                     | None => []
                     end).
  assert (Hw : written_rows fails order chunks ≡ₚ flat_map f (seq 0 (length chunks))).
  { unfold written_rows. fold f. apply Permutation_flat_map. exact Hperm. }
  assert (Hall : flat_map g (seq 0 (length chunks)) = to_records df).
  { unfold g.
    rewrite (flat_map_lookup_seq (fun _ chunk => to_records chunk) chunks).
    rewrite concat_imap_const, (concat_to_records df) by exact Hchunks.
    rewrite Hconcat. reflexivity. }
  split; [| split].
  - rewrite Hw. unfold f.
    rewrite (flat_map_lookup_seq
               (fun i chunk => if fails i then [] else to_records chunk)).
    reflexivity.
  - intros [k [Hk Hfail]].
    rewrite (Permutation_length Hw), <- length_to_records, <- Hall.
    apply (length_flat_map_le f g).
    + intros i _. unfold f, g. destruct (chunks !! i); [| lia].
      destruct (fails i); simpl; lia.
    + exists k. split; [apply list_elem_of_In, in_seq; lia |].
      unfold f, g. destruct (chunks !! k) as [chunk|] eqn:Ek.
      * rewrite Hfail. simpl. rewrite length_to_records.
        rewrite Forall_forall in Hchunks.
        destruct (Hchunks chunk) as [_ Hne];
          [apply list_elem_of_lookup; eauto |].
        destruct (rows chunk); [congruence | simpl; lia].
      * apply lookup_ge_None in Ek. lia.
  - intros Hnone. rewrite Hw, <- Hall.
    assert (Heq : flat_map f (seq 0 (length chunks))
                  = flat_map g (seq 0 (length chunks))).
    { apply flat_map_ext_in. intros i Hi. apply in_seq in Hi.
      unfold f, g. destruct (chunks !! i); [| reflexivity].
      rewrite Hnone by lia. reflexivity. }
    rewrite Heq. reflexivity.
Qed.

(** ** The method as a whole *)

Section SyncFacts.

Variable config : DatabaseConfig.
Variable today_at_read today_at_delete : Z.
Variable fails : nat -> bool.
Variable order : list nat.

Variable view : DataFrame sqlvalue.
Variable view_name target_table date_column : string.
Variable days : Z.
Variable source_schema target_schema : option string.
Variable chunksize max_threads : Z.
Variable db : SqlStore.

Let source : string :=
  qualified (default (postgres_schema config) (truthy source_schema)) view_name.
Let target : string :=
  qualified (default (sqlserver_schema config) (truthy target_schema))
    target_table.
Let start_date : Z := today_at_read - days.
Let run : Effect SqlStore :=
  sync_postgres_to_sqlserver config today_at_read today_at_delete fails order
    view view_name target_table date_column days source_schema target_schema
    chunksize max_threads db.

(** The rows of the target the [DELETE] of line 186 leaves. *)
Let kept (t : Table) : list (dict sqlvalue) :=
  filter (fun r => negb (in_window date_column start_date today_at_delete r))
    (table_rows t).

(** What the method does when each of its statements succeeds: with no row
    read it leaves the store alone; otherwise it replaces the rows of the
    window by the rows of the chunks whose insert did not fail. *)
Lemma sync_effect (i : nat) (t : Table) :
  column_index date_column (columns view) = Some i ->
  Forall (fun row => is_dated (cell_at SqlNull i row) = true) (rows view) ->
  db !! target = Some t ->
  mem date_column (table_columns t) = true ->
  0 < chunksize ->
  0 < max_threads ->
  exists selected prepared df chunks,
    read_sql view source date_column start_date
    = Ok {| columns := columns view; rows := selected |}
    /\ prepared_frame view source date_column start_date
       = Ok {| columns := columns view; rows := prepared |}
    /\ length prepared = length selected
    /\ frame_to_write view source date_column start_date (table_columns t)
       = Ok df
    /\ df = {| columns := common_columns (columns view) (table_columns t);
               rows := map (project (columns view)
                              (common_columns (columns view) (table_columns t)))
                         prepared |}
    /\ chunks_of df chunksize = Ok chunks
    /\ concat (map rows chunks) = rows df
    /\ Forall (fun chunk => columns chunk = columns df /\ rows chunk <> [])
         chunks
    /\ raised run = None
    /\ (selected = [] -> store run = db)
    /\ (selected <> [] ->
        store run
        = <[target := mkTable (table_columns t)
                        (kept t ++ written_rows fails order chunks)]> db
        /\ log run
           = [SyncStarting source target;
              ReadRecords (length selected) source;
              DeletedData target start_date today_at_delete]
             ++ chunk_errors fails order chunks
             ++ [Inserted (length (rows df)) target]).
Proof.
  intros Hi Hdated Ht Hmem Hchunk Hthreads.
  destruct (frame_to_write_ok view source date_column start_date
              (table_columns t) i Hi Hdated)
    as [selected [prepared [Hread [Hprep [Hlen Hframe]]]]].
  set (df := {| columns := common_columns (columns view) (table_columns t);
                rows := map (project (columns view)
                               (common_columns (columns view) (table_columns t)))
                          prepared |}) in *.
  destruct (chunks_of_spec df chunksize Hchunk) as [chunks [Hchunks [Hcat Hne]]].
  exists selected, prepared, df, chunks.
  split; [exact Hread |]. split; [exact Hprep |]. split; [exact Hlen |].
  split; [exact Hframe |]. split; [reflexivity |]. split; [exact Hchunks |].
  split; [exact Hcat |]. split; [exact Hne |].
  unfold run, sync_postgres_to_sqlserver.
  fold source target start_date. rewrite Hread.
  destruct selected as [|row selected].
  - simpl. split; [reflexivity |]. split; [reflexivity | congruence].
  - assert (Hempty : empty {| columns := columns view;
                              rows := row :: selected |} = false).
    { unfold empty. simpl. destruct (columns view); [discriminate | reflexivity]. }
    rewrite Hempty.
    unfold prepared_frame in Hprep. rewrite Hread in Hprep.
    change (coerce_date_column date_column
              (_preprocess_dataframe
                 {| columns := columns view; rows := row :: selected |})
            = Ok {| columns := columns view; rows := prepared |}) in Hprep.
    rewrite Hprep.
    unfold _get_sqlserver_columns. fold target. rewrite Ht.
    cbn [columns].
    rewrite (getitem_common_columns {| columns := columns view;
                                       rows := prepared |}).
    cbn [columns rows]. fold df.
    rewrite Hmem. simpl negb. cbv iota.
    rewrite Hchunks.
    destruct (max_threads <=? 0) eqn:Emt; [apply Z.leb_le in Emt; lia |].
    rewrite executor_map_spec. simpl.
    split; [reflexivity |]. split; [congruence |]. intros _.
    split; reflexivity.
Qed.



End SyncFacts.

(* ===================================================================== *)
(** * [process_insights_data] *)
(* ===================================================================== *)

Section ProcessFacts.

Variable float_of_str : string -> option string.
Variable account_id : string.

Local Abbreviation info_of := (adset_info float_of_str account_id).

Lemma int_or_zero_ok (field : option string) :
  int_coerces field = true -> exists n, int_or_zero field = Ok n.
Proof.
  destruct field as [s|]; simpl; [| eauto].
  destruct (int_of_str s); [eauto | discriminate].
Qed.

Lemma float_or_zero_ok (field : option string) :
  float_coerces float_of_str field = true ->
  exists r, float_or_zero float_of_str field = Ok (CFloat r).
Proof.
  destruct field as [s|]; simpl; [| eauto].
  destruct (float_of_str s); [eauto | discriminate].
Qed.

(** The dict of an item that coerces: its keys, and the cells of the
    campaign identifier and of the date. *)
Lemma adset_info_ok (item : Raw.InsightItem) :
  coerces float_of_str item = true ->
  exists info,
    info_of item = Ok info
    /\ map fst info = adset_columns
    /\ cell_at CNaN 6 (map snd info) = of_option (Raw.campaign_id item)
    /\ cell_at CNaN 13 (map snd info) = of_option (Raw.date_start item).
Proof.
  unfold coerces. rewrite !andb_true_iff.
  intros [[[[Hs Hc] Hl] Hi] _].
  destruct (float_or_zero_ok _ Hs) as [spend Hspend].
  destruct (int_or_zero_ok _ Hc) as [clicks Hclicks].
  destruct (int_or_zero_ok _ Hl) as [links Hlinks].
  destruct (int_or_zero_ok _ Hi) as [impressions Himpressions].
  unfold adset_info. rewrite Hspend, Hclicks, Hlinks, Himpressions. simpl.
  eexists. split; [reflexivity |]. repeat split.
Qed.

Lemma action_info_ok (item : Raw.InsightItem) (action : Raw.Action) :
  int_coerces (Raw.value action) = true ->
  exists d,
    action_info account_id item action = Ok d
    /\ map fst d = actions_columns
    /\ cell_at CNaN 4 (map snd d) = of_option (Raw.date_start item).
Proof.
  intros H. destruct (int_or_zero_ok _ H) as [n Hn].
  unfold action_info. rewrite Hn. simpl.
  eexists. split; [reflexivity |]. split; reflexivity.
Qed.

(** The loop over items that coerce fills the two lists: one dict per
    item in [adset_data], in the order of the items, and dicts with the
    action columns and the date of their item in [actions_data]. *)
Lemma process_items_ok (insights : list Raw.InsightItem) :
  Forall (fun item => coerces float_of_str item = true) insights ->
  exists adset_data actions_data,
    process_items float_of_str account_id insights
    = Ok (adset_data, actions_data)
    /\ Forall2 (fun item info => info_of item = Ok info) insights adset_data
    /\ Forall (fun d =>
           map fst d = actions_columns
           /\ exists item, item ∈ insights
                /\ cell_at CNaN 4 (map snd d) = of_option (Raw.date_start item))
         actions_data.
Proof.
  induction 1 as [|item insights Hitem _ IH].
  - exists [], []. simpl. auto.
  - destruct IH as [ad [ac [Hrest [Hinfos Hacts]]]].
    destruct (adset_info_ok item Hitem) as [info [Hinfo _]].
    assert (Hactions : exists acts,
              map_result (action_info account_id item)
                (default [] (Raw.actions item)) = Ok acts
              /\ Forall (fun d =>
                     map fst d = actions_columns
                     /\ cell_at CNaN 4 (map snd d)
                        = of_option (Raw.date_start item))
                   acts).
    { unfold coerces in Hitem. rewrite !andb_true_iff in Hitem.
      destruct Hitem as [_ Hall]. rewrite forallb_forall in Hall.
      induction (default [] (Raw.actions item)) as [|a l IHl].
      - exists []. simpl. auto.
      - destruct IHl as [acts [Hacts' Hf]];
          [intros x Hx; apply Hall; right; exact Hx |].
        destruct (action_info_ok item a) as [d [Hd [Hk Hdate]]];
          [apply Hall; left; reflexivity |].
        exists (d :: acts). simpl. rewrite Hd. simpl. rewrite Hacts'. simpl.
        split; [reflexivity |]. constructor; [split; assumption | exact Hf]. }
    destruct Hactions as [acts [Hmap Hf]].
    exists (info :: ad), (acts ++ ac).
    simpl. rewrite Hinfo. simpl. rewrite Hmap. simpl. rewrite Hrest. simpl.
    split; [reflexivity |]. split; [constructor; assumption |].
    apply Forall_app. split.
    + eapply Forall_impl; [exact Hf |]. intros d [Hk Hd].
      split; [exact Hk |]. exists item. split; [left | exact Hd].
    + eapply Forall_impl; [exact Hacts |]. intros d [Hk [it [Hin Hd]]].
      split; [exact Hk |]. exists it. split; [right; exact Hin | exact Hd].
Qed.

Lemma key_match_of_option (a b : option string) :
  key_match (of_option a) (of_option b) = bool_decide (a = b).
Proof.
  destruct a as [s|], b as [t|]; try reflexivity.
  simpl key_match. destruct (String.eqb s t) eqn:E.
  - apply String.eqb_eq in E. subst. rewrite bool_decide_eq_true_2; reflexivity.
  - apply String.eqb_neq in E. rewrite bool_decide_eq_false_2; [reflexivity |].
    congruence.
Qed.

End ProcessFacts.

Section ProcessFrames.

Variable float_of_str : string -> option string.
Variable account_id : string.

Lemma nodup_columns :
  NoDup adset_columns /\ NoDup actions_columns /\ NoDup campaign_columns.
Proof.
  repeat split; apply (bool_decide_unpack _); vm_compute; exact I.
Qed.

Lemma bind_ok {A B : Type} (a : A) (k : A -> result B) :
  (x ← Ok a; k x) = k a.
Proof. reflexivity. Qed.

(** [df_campaigns[['campaign_id', 'campaign_status']]] on a frame with
    the campaign columns. *)
Lemma status_frame (campaign_rows : list (list cell)) :
  getitem_list CNaN ["campaign_id"; "campaign_status"]
    {| columns := campaign_columns; rows := campaign_rows |}
  = Ok {| columns := ["campaign_id"; "campaign_status"];
          rows := map (fun row => [cell_at CNaN 1 row; cell_at CNaN 3 row])
                    campaign_rows |}.
Proof. reflexivity. Qed.

(** The left join of [df_adset] with the two status columns. *)
Lemma merge_status (adset_rows status_rows : list (list cell)) :
  merge_left CNaN key_match
    {| columns := adset_columns; rows := adset_rows |}
    {| columns := ["campaign_id"; "campaign_status"]; rows := status_rows |}
    "campaign_id"
  = Ok {| columns := adset_columns ++ ["campaign_status"];
          rows :=
            flat_map (fun l =>
              match filter (fun r =>
                        key_match (cell_at CNaN 6 l) (cell_at CNaN 0 r))
                      status_rows with
              | [] => [l ++ [CNaN]]
              | matches => map (fun r => l ++ drop_cell 0 r) matches
              end)
            adset_rows |}.
Proof. reflexivity. Qed.

(** [df_ads['unique_id'] = ...] on the joined frame. *)
Lemma setitem_unique_id (joined : list (list cell)) :
  setitem "unique_id"
    (map (fun row => CStr (generate_unique_id row)) joined)
    {| columns := adset_columns ++ ["campaign_status"]; rows := joined |}
  = {| columns := ads_columns;
       rows := map (fun row => row ++ [CStr (generate_unique_id row)]) joined |}.
Proof.
  unfold setitem.
  change (column_index "unique_id"
            (columns {| columns := adset_columns ++ ["campaign_status"];
                        rows := joined |})) with (@None nat).
  cbn [columns rows]. rewrite zip_with_map. reflexivity.
Qed.

(** The statuses joined to the cells of an item. *)
Lemma joined_rows (campaigns : list Raw.CampaignItem) (item : Raw.InsightItem)
    (l : list cell) :
  cell_at CNaN 6 l = of_option (Raw.campaign_id item) ->
  match filter (fun r => key_match (cell_at CNaN 6 l) (cell_at CNaN 0 r))
          (map (fun c => [of_option (Raw.id c); of_option (Raw.status c)])
             campaigns) with
  | [] => [l ++ [CNaN]]
  | matches => map (fun r => l ++ drop_cell 0 r) matches
  end
  = map (fun status => l ++ [status]) (joined_statuses campaigns item).
Proof.
  intros Hkey. unfold joined_statuses. rewrite filter_map.
  rewrite (filter_ext_bool _
             (fun c => bool_decide (Raw.id c = Raw.campaign_id item))).
  - destruct (filter (fun c => bool_decide (Raw.id c = Raw.campaign_id item))
                campaigns) as [|c matched]; [reflexivity |].
    cbn [map]. rewrite !map_map. reflexivity.
  - intros c. rewrite Hkey. unfold cell_at. simpl nth.
    rewrite key_match_of_option.
    apply bool_decide_ext. split; congruence.
Qed.

Lemma flat_map_cons {A B : Type} (f : A -> list B) (a : A) (l : list A) :
  flat_map f (a :: l) = f a ++ flat_map f l.
Proof. reflexivity. Qed.

Lemma joined_flat_map (campaigns : list Raw.CampaignItem)
    (insights : list Raw.InsightItem) (adset_data : list (dict cell)) :
  Forall2 (fun item info => adset_info float_of_str account_id item = Ok info)
    insights adset_data ->
  Forall (fun item => coerces float_of_str item = true) insights ->
  flat_map (fun l =>
      match filter (fun r => key_match (cell_at CNaN 6 l) (cell_at CNaN 0 r))
              (map (fun c => [of_option (Raw.id c); of_option (Raw.status c)])
                 campaigns) with
      | [] => [l ++ [CNaN]]
      | matches => map (fun r => l ++ drop_cell 0 r) matches
      end)
    (map (map snd) adset_data)
  = flat_map (fun item =>
        map (fun status => candidate float_of_str account_id item ++ [status])
          (joined_statuses campaigns item))
      insights.
Proof.
  induction 1 as [|item info insights adset_data Hinfo _ IH]; intros Hcoerce;
    [reflexivity |].
  inversion Hcoerce as [|? ? Hc Hrest]; subst.
  rewrite map_cons, !flat_map_cons. f_equal; [| exact (IH Hrest)].
  unfold candidate. rewrite Hinfo.
  destruct (adset_info_ok float_of_str account_id item Hc)
    as [info' [Hinfo' [_ [Hkey _]]]].
  assert (info' = info) by congruence. subst info'.
  apply (joined_rows campaigns item (map snd info) Hkey).
Qed.

(** The two frames [process_insights_data] returns for items that coerce
    and at least one insight and one campaign: the ads frame has, for each
    insight in order, one row for each status joined to it. *)
Lemma process_insights_data_frames (insights : list Raw.InsightItem)
    (campaigns : list Raw.CampaignItem) :
  insights <> [] -> campaigns <> [] ->
  Forall (fun item => coerces float_of_str item = true) insights ->
  exists adset_data actions_data,
    process_items float_of_str account_id insights
    = Ok (adset_data, actions_data)
    /\ process_insights_data float_of_str insights campaigns account_id
       = Ok ({| columns := ads_columns;
                rows :=
                  flat_map (fun item =>
                      map (ad_record (candidate float_of_str account_id item))
                        (joined_statuses campaigns item))
                    insights |},
             from_records CNaN actions_data).
Proof.
  intros Hins Hcamps Hcoerce.
  destruct (process_items_ok float_of_str account_id insights Hcoerce)
    as [adset_data [actions_data [Hitems [Hinfos _]]]].
  exists adset_data, actions_data. split; [exact Hitems |].
  destruct nodup_columns as [Hnd_adset [_ Hnd_campaign]].
  assert (Hadset : from_records CNaN adset_data
                   = {| columns := adset_columns;
                        rows := map (map snd) adset_data |}).
  { apply from_records_uniform; [exact Hnd_adset | |].
    - intros ->. inversion Hinfos; subst. congruence.
    - clear -Hinfos Hcoerce. induction Hinfos as [|item info ? ? Hinfo _ IH];
        [constructor |].
      inversion Hcoerce as [|? ? Hc Hrest]; subst.
      constructor; [| apply IH; exact Hrest].
      destruct (adset_info_ok float_of_str account_id item Hc)
        as [info' [Hinfo' [Hkeys _]]].
      congruence. }
  assert (Hcampaigns :
            from_records CNaN (map (campaign_info account_id) campaigns)
            = {| columns := campaign_columns;
                 rows := map (map snd)
                           (map (campaign_info account_id) campaigns) |}).
  { apply from_records_uniform; [exact Hnd_campaign | |].
    - destruct campaigns; [congruence | discriminate].
    - apply Forall_map. apply Forall_forall. intros c _. reflexivity. }
  assert (Hstatus :
            getitem_list CNaN ["campaign_id"; "campaign_status"]
              (from_records CNaN (map (campaign_info account_id) campaigns))
            = Ok {| columns := ["campaign_id"; "campaign_status"];
                    rows := map (fun c => [of_option (Raw.id c);
                                           of_option (Raw.status c)])
                              campaigns |}).
  { rewrite Hcampaigns, status_frame, !map_map. reflexivity. }
  unfold process_insights_data. rewrite Hitems, bind_ok.
  rewrite Hstatus, bind_ok, Hadset, merge_status, bind_ok.
  rewrite (joined_flat_map campaigns insights adset_data Hinfos Hcoerce).
  set (joined := flat_map _ insights).
  assert (Hjoined : joined
                    = flat_map (fun item =>
                          map (fun status =>
                                 candidate float_of_str account_id item
                                 ++ [status])
                            (joined_statuses campaigns item))
                        insights) by reflexivity.
  assert (Hnonempty : empty {| columns := adset_columns ++ ["campaign_status"];
                               rows := joined |} = false).
  { rewrite Hjoined. destruct insights as [|item rest]; [congruence |].
    simpl flat_map. unfold joined_statuses at 1.
    destruct (filter _ campaigns); reflexivity. }
  rewrite Hnonempty. simpl negb. cbv iota.
  cbn [rows]. rewrite setitem_unique_id. rewrite Hjoined.
  f_equal. f_equal. f_equal.
  rewrite !flat_map_concat_map, concat_map, map_map. f_equal.
  apply map_ext. intros item. rewrite map_map. reflexivity.
Qed.

End ProcessFrames.

Lemma joined_statuses_unique (campaigns : list Raw.CampaignItem)
    (item : Raw.InsightItem) :
  NoDup (map Raw.id campaigns) ->
  joined_statuses campaigns item = [campaign_status_of campaigns item].
Proof.
  unfold joined_statuses, campaign_status_of.
  induction campaigns as [|c campaigns IH]; intros Hnd; [reflexivity |].
  simpl in Hnd. apply NoDup_cons in Hnd. destruct Hnd as [Hc Hnd].
  simpl List.find. destruct (bool_decide (Raw.id c = Raw.campaign_id item)) eqn:E.
  - rewrite filter_cons_True by (apply Is_true_true; exact E).
    apply bool_decide_eq_true_1 in E.
    rewrite (filter_none (fun c0 => bool_decide (Raw.id c0 = Raw.campaign_id item))).
    + reflexivity.
    + apply Forall_forall. intros c' Hc'.
      apply bool_decide_eq_false_2. intros Heq. apply Hc.
      rewrite E, <- Heq. apply list_elem_of_In, in_map, list_elem_of_In. exact Hc'.
  - rewrite filter_cons_False by (apply Is_true_false; exact E).
    apply IH. exact Hnd.
Qed.

Lemma campaign_status_of_match (campaigns : list Raw.CampaignItem)
    (item : Raw.InsightItem) (c : Raw.CampaignItem) :
  NoDup (map Raw.id campaigns) -> c ∈ campaigns ->
  Raw.id c = Raw.campaign_id item ->
  campaign_status_of campaigns item = of_option (Raw.status c).
Proof.
  unfold campaign_status_of.
  induction campaigns as [|c' campaigns IH]; intros Hnd Hin Hid;
    [inversion Hin |].
  simpl in Hnd. apply NoDup_cons in Hnd. destruct Hnd as [Hc' Hnd].
  simpl. destruct (bool_decide (Raw.id c' = Raw.campaign_id item)) eqn:E.
  - apply bool_decide_eq_true_1 in E. inversion Hin; subst; [reflexivity |].
    exfalso. apply Hc'. rewrite E, <- Hid.
    apply list_elem_of_In, in_map, list_elem_of_In. assumption.
  - apply bool_decide_eq_false_1 in E. inversion Hin; subst; [congruence |].
    apply IH; assumption.
Qed.

Lemma campaign_status_of_unmatched (campaigns : list Raw.CampaignItem)
    (item : Raw.InsightItem) :
  (forall c, c ∈ campaigns -> Raw.id c <> Raw.campaign_id item) ->
  campaign_status_of campaigns item = CNaN.
Proof.
  unfold campaign_status_of.
  induction campaigns as [|c campaigns IH]; intros H; [reflexivity |].
  simpl. rewrite bool_decide_eq_false_2 by (apply H; left).
  apply IH. intros c' Hc'. apply H. right. exact Hc'.
Qed.

Section ProcessTheorems.

Variable float_of_str : string -> option string.
Variable account_id : string.

(** C6, as amended: for at least one insight item and one campaign,
    insight items whose numeric fields are numbers and campaigns with
    pairwise distinct identifiers, [process_insights_data] returns one
    row per insight item, in the order of the insights; the row holds the
    item's fields, the status of the campaign that has the item's campaign
    identifier, or NaN when no campaign has it, and the fingerprint. *)
Theorem process_insights_data_left_join
    (insights : list Raw.InsightItem) (campaigns : list Raw.CampaignItem) :
  insights <> [] ->
  campaigns <> [] ->
  Forall (fun item => coerces float_of_str item = true) insights ->
  NoDup (map Raw.id campaigns) ->
  exists df_ads df_actions,
    process_insights_data float_of_str insights campaigns account_id
    = Ok (df_ads, df_actions)
    /\ columns df_ads = ads_columns
    /\ rows df_ads
       = map (fun item =>
                ad_record (candidate float_of_str account_id item)
                  (campaign_status_of campaigns item))
           insights
    /\ length (rows df_ads) = length insights
    /\ (forall item c,
          c ∈ campaigns -> Raw.id c = Raw.campaign_id item ->
          campaign_status_of campaigns item = of_option (Raw.status c))
    /\ (forall item,
          (forall c, c ∈ campaigns -> Raw.id c <> Raw.campaign_id item) ->
          campaign_status_of campaigns item = CNaN).
Proof.
  intros Hins Hcamps Hcoerce Hnd.
  destruct (process_insights_data_frames float_of_str account_id insights
              campaigns Hins Hcamps Hcoerce)
    as [adset_data [actions_data [_ Hrun]]].
  assert (Hrows : flat_map (fun item =>
                      map (ad_record (candidate float_of_str account_id item))
                        (joined_statuses campaigns item))
                    insights
                  = map (fun item =>
                           ad_record (candidate float_of_str account_id item)
                             (campaign_status_of campaigns item))
                      insights).
  { clear -Hnd. induction insights as [|item insights IH]; [reflexivity |].
    rewrite flat_map_cons, IH, (joined_statuses_unique campaigns item Hnd).
    reflexivity. }
  eexists. eexists. split; [exact Hrun |]. cbn [columns rows].
  split; [reflexivity |]. split; [exact Hrows |].
  split; [rewrite Hrows; apply length_map |]. split.
  - intros item c. apply campaign_status_of_match. exact Hnd.
  - apply campaign_status_of_unmatched.
Qed.

(** The frame of the two status columns, for at least one campaign. *)
Lemma status_frame_of_campaigns (campaigns : list Raw.CampaignItem) :
  campaigns <> [] ->
  getitem_list CNaN ["campaign_id"; "campaign_status"]
    (from_records CNaN (map (campaign_info account_id) campaigns))
  = Ok {| columns := ["campaign_id"; "campaign_status"];
          rows := map (fun c => [of_option (Raw.id c); of_option (Raw.status c)])
                    campaigns |}.
Proof.
  intros Hne. destruct nodup_columns as [_ [_ Hnd]].
  rewrite (from_records_uniform CNaN campaign_columns); [| exact Hnd | |].
  - rewrite status_frame, !map_map. reflexivity.
  - destruct campaigns; [congruence | discriminate].
  - apply Forall_map. apply Forall_forall. intros c _. reflexivity.
Qed.

(** C7 fails on the code: with no insight item [df_adset] is a frame
    without columns, so the selection of the status columns (no campaign)
    or the join on ['campaign_id'] (some campaign) raises [KeyError]; the
    test of line 242 is never reached. *)
Theorem process_insights_data_no_insights_raises
    (campaigns : list Raw.CampaignItem) :
  process_insights_data float_of_str [] campaigns account_id
  = Raise (KeyError (if decide (campaigns = [])
                     then ["campaign_id"; "campaign_status"]
                     else ["campaign_id"])).
Proof.
  unfold process_insights_data. cbn [process_items]. rewrite bind_ok.
  destruct (decide (campaigns = [])) as [-> | Hne]; [reflexivity |].
  rewrite (status_frame_of_campaigns campaigns Hne). reflexivity.
Qed.

End ProcessTheorems.

(** Two insights, one with a campaign and one without. *)
Lemma process_insights_data_left_join_witness :
  let item id date :=
    Raw.mkInsight (Some "Acme") None None (Some "ad1") None id None None
      None (Some "3") None None (Some date) None in
  let insights := [item (Some "c1") "2024-01-01"; item (Some "c9") "2024-01-02"] in
  let campaigns := [Raw.mkCampaign (Some "c1") None (Some "ACTIVE") None;
                    Raw.mkCampaign (Some "c2") None (Some "PAUSED") None] in
  insights <> []
  /\ campaigns <> []
  /\ Forall (fun item => coerces (fun _ => None) item = true) insights
  /\ NoDup (map Raw.id campaigns)
  /\ exists df_ads df_actions,
       process_insights_data (fun _ => None) insights campaigns "1"
       = Ok (df_ads, df_actions)
       /\ columns df_ads = ads_columns
       /\ rows df_ads
          = map (fun item =>
                   ad_record (candidate (fun _ => None) "1" item)
                     (campaign_status_of campaigns item))
              insights
       /\ length (rows df_ads) = length insights
       /\ (forall item c,
             c ∈ campaigns -> Raw.id c = Raw.campaign_id item ->
             campaign_status_of campaigns item = of_option (Raw.status c))
       /\ (forall item,
             (forall c, c ∈ campaigns -> Raw.id c <> Raw.campaign_id item) ->
             campaign_status_of campaigns item = CNaN).
Proof.
  intros item insights campaigns.
  assert (H1 : insights <> []) by discriminate.
  assert (H2 : campaigns <> []) by discriminate.
  assert (H3 : Forall (fun item => coerces (fun _ => None) item = true) insights)
    by (repeat constructor).
  assert (H4 : NoDup (map Raw.id campaigns))
    by (apply (bool_decide_unpack _); vm_compute; exact I).
  split; [exact H1 |]. split; [exact H2 |]. split; [exact H3 |].
  split; [exact H4 |].
  exact (process_insights_data_left_join (fun _ => None) "1" insights campaigns
           H1 H2 H3 H4).
Defined.

(** C6 fails as stated: two campaigns with the same identifier give two
    rows for the one insight item that has it. *)
Lemma process_insights_data_duplicates_rows :
  let item :=
    Raw.mkInsight (Some "Acme") None None (Some "ad1") None (Some "c1") None
      None None (Some "3") None None (Some "2024-01-01") None in
  let campaigns := [Raw.mkCampaign (Some "c1") None (Some "ACTIVE") None;
                    Raw.mkCampaign (Some "c1") None (Some "PAUSED") None] in
  exists df_ads df_actions,
    process_insights_data (fun _ => None) [item] campaigns "1"
    = Ok (df_ads, df_actions)
    /\ length (rows df_ads) = 2%nat
    /\ map (cell_at CNaN 14) (rows df_ads) = [CStr "ACTIVE"; CStr "PAUSED"]
    /\ length (rows df_ads) <> length [item].
Proof.
  intros item campaigns. eexists. eexists.
  split; [vm_compute; reflexivity |].
  split; [reflexivity |]. split; [reflexivity | discriminate].
Qed.

(* ===================================================================== *)
(** * [extract_meta_ads_data] *)
(* ===================================================================== *)

Lemma all_str_intro (cells : list cell) :
  Forall (fun c => exists s, c = CStr s) cells -> one_kind cells.
Proof.
  intros H. unfold one_kind. apply orb_true_iff. left.
  unfold all_str. apply forallb_forall. intros c Hc.
  rewrite Forall_forall in H. apply list_elem_of_In in Hc.
  destruct (H c Hc) as [s ->]. reflexivity.
Qed.

Section ExtractFacts.

Variable float_of_str : string -> option string.
Variable api_config : GraphAPIConfig.
Variable today : Z.
Variable db_config : DatabaseConfig.

Lemma ad_record_date (account_id : string) (item : Raw.InsightItem)
    (status : cell) :
  dated_item float_of_str item ->
  exists s,
    cell_at CNaN 13
      (ad_record (candidate float_of_str account_id item) status) = CStr s.
Proof.
  intros [Hc [d Hd]].
  destruct (adset_info_ok float_of_str account_id item Hc)
    as [info [Hinfo [Hkeys [_ Hdate]]]].
  exists d. unfold candidate. rewrite Hinfo.
  assert (Hlen : length (map snd info) = 14%nat).
  { rewrite length_map, <- (length_map fst), Hkeys. reflexivity. }
  unfold ad_record, cell_at in *.
  rewrite app_nth1 by (rewrite length_app; lia).
  rewrite app_nth1 by lia. rewrite Hdate, Hd. reflexivity.
Qed.




End ExtractFacts.

(* ===================================================================== *)
(** * The properties on concrete runs *)
(* ===================================================================== *)

(** A table with a row of 1 January and a row of 2 January receives a
    frame with rows of 2 and 3 January; and an empty frame. *)
Lemma upsert_dataframe_replaces_date_range_witness :
  let df := {| columns := ["date"; "clicks"];
               rows := [[CStr "2024-01-02"; CInt 5];
                        [CStr "2024-01-03"; CInt 7]] |} in
  let stored := [[("date", CStr "2024-01-01"); ("clicks", CInt 1)];
                 [("date", CStr "2024-01-02"); ("clicks", CInt 2)]] in
  let db : PgStore := {["public.ads" := stored]} in
  let run := upsert_dataframe default_database_config df "ads" "date" None db in
  upsert_dataframe default_database_config {| columns := []; rows := [] |}
    "ads" "date" None db
  = mkEffect db [NothingToInsert None "ads"] None
  /\ empty df = false
  /\ getitem CNaN "date" df = Ok [CStr "2024-01-02"; CStr "2024-01-03"]
  /\ one_kind [CStr "2024-01-02"; CStr "2024-01-03"]
  /\ db !! "public.ads" = Some stored
  /\ exists min_date max_date after,
       series_min [CStr "2024-01-02"; CStr "2024-01-03"] = Ok min_date
       /\ series_max [CStr "2024-01-02"; CStr "2024-01-03"] = Ok max_date
       /\ raised run = None
       /\ store run = <["public.ads" := after]> db
       /\ filter (between "date" min_date max_date) after = to_records df
       /\ filter (fun r => negb (between "date" min_date max_date r)) after
          = filter (fun r => negb (between "date" min_date max_date r)) stored.
Proof.
  intros df stored db run.
  assert (H1 : empty df = false) by reflexivity.
  assert (H2 : getitem CNaN "date" df
               = Ok [CStr "2024-01-02"; CStr "2024-01-03"]) by reflexivity.
  assert (H3 : one_kind [CStr "2024-01-02"; CStr "2024-01-03"]) by reflexivity.
  assert (H4 : db !! "public.ads" = Some stored) by reflexivity.
  split.
  - exact (proj1 (upsert_dataframe_replaces_date_range default_database_config
                    {| columns := []; rows := [] |} "ads" "date" None db
                    [] stored) eq_refl).
  - split; [exact H1 |]. split; [exact H2 |]. split; [exact H3 |].
    split; [exact H4 |].
    exact (proj2 (upsert_dataframe_replaces_date_range default_database_config
                    df "ads" "date" None db _ stored) H1 H2 H3 H4).
Defined.





(* ===================================================================== *)
(** * Further properties of [paginate_api] *)
(* ===================================================================== *)

Section PaginationInvariants.

Context {Item : Type}.
Variable config : GraphAPIConfig.
Variable url : string.
Variable params : Params.

Local Abbreviation loop := (while_next_url (Item := Item) config url params).

Local Abbreviation well_formed := (well_formed_request config url params).

(** What a run of the loop from any state has done when it ends or runs
    out of answers. *)
Lemma loop_accounts (script : list (Outcome Item)) (st0 : LoopState Item) :
  exists consumed rest st added,
    script = consumed ++ rest
    /\ (loop script st0 = Finished st rest
        \/ (rest = [] /\ loop script st0 = Waiting st))
    /\ all_data st = all_data st0 ++ successful_items consumed
    /\ trace st = trace st0 ++ added
    /\ length (requests_of added) = length consumed
    /\ Forall well_formed (requests_of added)
    /\ sleeps_of added
       = map (fun _ => rate_limit_sleep config) (filter rate_limited consumed).
Proof.
  revert st0. induction script as [|o script IH]; intros st0.
  - exists [], [], st0, []. simpl.
    rewrite !app_nil_r. split; [reflexivity |]. split.
    + destruct (truthy (next_url st0)); [right | left]; auto.
    + repeat split; constructor.
  - destruct (truthy (next_url st0)) as [cur|] eqn:Ecur.
    2:{ exists [], (o :: script), st0, []. simpl. rewrite Ecur, !app_nil_r.
        split; [reflexivity |]. split; [left; reflexivity |].
        repeat split; constructor. }
    rewrite (loop_step config url params st0 cur o script Ecur).
    assert (Hreq : well_formed (request_for config url params cur)).
    { split; reflexivity. }
    destruct (iteration config url params st0 cur o) as [st1 | st1] eqn:Eit.
    + assert (Hstep : all_data st1
                      = all_data st0 ++ successful_items [o]
                      /\ exists sleeps,
                           trace st1
                           = trace st0
                             ++ Get (request_for config url params cur)
                                :: map Sleep sleeps
                           /\ sleeps
                              = map (fun _ => rate_limit_sleep config)
                                  (filter rate_limited [o])).
      { unfold iteration in Eit. destruct o as [r|]; [|discriminate].
        unfold successful_items. simpl.
        destruct (status_code r =? 200) eqn:E200; simpl in Eit |- *.
        - destruct (json r) as [body|]; [|discriminate].
          injection Eit as <-; simpl. rewrite app_nil_r.
          split; [reflexivity |]. exists []. split; [reflexivity |].
          rewrite filter_cons_False by (simpl; rewrite E200; intros []).
          reflexivity.
        - destruct (is_rate_limit r) eqn:Erl; [|discriminate].
          injection Eit as <-; simpl. rewrite app_nil_r.
          split; [reflexivity |]. exists [rate_limit_sleep config].
          rewrite <- app_assoc. split; [reflexivity |].
          rewrite filter_cons_True by (simpl; rewrite E200, Erl; exact I).
          reflexivity. }
      destruct Hstep as [Hd1 [sleeps [Ht1 Hsl]]].
      destruct (IH st1) as [consumed [rest [st [added [Hs [Hrun [Hd [Ht [Hl
                             [Hw Hz]]]]]]]]]].
      exists (o :: consumed), rest, st,
        (Get (request_for config url params cur) :: map Sleep sleeps ++ added).
      split; [simpl; rewrite Hs; reflexivity |].
      split; [exact Hrun |].
      assert (Hreqs : requests_of (map Sleep sleeps
                                   ++ added : list Event)
                      = requests_of added).
      { unfold requests_of. rewrite omap_app.
        replace (omap _ (map Sleep sleeps)) with (@nil Request);
          [reflexivity |].
        clear. induction sleeps; [reflexivity | simpl; assumption]. }
      assert (Hsleeps : sleeps_of (map Sleep sleeps ++ added)
                        = sleeps ++ sleeps_of added).
      { unfold sleeps_of. rewrite omap_app. f_equal.
        clear. induction sleeps as [|s l IHl]; [reflexivity |].
        simpl. f_equal. exact IHl. }
      split.
      { rewrite Hd, Hd1. change (o :: consumed) with ([o] ++ consumed).
        unfold successful_items. rewrite flat_map_app, app_assoc.
        reflexivity. }
      split.
      { rewrite Ht, Ht1, <- app_assoc. reflexivity. }
      split.
      { change (requests_of (Get (request_for config url params cur)
                             :: map Sleep sleeps ++ added))
          with (request_for config url params cur
                :: requests_of (map Sleep sleeps ++ added)).
        rewrite Hreqs. simpl. rewrite Hl. reflexivity. }
      split.
      { change (requests_of (Get (request_for config url params cur)
                             :: map Sleep sleeps ++ added))
          with (request_for config url params cur
                :: requests_of (map Sleep sleeps ++ added)).
        rewrite Hreqs. constructor; assumption. }
      change (sleeps_of (Get (request_for config url params cur)
                         :: map Sleep sleeps ++ added))
        with (sleeps_of (map Sleep sleeps ++ added)).
      rewrite Hsleeps, Hz, Hsl.
      change (o :: consumed) with ([o] ++ consumed).
      rewrite filter_app, map_app. reflexivity.
    + exists [o], script, st1, [Get (request_for config url params cur)].
      split; [reflexivity |]. split; [left; reflexivity |].
      assert (Hstep : all_data st1 = all_data st0
                      /\ trace st1
                         = trace st0 ++ [Get (request_for config url params cur)]
                      /\ successful_items [o] = []
                      /\ rate_limited o = false).
      { unfold iteration in Eit. unfold successful_items, rate_limited.
        destruct o as [r|]; simpl.
        - destruct (status_code r =? 200) eqn:E200; simpl in Eit |- *.
          + destruct (json r) as [body|]; [discriminate |].
            injection Eit as <-; simpl. auto.
          + destruct (is_rate_limit r) eqn:Erl; [discriminate |].
            injection Eit as <-; simpl. auto.
        - injection Eit as <-; simpl. auto. }
      destruct Hstep as [Hd1 [Ht1 [Hnone Hrl]]].
      split; [rewrite Hd1, Hnone, app_nil_r; reflexivity |].
      split; [exact Ht1 |]. split; [reflexivity |].
      split; [repeat constructor; apply Hreq |].
      rewrite filter_cons_False by (rewrite Hrl; intros []). reflexivity.
Qed.

(** Whatever the server answers, [paginate_api] has, when it returns or
    runs out of answers, issued one request for each answer it consumed;
    it holds the items of the pages answered with 200 among them, and no
    others; each request carries the configured timeout, and the caller's
    params exactly when its URL is the initial one; and it has slept the
    configured time once for each rate-limited answer. *)
Theorem paginate_api_accounts_for_every_answer
    (script : list (Outcome Item)) :
  exists consumed rest st,
    script = consumed ++ rest
    /\ (paginate_api config url params script = Finished st rest
        \/ (rest = [] /\ paginate_api config url params script = Waiting st))
    /\ all_data st = successful_items consumed
    /\ length (requests_of (trace st)) = length consumed
    /\ Forall well_formed (requests_of (trace st))
    /\ sleeps_of (trace st)
       = map (fun _ => rate_limit_sleep config) (filter rate_limited consumed).
Proof.
  destruct (loop_accounts script (initial url))
    as [consumed [rest [st [added [Hs [Hrun [Hd [Ht [Hl [Hw Hz]]]]]]]]]].
  exists consumed, rest, st. simpl in Hd, Ht. subst added.
  repeat (split; [assumption |]). exact Hz.
Qed.

End PaginationInvariants.

(* ===================================================================== *)
(** * Python strings *)
(* ===================================================================== *)

Section StringFacts.

Import PyStr.

Lemma list_ascii_app (a b : string) :
  list_ascii_of_string (a +:+ b)
  = list_ascii_of_string a ++ list_ascii_of_string b.
Proof.
  induction a as [|c a IH]; [reflexivity |].
  rewrite append_cons. simpl. rewrite IH. reflexivity.
Qed.

Lemma list_ascii_inj (a b : string) :
  list_ascii_of_string a = list_ascii_of_string b -> a = b.
Proof.
  intros H. rewrite <- (string_of_list_ascii_of_string a),
    <- (string_of_list_ascii_of_string b), H. reflexivity.
Qed.

Lemma list_ascii_rev_app (s acc : string) :
  list_ascii_of_string (String.rev_app s acc)
  = List.rev (list_ascii_of_string s) ++ list_ascii_of_string acc.
Proof.
  revert acc. induction s as [|c s IH]; intros acc; [reflexivity |].
  simpl. rewrite IH. simpl. rewrite <- app_assoc. reflexivity.
Qed.

Lemma list_ascii_rev (s : string) :
  list_ascii_of_string (String.rev s) = List.rev (list_ascii_of_string s).
Proof.
  unfold String.rev. rewrite list_ascii_rev_app. simpl.
  apply app_nil_r.
Qed.

Lemma string_rev_involutive (s : string) : String.rev (String.rev s) = s.
Proof.
  apply list_ascii_inj. rewrite !list_ascii_rev. apply rev_involutive.
Qed.

Lemma string_rev_app (a b : string) :
  String.rev (a +:+ b) = String.rev b +:+ String.rev a.
Proof.
  apply list_ascii_inj.
  rewrite list_ascii_rev, !list_ascii_app, !list_ascii_rev.
  apply rev_app_distr.
Qed.

Lemma string_length_ascii (s : string) :
  String.length s = length (list_ascii_of_string s).
Proof. induction s as [|c s IH]; simpl; congruence. Qed.

Lemma string_rev_length (s : string) :
  String.length (String.rev s) = String.length s.
Proof.
  rewrite !string_length_ascii, list_ascii_rev. apply length_rev.
Qed.

Lemma string_app_length (a b : string) :
  String.length (a +:+ b) = (String.length a + String.length b)%nat.
Proof.
  rewrite !string_length_ascii, list_ascii_app. apply length_app.
Qed.

Lemma string_app_assoc (a b c : string) : (a +:+ b) +:+ c = a +:+ (b +:+ c).
Proof.
  apply list_ascii_inj. rewrite !list_ascii_app. symmetry. apply app_assoc.
Qed.

Lemma string_app_nil_r (a : string) : a +:+ EmptyString = a.
Proof.
  apply list_ascii_inj. rewrite list_ascii_app. apply app_nil_r.
Qed.

Lemma has_char_app (c : ascii) (a b : string) :
  has_char c (a +:+ b) = has_char c a || has_char c b.
Proof.
  induction a as [|x a IH]; [reflexivity |].
  rewrite append_cons. simpl. rewrite IH. apply orb_assoc.
Qed.

(** ** [removeprefix] and the stripping of blanks *)

Lemma removeprefix_spec (p s r : string) :
  removeprefix p s = Some r <-> s = p +:+ r.
Proof.
  revert s. induction p as [|a p IH]; intros s.
  - simpl. split; [intros H; inversion H; reflexivity | intros ->; reflexivity].
  - rewrite append_cons. destruct s as [|b s]; simpl; [split; discriminate |].
    destruct (Ascii.eqb a b) eqn:E.
    + apply Ascii.eqb_eq in E. subst b. rewrite IH.
      split; [intros ->; reflexivity | intros H; inversion H; reflexivity].
    + apply Ascii.eqb_neq in E. split; [discriminate |].
      intros H. inversion H. congruence.
Qed.

Lemma drop_blank_some (blanks : list string) (s r : string) :
  drop_blank blanks s = Some r -> exists w, w ∈ blanks /\ s = w +:+ r.
Proof.
  unfold drop_blank. induction blanks as [|w blanks IH]; [discriminate |].
  simpl. destruct (removeprefix w s) as [r'|] eqn:E; simpl.
  - intros H. inversion H; subst r'. exists w. split; [left |].
    apply removeprefix_spec. exact E.
  - intros H. destruct (IH H) as [w' [Hin Hs]]. exists w'.
    split; [right; exact Hin | exact Hs].
Qed.

Lemma drop_blank_none (blanks : list string) (s w r : string) :
  drop_blank blanks s = None -> w ∈ blanks -> s <> w +:+ r.
Proof.
  unfold drop_blank. induction blanks as [|w' blanks IH]; intros Hnone Hin;
    [inversion Hin |].
  simpl in Hnone. destruct (removeprefix w' s) as [r'|] eqn:E;
    [discriminate |].
  inversion Hin; subst.
  - intros Hs. apply removeprefix_spec in Hs. congruence.
  - apply IH; assumption.
Qed.

Lemma drop_blank_is_Some (blanks : list string) (s w r : string) :
  w ∈ blanks -> s = w +:+ r -> is_Some (drop_blank blanks s).
Proof.
  intros Hin Hs. destruct (drop_blank blanks s) eqn:E; [eauto |].
  exfalso. exact (drop_blank_none blanks s w r E Hin Hs).
Qed.

Lemma whitespace_proper : proper whitespace.
Proof. unfold proper, whitespace. simpl. repeat constructor; discriminate. Qed.

Lemma rev_whitespace_proper : proper (map String.rev whitespace).
Proof.
  unfold proper, whitespace. vm_compute. repeat constructor; discriminate.
Qed.

Lemma lstrip_with_suffix (blanks : list string) (fuel : nat) (s : string) :
  exists pre, s = pre +:+ lstrip_with blanks fuel s.
Proof.
  revert s. induction fuel as [|fuel IH]; intros s;
    [exists EmptyString; reflexivity |].
  simpl. destruct (drop_blank blanks s) as [r|] eqn:E;
    [| exists EmptyString; reflexivity].
  destruct (drop_blank_some _ _ _ E) as [w [_ Hs]].
  destruct (IH r) as [pre Hr]. exists (w +:+ pre).
  rewrite string_app_assoc, <- Hr. exact Hs.
Qed.

Lemma lstrip_with_done (blanks : list string) (fuel : nat) (s : string) :
  proper blanks -> (String.length s <= fuel)%nat ->
  drop_blank blanks (lstrip_with blanks fuel s) = None.
Proof.
  intros Hp. revert s. induction fuel as [|fuel IH]; intros s Hlen.
  - destruct s; [| simpl in Hlen; lia]. simpl.
    destruct (drop_blank blanks EmptyString) as [r|] eqn:E; [| reflexivity].
    destruct (drop_blank_some _ _ _ E) as [w [Hin Hs]].
    unfold proper in Hp. rewrite Forall_forall in Hp.
    destruct w; [exfalso; exact (Hp _ Hin eq_refl) | discriminate].
  - simpl. destruct (drop_blank blanks s) as [r|] eqn:E; [| exact E].
    apply IH. destruct (drop_blank_some _ _ _ E) as [w [Hin Hs]].
    unfold proper in Hp. rewrite Forall_forall in Hp.
    subst s. rewrite string_app_length in Hlen.
    destruct w; [exfalso; exact (Hp _ Hin eq_refl) | simpl in Hlen; lia].
Qed.

Lemma lstrip_with_fixed (blanks : list string) (fuel : nat) (s : string) :
  drop_blank blanks s = None -> lstrip_with blanks fuel s = s.
Proof. intros H. destruct fuel; simpl; [| rewrite H]; reflexivity. Qed.

(** A string without a leading blank keeps none when it is cut at the
    end. *)
Lemma drop_blank_prefix (blanks : list string) (s post : string) :
  proper blanks ->
  drop_blank blanks (s +:+ post) = None -> drop_blank blanks s = None.
Proof.
  intros Hp Hnone. destruct (drop_blank blanks s) as [r|] eqn:E;
    [| reflexivity].
  destruct (drop_blank_some _ _ _ E) as [w [Hin Hs]].
  exfalso. apply (drop_blank_none _ _ w (r +:+ post) Hnone Hin).
  rewrite Hs, string_app_assoc. reflexivity.
Qed.

Lemma rstrip_prefix (s : string) : exists post, s = rstrip s +:+ post.
Proof.
  unfold rstrip.
  destruct (lstrip_with_suffix (map String.rev whitespace) (String.length s)
              (String.rev s)) as [pre H].
  exists (String.rev pre).
  rewrite <- string_rev_app, <- H. symmetry. apply string_rev_involutive.
Qed.

(** [strip] returns a piece of its argument. *)
Lemma strip_substring (s : string) :
  exists pre post, s = pre +:+ strip s +:+ post.
Proof.
  unfold strip. destruct (lstrip_with_suffix whitespace (String.length s) s)
    as [pre Hpre].
  fold (lstrip s) in Hpre.
  destruct (rstrip_prefix (lstrip s)) as [post Hpost].
  exists pre, post. rewrite <- Hpost. exact Hpre.
Qed.

(** A stripped string has no blank at either end. *)
Lemma strip_no_leading_blank (s : string) :
  drop_blank whitespace (strip s) = None.
Proof.
  unfold strip. destruct (rstrip_prefix (lstrip s)) as [post Hpost].
  apply (drop_blank_prefix whitespace _ post whitespace_proper).
  rewrite <- Hpost. unfold lstrip.
  apply lstrip_with_done; [apply whitespace_proper | lia].
Qed.

Lemma strip_no_trailing_blank (s : string) :
  drop_blank (map String.rev whitespace) (String.rev (strip s)) = None.
Proof.
  unfold strip, rstrip. rewrite string_rev_involutive.
  apply lstrip_with_done; [apply rev_whitespace_proper |].
  rewrite string_rev_length. lia.
Qed.

(** Stripping twice is stripping once. *)
Lemma strip_idempotent (s : string) : strip (strip s) = strip s.
Proof.
  assert (Hl : lstrip (strip s) = strip s).
  { unfold lstrip. apply lstrip_with_fixed, strip_no_leading_blank. }
  unfold strip at 1. rewrite Hl. unfold rstrip.
  rewrite lstrip_with_fixed by apply strip_no_trailing_blank.
  apply string_rev_involutive.
Qed.

Lemma strip_keeps_absent (c : ascii) (s : string) :
  has_char c s = false -> has_char c (strip s) = false.
Proof.
  destruct (strip_substring s) as [pre [post H]]. intros Hc.
  rewrite H, !has_char_app in Hc.
  apply orb_false_iff in Hc. destruct Hc as [_ Hc].
  apply orb_false_iff in Hc. destruct Hc as [Hc _]. exact Hc.
Qed.

(** ** [split] *)

Lemma split_not_nil (sep : ascii) (s : string) : split sep s <> [].
Proof.
  destruct s as [|c s]; simpl; [discriminate |].
  destruct (Ascii.eqb c sep); [discriminate |].
  destruct (split sep s); discriminate.
Qed.

(** No piece of a split holds the separator. *)
Lemma split_pieces (sep : ascii) (s : string) :
  Forall (fun piece => has_char sep piece = false) (split sep s).
Proof.
  induction s as [|c s IH]; simpl; [repeat constructor |].
  destruct (Ascii.eqb c sep) eqn:E; [constructor; [reflexivity | exact IH] |].
  destruct (split sep s) as [|piece pieces]; [repeat constructor; simpl |].
  - rewrite E. reflexivity.
  - inversion IH; subst. constructor; [| assumption].
    simpl. rewrite E. assumption.
Qed.

(** A character other than the separator stays absent from the pieces. *)
Lemma split_keeps_absent (sep c : ascii) (s : string) :
  has_char c s = false ->
  Forall (fun piece => has_char c piece = false) (split sep s).
Proof.
  induction s as [|x s IH]; simpl; [repeat constructor |].
  intros H. apply orb_false_iff in H. destruct H as [Hx Hs].
  specialize (IH Hs).
  destruct (Ascii.eqb x sep); [constructor; [reflexivity | exact IH] |].
  destruct (split sep s) as [|piece pieces];
    [repeat constructor; simpl; rewrite Hx; reflexivity |].
  inversion IH; subst. constructor; [| assumption].
  simpl. rewrite Hx. assumption.
Qed.

End StringFacts.

(* ===================================================================== *)
(** * [AccountsConfig] *)
(* ===================================================================== *)

Section AccountsFacts.

Import PyStr AccountsConfig.


(** ** [_load_accounts] *)

Lemma clean_piece (piece part : string) :
  has_char "," piece = false ->
  part ∈ split ":" (strip piece) ->
  clean (strip part).
Proof.
  intros Hcomma Hin. split; [apply strip_idempotent |].
  split; apply strip_keeps_absent.
  - pose proof (split_keeps_absent ":" "," (strip piece)
                  (strip_keeps_absent _ _ Hcomma)) as H.
    rewrite Forall_forall in H. apply H. exact Hin.
  - pose proof (split_pieces ":" (strip piece)) as H.
    rewrite Forall_forall in H. apply H. exact Hin.
Qed.

(** The loop over the pieces: it returns one account for each item, in
    order, or raises at the first item that is not of the form
    [account_id:table_name]. *)
Lemma parse_accounts_spec (pieces : list string) :
  Forall (fun piece => has_char "," piece = false) pieces ->
  let items :=
    filter (fun item => item <> EmptyString) (map strip pieces) in
  match parse_accounts pieces with
  | Returns accounts =>
      Forall2 account_of items accounts
      /\ Forall (fun account =>
             clean (account_id account) /\ clean (table account))
           accounts
  | Raises e =>
      exists before item after,
        items = before ++ item :: after
        /\ Forall (fun item => length (split ":" item) = 2%nat) before
        /\ length (split ":" item) <> 2%nat
        /\ e = ValueError (InvalidFormat item)
  end.
Proof.
  induction 1 as [|piece pieces Hpiece _ IH]; simpl.
  - split; constructor.
  - destruct (decide (strip piece = EmptyString)) as [Hblank | Hitem].
    + rewrite bool_decide_eq_true_2 by exact Hblank.
      rewrite filter_cons_False by (intros H; apply H; exact Hblank).
      exact IH.
    + rewrite bool_decide_eq_false_2 by exact Hitem.
      rewrite filter_cons_True by exact Hitem.
      destruct (split ":" (strip piece)) as [|a [|t [|x rest]]] eqn:Esplit.
      * eexists [], (strip piece), _. rewrite Esplit.
        split; [reflexivity |]. split; [constructor |].
        split; [discriminate | reflexivity].
      * eexists [], (strip piece), _. rewrite Esplit.
        split; [reflexivity |]. split; [constructor |].
        split; [discriminate | reflexivity].
      * simpl in IH. destruct (parse_accounts pieces) as [accounts | e].
        -- simpl. destruct IH as [Hitems Hclean]. split.
           ++ constructor; [| exact Hitems].
              exists a, t. split; [exact Esplit | reflexivity].
           ++ constructor; [| exact Hclean]. simpl.
              split; apply (clean_piece piece); try exact Hpiece;
                rewrite Esplit.
              ** left.
              ** right. left.
        -- simpl. destruct IH as [before [item [after [Hi [Hb [Hbad He]]]]]].
           exists (strip piece :: before), item, after.
           split; [simpl; rewrite Hi; reflexivity |].
           split; [constructor; [rewrite Esplit; reflexivity | exact Hb] |].
           split; [exact Hbad | exact He].
      * eexists [], (strip piece), _. rewrite Esplit.
        split; [reflexivity |]. split; [constructor |].
        split; [simpl; lia | reflexivity].
Qed.

(** [_load_accounts] returns one account for each item of
    [META_ACCOUNTS] that is not blank, in order, and at least one; the
    identifier and the table of an account are as [strip] leaves them and
    hold neither comma nor colon. It raises when the variable is unset or
    empty, when every item is blank, and at the first item that has not
    exactly one colon. *)
Theorem load_accounts_returns_one_account_per_item (env : Environ) :
  let accounts_str := default EmptyString (env !! "META_ACCOUNTS") in
  let items := stripped_items accounts_str in
  match _load_accounts env with
  | Returns accounts =>
      accounts <> []
      /\ Forall2 account_of items accounts
      /\ Forall (fun account =>
             clean (account_id account) /\ clean (table account))
           accounts
  | Raises (ValueError NoAccountsConfigured) => accounts_str = EmptyString
  | Raises (ValueError NoValidAccounts) =>
      accounts_str <> EmptyString /\ items = []
  | Raises (ValueError (InvalidFormat item)) =>
      exists before after,
        items = before ++ item :: after
        /\ Forall (fun item => length (split ":" item) = 2%nat) before
        /\ length (split ":" item) <> 2%nat
  | Raises _ => False
  end.
Proof.
  intros accounts_str items. unfold _load_accounts. fold accounts_str.
  destruct (decide (accounts_str = EmptyString)) as [Hempty | Hset].
  - rewrite bool_decide_eq_true_2 by exact Hempty. exact Hempty.
  - rewrite bool_decide_eq_false_2 by exact Hset.
    pose proof (parse_accounts_spec (split "," accounts_str)
                  (split_pieces "," accounts_str)) as H.
    simpl in H. fold (stripped_items accounts_str) in H. fold items in H.
    destruct (parse_accounts (split "," accounts_str)) as [accounts | e];
      simpl.
    + destruct H as [Hitems Hclean]. destruct accounts as [|account accounts].
      * split; [exact Hset |]. inversion Hitems. reflexivity.
      * split; [discriminate |]. split; assumption.
    + destruct H as [before [item [after [Hi [Hb [Hbad ->]]]]]].
      exists before, after. repeat split; assumption.
Qed.

End AccountsFacts.

Section AccountsChecks.

Import PyStr AccountsConfig.

(** ** [validate_configuration] *)

Lemma distinct_le (names : list string) :
  (distinct names <= length names)%nat.
Proof.
  unfold distinct. induction names as [|x names IH].
  - rewrite list_to_set_nil, size_empty. simpl. lia.
  - rewrite list_to_set_cons, size_union_alt, size_singleton. simpl length.
    assert (Hdiff : (size (list_to_set names ∖ {[x]} : gset string)
                     <= size (list_to_set names : gset string))%nat).
    { apply subseteq_size. intros y Hy. apply elem_of_difference in Hy.
      exact (proj1 Hy). }
    lia.
Qed.

(** [len(names) == len(set(names))] holds exactly when no name occurs
    twice. *)
Lemma distinct_NoDup (names : list string) :
  (length names =? distinct names)%nat = true <-> NoDup names.
Proof.
  rewrite Nat.eqb_eq. split.
  - induction names as [|x names IH]; [constructor |].
    unfold distinct. rewrite list_to_set_cons. simpl length. intros H.
    destruct (decide (x ∈ names)) as [Hin | Hout].
    + exfalso.
      assert (Heq : ({[x]} ∪ list_to_set names : gset string)
                    = list_to_set names).
      { apply subseteq_union_1_L. apply singleton_subseteq_l.
        apply elem_of_list_to_set. exact Hin. }
      rewrite Heq in H. pose proof (distinct_le names) as Hle.
      unfold distinct in Hle. lia.
    + rewrite size_union, size_singleton in H by set_solver.
      constructor; [exact Hout |]. apply IH. unfold distinct. lia.
  - intros H. unfold distinct. symmetry. apply size_list_to_set. exact H.
Qed.

(** What a configuration that passes the validation has. *)
Lemma validate_configuration_passed (self : Self) (answer : bool) :
  validate_configuration self = Returns answer ->
  accounts self <> [] /\ tokens self <> []
  /\ NoDup (map account_id (accounts self))
  /\ NoDup (map table (accounts self)).
Proof.
  unfold validate_configuration.
  destruct (accounts self) as [|account rest] eqn:Ea; [discriminate |].
  destruct (tokens self) as [|token more] eqn:Et; [discriminate |].
  rewrite <- Ea.
  destruct (length (map account_id (accounts self))
            =? distinct (map account_id (accounts self)))%nat eqn:Eids;
    [| discriminate].
  destruct (length (map table (accounts self))
            =? distinct (map table (accounts self)))%nat eqn:Etables;
    [| discriminate].
  intros _. apply distinct_NoDup in Eids, Etables.
  repeat split; try assumption; congruence.
Qed.

(** [validate_configuration] returns [True] exactly when there is an
    account and a token and neither an account identifier nor a table
    name occurs twice; otherwise it raises the [ValueError] of the first
    check that fails. *)
Theorem validate_configuration_accepts_distinct_accounts (self : Self) :
  match validate_configuration self with
  | Returns answer =>
      answer = true
      /\ accounts self <> [] /\ tokens self <> []
      /\ NoDup (map account_id (accounts self))
      /\ NoDup (map table (accounts self))
  | Raises (ValueError NoAccounts) => accounts self = []
  | Raises (ValueError NoTokens) => accounts self <> [] /\ tokens self = []
  | Raises (ValueError DuplicateAccountIds) =>
      accounts self <> [] /\ tokens self <> []
      /\ ~ NoDup (map account_id (accounts self))
  | Raises (ValueError DuplicateTableNames) =>
      accounts self <> [] /\ tokens self <> []
      /\ NoDup (map account_id (accounts self))
      /\ ~ NoDup (map table (accounts self))
  | Raises _ => False
  end.
Proof.
  unfold validate_configuration.
  destruct (accounts self) as [|account rest] eqn:Ea; [reflexivity |].
  destruct (tokens self) as [|token more] eqn:Et; [split; congruence |].
  rewrite <- Ea.
  destruct (length (map account_id (accounts self))
            =? distinct (map account_id (accounts self)))%nat eqn:Eids; simpl.
  - apply distinct_NoDup in Eids.
    destruct (length (map table (accounts self))
              =? distinct (map table (accounts self)))%nat eqn:Etables; simpl.
    + apply distinct_NoDup in Etables.
      repeat split; try assumption; congruence.
    + repeat split; try assumption; try congruence.
      intros H. apply distinct_NoDup in H. congruence.
  - repeat split; try congruence.
    intros H. apply distinct_NoDup in H. congruence.
Qed.

(** ** [get_account_with_token] *)

Lemma list_item_nat {A : Type} (l : list A) (i : nat) :
  list_item l (Z.of_nat i) = l !! i.
Proof.
  unfold list_item. destruct (Z.of_nat i <? 0) eqn:E;
    [apply Z.ltb_lt in E; lia |].
  rewrite Nat2Z.id. reflexivity.
Qed.

(** The account at an index within the list, with its token. *)
Lemma get_account_with_token_at (self : Self) (k : nat) (account : Account) :
  tokens self <> [] ->
  accounts self !! k = Some account ->
  exists token,
    tokens self !! (k mod length (tokens self))%nat = Some token
    /\ get_account_with_token self (Z.of_nat k) = Returns (account, token).
Proof.
  intros Htokens Hk.
  assert (Hn : (0 < length (tokens self))%nat)
    by (destruct (tokens self); [congruence | simpl; lia]).
  pose proof (lookup_lt_Some _ _ _ Hk) as Hlt.
  destruct (lookup_lt_is_Some_2 (tokens self) (k mod length (tokens self))%nat)
    as [token Htoken]; [apply Nat.mod_upper_bound; lia |].
  exists token. split; [exact Htoken |].
  unfold get_account_with_token.
  destruct (Z.of_nat (length (accounts self)) <=? Z.of_nat k) eqn:E;
    [apply Z.leb_le in E; lia |].
  rewrite list_item_nat, Hk.
  destruct (Z.of_nat (length (tokens self)) =? 0) eqn:E0;
    [apply Z.eqb_eq in E0; lia |].
  rewrite <- Nat2Z.inj_mod, list_item_nat, Htoken. reflexivity.
Qed.

(** For an index within the accounts and at least one token,
    [get_account_with_token] returns the account at that index and the
    token at the index modulo the number of tokens: the tokens are handed
    out in turn, account [i] and account [i + len(tokens)] get the same
    one. *)
Theorem get_account_with_token_rotates_tokens (self : Self) (i : nat) :
  (i < length (accounts self))%nat ->
  tokens self <> [] ->
  exists account token,
    get_account_with_token self (Z.of_nat i) = Returns (account, token)
    /\ accounts self !! i = Some account
    /\ tokens self !! (i mod length (tokens self))%nat = Some token
    /\ forall j account',
         accounts self !! j = Some account' ->
         (j mod length (tokens self) = i mod length (tokens self))%nat ->
         get_account_with_token self (Z.of_nat j) = Returns (account', token).
Proof.
  intros Hi Htokens.
  destruct (lookup_lt_is_Some_2 (accounts self) i Hi) as [account Haccount].
  destruct (get_account_with_token_at self i account Htokens Haccount)
    as [token [Htoken Hget]].
  exists account, token. repeat (split; [assumption |]).
  intros j account' Hj Hmod.
  destruct (get_account_with_token_at self j account' Htokens Hj)
    as [token' [Htoken' Hget']].
  rewrite Hmod in Htoken'. congruence.
Qed.

(** Outside these bounds: an index at or past the number of accounts
    raises the [IndexError] of line 93; a negative index counts from the
    end of the accounts, and raises the [IndexError] of the list when it
    is below minus their number; without any token the modulo raises
    [ZeroDivisionError]. *)
Theorem get_account_with_token_index_bounds (self : Self) (i : Z) :
  let n := Z.of_nat (length (accounts self)) in
  (n <= i ->
   get_account_with_token self i = Raises (IndexError (Some i)))
  /\ (i < - n ->
      get_account_with_token self i = Raises (IndexError None))
  /\ (- n <= i < n -> tokens self = [] ->
      get_account_with_token self i = Raises ZeroDivisionError)
  /\ (- n <= i < 0 -> tokens self <> [] ->
      exists account token,
        get_account_with_token self i = Returns (account, token)
        /\ accounts self !! Z.to_nat (i + n) = Some account
        /\ tokens self
           !! Z.to_nat (i mod Z.of_nat (length (tokens self))) = Some token).
Proof.
  intros n. unfold get_account_with_token. fold n.
  split; [| split; [| split]].
  - intros H. apply Z.leb_le in H. rewrite H. reflexivity.
  - intros H. destruct (n <=? i) eqn:E; [apply Z.leb_le in E; lia |].
    unfold list_item. fold n.
    destruct (i <? 0) eqn:E0; [| apply Z.ltb_ge in E0; lia].
    destruct (i + n <? 0) eqn:E1; [reflexivity | apply Z.ltb_ge in E1; lia].
  - intros H Htokens. destruct (n <=? i) eqn:E; [apply Z.leb_le in E; lia |].
    assert (Hitem : is_Some (list_item (accounts self) i)).
    { unfold list_item. fold n. destruct (i <? 0) eqn:E0.
      - destruct (i + n <? 0) eqn:E1; [apply Z.ltb_lt in E1; lia |].
        apply lookup_lt_is_Some_2. apply Z.ltb_lt in E0. lia.
      - apply lookup_lt_is_Some_2. apply Z.ltb_ge in E0. lia. }
    destruct Hitem as [account ->]. rewrite Htokens. reflexivity.
  - intros H Htokens. destruct (n <=? i) eqn:E; [apply Z.leb_le in E; lia |].
    assert (Hlen : 0 < Z.of_nat (length (tokens self)))
      by (destruct (tokens self); [congruence | simpl; lia]).
    destruct (lookup_lt_is_Some_2 (accounts self) (Z.to_nat (i + n)))
      as [account Haccount]; [lia |].
    pose proof (Z.mod_pos_bound i _ Hlen) as Hmod.
    destruct (lookup_lt_is_Some_2 (tokens self)
                (Z.to_nat (i mod Z.of_nat (length (tokens self)))))
      as [token Htoken]; [lia |].
    exists account, token. split; [| split; assumption].
    unfold list_item at 1. fold n.
    destruct (i <? 0) eqn:E0; [| apply Z.ltb_ge in E0; lia].
    destruct (i + n <? 0) eqn:E1; [apply Z.ltb_lt in E1; lia |].
    rewrite Haccount.
    destruct (Z.of_nat (length (tokens self)) =? 0) eqn:E2;
      [apply Z.eqb_eq in E2; lia |].
    unfold list_item.
    destruct (i mod Z.of_nat (length (tokens self)) <? 0) eqn:E3;
      [apply Z.ltb_lt in E3; lia |].
    rewrite Htoken. reflexivity.
Qed.

End AccountsChecks.

Section AccountsGroups.

Import PyStr AccountsConfig.

(** ** Slices and [split_accounts_into_groups] *)

(** A slice between two bounds that are not negative. *)
Lemma slice_nat {A : Type} (l : list A) (i n : nat) :
  slice l (Z.of_nat i) (Z.of_nat i + Z.of_nat n) = take n (drop i l).
Proof.
  unfold slice, slice_bound.
  destruct (Z.of_nat i <? 0) eqn:E; [apply Z.ltb_lt in E; lia |].
  destruct (Z.of_nat i + Z.of_nat n <? 0) eqn:E'; [apply Z.ltb_lt in E'; lia |].
  destruct (Nat.le_gt_cases (length l) i) as [Hout | Hin].
  - rewrite !drop_ge by lia. rewrite !take_nil. reflexivity.
  - replace (Z.to_nat (Z.min (Z.of_nat i) (Z.of_nat (length l)))) with i by lia.
    destruct (Nat.le_gt_cases (i + n) (length l)) as [Hfit | Hcut].
    + f_equal. lia.
    + rewrite !take_ge; [reflexivity | |]; rewrite length_drop; lia.
Qed.

(** Consecutive pieces of [n] elements make up the list. *)
Lemma pieces_concat {A : Type} (k n : nat) (l : list A) :
  (length l <= k * n)%nat ->
  concat (map (fun j => take n (drop (j * n) l)) (seq 0 k)) = l.
Proof.
  revert l. induction k as [|k IH]; intros l Hlen.
  - destruct l; [reflexivity | simpl in Hlen; lia].
  - cbn [seq]. rewrite <- seq_shift. cbn [map concat].
    rewrite drop_0, map_map.
    rewrite (map_ext _ (fun j => take n (drop (j * n) (drop n l)))).
    + rewrite IH by (rewrite length_drop; lia). apply take_drop.
    + intros j. rewrite drop_drop. f_equal; f_equal; lia.
Qed.

Lemma range_from_zero (stop step : Z) :
  0 < step ->
  range 0 stop step
  = Returns (map (fun k => Z.of_nat k * step)
               (seq 0 (Z.to_nat ((stop + step - 1) / step)))).
Proof.
  intros H. unfold range.
  destruct (step =? 0) eqn:E; [apply Z.eqb_eq in E; lia |].
  destruct (0 <? step) eqn:E'; [| apply Z.ltb_ge in E'; lia].
  rewrite Z.sub_0_r. reflexivity.
Qed.

(** The groups for a positive number of groups and at least one account:
    [count] pieces of [n] accounts, the last one maybe shorter. *)
Lemma split_accounts_into_groups_pieces (self : Self) (num_groups : Z) :
  0 < num_groups ->
  accounts self <> [] ->
  let total := Z.of_nat (length (accounts self)) in
  let per := (total + num_groups - 1) / num_groups in
  let count := (total + per - 1) / per in
  0 < per
  /\ total <= count * per < total + per
  /\ 0 < count <= num_groups
  /\ split_accounts_into_groups self num_groups
     = Returns (map (fun j => take (Z.to_nat per)
                                (drop (j * Z.to_nat per) (accounts self)))
                  (seq 0 (Z.to_nat count))).
Proof.
  intros Hn Hne total per count.
  assert (Htotal : 0 < total)
    by (unfold total; destruct (accounts self); [congruence | simpl; lia]).
  assert (Hper : 0 < per /\ total <= per * num_groups).
  { unfold per. pose proof (Z.div_mod (total + num_groups - 1) num_groups) as Hd.
    pose proof (Z.mod_pos_bound (total + num_groups - 1) num_groups Hn) as Hm.
    nia. }
  destruct Hper as [Hper Hcover].
  assert (Hcount : total <= count * per < total + per).
  { unfold count. pose proof (Z.div_mod (total + per - 1) per) as Hd.
    pose proof (Z.mod_pos_bound (total + per - 1) per Hper) as Hm.
    nia. }
  split; [exact Hper |]. split; [exact Hcount |]. split; [nia |].
  unfold split_accounts_into_groups. fold total.
  destruct (num_groups =? 0) eqn:E; [apply Z.eqb_eq in E; lia |].
  fold per. rewrite (range_from_zero total per Hper). fold count.
  simpl. f_equal. rewrite map_map. apply map_ext. intros j.
  rewrite <- (slice_nat (accounts self) (j * Z.to_nat per) (Z.to_nat per)).
  f_equal; lia.
Qed.

(** For a positive number of groups and at least one account,
    [split_accounts_into_groups] cuts the accounts, in order, into at most
    [num_groups] groups, none of them empty; every group but the last has
    [ceil(total / num_groups)] accounts, the last one at most that many.
    It can return fewer groups than asked for. *)
Theorem split_accounts_into_groups_partitions (self : Self) (num_groups : Z) :
  0 < num_groups ->
  accounts self <> [] ->
  let per :=
    (Z.of_nat (length (accounts self)) + num_groups - 1) / num_groups in
  exists groups,
    split_accounts_into_groups self num_groups = Returns groups
    /\ concat groups = accounts self
    /\ 0 < Z.of_nat (length groups) <= num_groups
    /\ Forall (fun group =>
           group <> [] /\ Z.of_nat (length group) <= per) groups
    /\ forall j group,
         groups !! j = Some group -> (S j < length groups)%nat ->
         Z.of_nat (length group) = per.
Proof.
  intros Hn Hne per.
  destruct (split_accounts_into_groups_pieces self num_groups Hn Hne)
    as [Hper [Hcount [Hfew Hgroups]]].
  fold per in Hper, Hcount, Hfew, Hgroups.
  set (total := Z.of_nat (length (accounts self))) in *.
  set (count := (total + per - 1) / per) in *.
  set (n := Z.to_nat per) in *.
  set (k := Z.to_nat count) in *.
  eexists. split; [exact Hgroups |].
  assert (Hlen : forall j, (j < k)%nat ->
            length (take n (drop (j * n) (accounts self)))
            = Nat.min n (length (accounts self) - j * n)).
  { intros j _. rewrite length_take, length_drop. reflexivity. }
  split; [apply pieces_concat; unfold total in *; nia |].
  split; [rewrite length_map, length_seq; lia |].
  split.
  - apply Forall_map. apply Forall_forall. intros j Hj.
    apply elem_of_seq in Hj. simpl.
    assert (Hl := Hlen j ltac:(lia)).
    split; [| lia].
    intros Hnil. rewrite Hnil in Hl. simpl in Hl. unfold total in *. nia.
  - intros j group Hj Hlast. rewrite length_map, length_seq in Hlast.
    rewrite list_lookup_fmap in Hj.
    rewrite lookup_seq_lt in Hj by lia. simpl in Hj.
    inversion Hj; subst group. rewrite (Hlen j) by lia.
    unfold total in *. nia.
Qed.

(** Outside these bounds: zero groups raises [ZeroDivisionError]; without
    accounts, the step of the [range] is zero and it raises [ValueError];
    a negative number of groups, for two accounts or more, raises that
    [ValueError] or returns no group at all. *)
Theorem split_accounts_into_groups_edge_cases (self : Self) (num_groups : Z) :
  let total := Z.of_nat (length (accounts self)) in
  (num_groups = 0 ->
   split_accounts_into_groups self num_groups = Raises ZeroDivisionError)
  /\ (0 < num_groups -> accounts self = [] ->
      split_accounts_into_groups self num_groups
      = Raises (ValueError RangeStepZero))
  /\ (num_groups < 0 -> 2 <= total -> total - 1 <= - num_groups ->
      split_accounts_into_groups self num_groups
      = Raises (ValueError RangeStepZero))
  /\ (num_groups < 0 -> 2 <= total -> - num_groups < total - 1 ->
      split_accounts_into_groups self num_groups = Returns []).
Proof.
  intros total. unfold split_accounts_into_groups. fold total.
  split; [| split; [| split]].
  - intros ->. reflexivity.
  - intros Hn Hnil. unfold total. rewrite Hnil. simpl.
    destruct (num_groups =? 0) eqn:E; [apply Z.eqb_eq in E; lia |].
    rewrite Z.div_small by lia. reflexivity.
  - intros Hn Htotal Hsmall.
    destruct (num_groups =? 0) eqn:E; [apply Z.eqb_eq in E; lia |].
    assert (Hper : (total + num_groups - 1) / num_groups = 0).
    { pose proof (Z.div_mod (total + num_groups - 1) num_groups) as Hd.
      pose proof (Z.mod_neg_bound (total + num_groups - 1) num_groups Hn) as Hm.
      nia. }
    rewrite Hper. reflexivity.
  - intros Hn Htotal Hlarge.
    destruct (num_groups =? 0) eqn:E; [apply Z.eqb_eq in E; lia |].
    set (per := (total + num_groups - 1) / num_groups).
    assert (Hper : per < 0).
    { unfold per.
      pose proof (Z.div_mod (total + num_groups - 1) num_groups) as Hd.
      pose proof (Z.mod_neg_bound (total + num_groups - 1) num_groups Hn) as Hm.
      nia. }
    unfold range. destruct (per =? 0) eqn:E0; [apply Z.eqb_eq in E0; lia |].
    destruct (0 <? per) eqn:E1; [apply Z.ltb_lt in E1; lia |].
    assert (Hcount : (0 - total - per - 1) / - per <= 0).
    { pose proof (Z.div_mod (0 - total - per - 1) (- per)) as Hd.
      pose proof (Z.mod_pos_bound (0 - total - per - 1) (- per)) as Hm.
      nia. }
    replace (Z.to_nat ((0 - total - per - 1) / - per)) with 0%nat by lia.
    reflexivity.
Qed.

(** The chunk up to an index and the chunk from it on make up the
    accounts, whatever the index, negative or past the end. *)
Theorem get_accounts_chunk_splits_accounts (self : Self) (k : Z) :
  get_accounts_chunk self 0 k
  ++ get_accounts_chunk self k (Z.of_nat (length (accounts self)))
  = accounts self.
Proof.
  unfold get_accounts_chunk, slice, slice_bound.
  set (n := Z.of_nat (length (accounts self))).
  replace (0 <? 0) with false by reflexivity.
  replace (n <? 0) with false by (symmetry; apply Z.ltb_ge; lia).
  rewrite (Z.min_l 0 n) by lia. rewrite (Z.min_l n n) by lia.
  rewrite drop_0, Z.sub_0_r.
  set (cut := if k <? 0 then Z.max 0 (k + n) else Z.min k n).
  assert (Hcut : 0 <= cut <= n).
  { unfold cut. destruct (k <? 0) eqn:E;
      [apply Z.ltb_lt in E | apply Z.ltb_ge in E]; lia. }
  transitivity (take (Z.to_nat cut) (accounts self)
                ++ drop (Z.to_nat cut) (accounts self));
    [| apply take_drop].
  f_equal. apply take_ge. rewrite length_drop. lia.
Qed.

End AccountsGroups.

(* ===================================================================== *)
(** * The DAG *)
(* ===================================================================== *)

Section DagFacts.

Import PyStr AccountsConfig Dag.

Lemma map_raising_ok {A B : Type} (f : A -> raising B) (g : A -> B)
    (l : list A) :
  Forall (fun a => f a = Returns (g a)) l ->
  map_raising f l = Returns (map g l).
Proof.
  induction 1 as [|a l Ha _ IH]; [reflexivity |].
  simpl. rewrite Ha. simpl. rewrite IH. reflexivity.
Qed.

(** In a list without repetition, [index] finds an element where it is. *)
Lemma index_lookup {A : Type} `{EqDecision A} (l : list A) (i : nat) (x : A) :
  NoDup l -> l !! i = Some x -> index x l = Some i.
Proof.
  intros Hnd. revert i. induction Hnd as [|y l Hy _ IH]; intros i Hi;
    [discriminate |].
  destruct i as [|i]; simpl in Hi |- *.
  - inversion Hi; subst. rewrite decide_True by reflexivity. reflexivity.
  - rewrite decide_False.
    + rewrite (IH i Hi). reflexivity.
    + intros ->. apply Hy. apply list_elem_of_lookup. eauto.
Qed.

(** The task of an account of a validated configuration: it carries the
    token at the position of the account modulo the number of tokens. *)
Lemma extract_task_at (self : Self) (i : nat) (account : Account) :
  tokens self <> [] ->
  NoDup (accounts self) ->
  accounts self !! i = Some account ->
  exists token,
    tokens self !! (i mod length (tokens self))%nat = Some token
    /\ extract_task self account
       = Returns {| task_id := "extract_" +:+ table account;
                    op_account_id := account_id account;
                    op_token := token;
                    op_table_name := table account |}.
Proof.
  intros Htokens Hnd Hi.
  destruct (get_account_with_token_at self i account Htokens Hi)
    as [token [Htoken Hget]].
  exists token. split; [exact Htoken |].
  unfold extract_task. rewrite (index_lookup _ i account Hnd Hi).
  rewrite Hget. reflexivity.
Qed.

(** When the constructor and the validation succeed, the DAG is built
    without an exception: its one or two task groups hold, in the order of
    the configuration, one extraction task for each account, with the
    account's identifier and table and the token at the account's position
    modulo the number of tokens; the groups run one after the other and
    the synchronisation after the last. *)
Theorem dag_runs_each_account_with_its_token (env : Environ) (self : Self) :
  __init__ env = Returns self ->
  validate_configuration self = Returns true ->
  exists graph,
    dag env = Returns graph
    /\ length (concat (map tasks (task_groups graph)))
       = length (accounts self)
    /\ (forall i account,
          accounts self !! i = Some account ->
          exists token,
            tokens self !! (i mod length (tokens self))%nat = Some token
            /\ concat (map tasks (task_groups graph)) !! i
               = Some {| task_id := "extract_" +:+ table account;
                         op_account_id := account_id account;
                         op_token := token;
                         op_table_name := table account |})
    /\ ((map group_id (task_groups graph) = ["accounts_group_1"]
         /\ dependencies graph = [("accounts_group_1", "sync_to_sqlserver")])
        \/ (map group_id (task_groups graph)
            = ["accounts_group_1"; "accounts_group_2"]
            /\ dependencies graph
               = [("accounts_group_1", "accounts_group_2");
                  ("accounts_group_2", "sync_to_sqlserver")])).
Proof.
  intros Hinit Hvalid.
  destruct (validate_configuration_passed self true Hvalid)
    as [Hne [Htokens [Hids _]]].
  assert (Hnd : NoDup (accounts self)) by (eapply NoDup_fmap_1; exact Hids).
  (* the task of each account *)
  set (token_of := fun account : Account =>
         match index account (accounts self) with
         | Some i =>
             default EmptyString
               (tokens self !! (i mod length (tokens self))%nat)
         | None => EmptyString
         end).
  set (task_of := fun account : Account =>
         {| task_id := "extract_" +:+ table account;
            op_account_id := account_id account;
            op_token := token_of account;
            op_table_name := table account |}).
  assert (Htask : forall i account,
            accounts self !! i = Some account ->
            exists token,
              tokens self !! (i mod length (tokens self))%nat = Some token
              /\ task_of account
                 = {| task_id := "extract_" +:+ table account;
                      op_account_id := account_id account;
                      op_token := token;
                      op_table_name := table account |}
              /\ extract_task self account = Returns (task_of account)).
  { intros i account Hi.
    destruct (extract_task_at self i account Htokens Hnd Hi)
      as [token [Htoken Hrun]].
    exists token. split; [exact Htoken |].
    assert (Heq : task_of account
                  = {| task_id := "extract_" +:+ table account;
                       op_account_id := account_id account;
                       op_token := token;
                       op_table_name := table account |}).
    { unfold task_of, token_of.
      rewrite (index_lookup _ i account Hnd Hi), Htoken. reflexivity. }
    split; [exact Heq |]. rewrite Heq. exact Hrun. }
  assert (Hgroup : forall group_idx group,
            group ⊆ accounts self ->
            task_group self group_idx group
            = Returns {| group_id := "accounts_group_" +:+ str_of_int group_idx;
                         tooltip :=
                           "Process accounts "
                           +:+ str_of_int
                                 ((group_idx - 1) * Z.of_nat (length group) + 1)
                           +:+ " to "
                           +:+ str_of_int (group_idx * Z.of_nat (length group));
                         tasks := map task_of group |}).
  { intros group_idx group Hsub. unfold task_group.
    rewrite (map_raising_ok _ task_of); [reflexivity |].
    apply Forall_forall. intros account Hin.
    apply Hsub, list_elem_of_lookup in Hin. destruct Hin as [i Hi].
    destruct (Htask i account Hi) as [_ [_ [_ H]]]. exact H. }
  destruct (split_accounts_into_groups_pieces self 2 ltac:(lia) Hne)
    as [Hper [Hcount [Hfew Hsplit]]].
  set (per := (Z.of_nat (length (accounts self)) + 2 - 1) / 2) in *.
  set (count := (Z.of_nat (length (accounts self)) + per - 1) / per) in *.
  set (n := Z.to_nat per) in *.
  assert (Hcat : concat (map (fun j => take n (drop (j * n) (accounts self)))
                           (seq 0 (Z.to_nat count)))
                 = accounts self).
  { apply pieces_concat. nia. }
  assert (Hsub : forall m, take n (drop m (accounts self)) ⊆ accounts self).
  { intros m x Hx. apply (subseteq_drop m), (subseteq_take n). exact Hx. }
  assert (Hflat : forall groups : list (list Account),
            concat groups = accounts self ->
            length (concat (map (map task_of) groups))
            = length (accounts self)
            /\ forall i account,
                 accounts self !! i = Some account ->
                 exists token,
                   tokens self !! (i mod length (tokens self))%nat = Some token
                   /\ concat (map (map task_of) groups) !! i
                      = Some {| task_id := "extract_" +:+ table account;
                                op_account_id := account_id account;
                                op_token := token;
                                op_table_name := table account |}).
  { intros groups Hg.
    assert (Hmap : concat (map (map task_of) groups)
                   = map task_of (accounts self)).
    { rewrite <- Hg. clear. induction groups as [|g groups IH];
        [reflexivity |].
      simpl. rewrite map_app, IH. reflexivity. }
    rewrite Hmap. split; [apply length_map |].
    intros i account Hi. destruct (Htask i account Hi) as [token [Ht [Heq _]]].
    exists token. split; [exact Ht |].
    rewrite list_lookup_fmap, Hi. simpl. rewrite Heq. reflexivity. }
  unfold dag. rewrite Hinit. simpl. rewrite Hvalid. simpl. rewrite Hsplit.
  simpl.
  assert (Hk : Z.to_nat count = 1%nat \/ Z.to_nat count = 2%nat) by lia.
  destruct Hk as [Hk | Hk]; rewrite Hk in Hcat |- *; cbn [seq map imap] in *.
  - simpl. rewrite Hgroup by apply Hsub. simpl.
    eexists. split; [reflexivity |]. cbn [task_groups dependencies].
    destruct (Hflat _ Hcat) as [Hl Hi].
    split; [exact Hl |]. split; [exact Hi |].
    left. split; reflexivity.
  - simpl. rewrite !Hgroup by apply Hsub. simpl.
    eexists. split; [reflexivity |]. cbn [task_groups dependencies].
    destruct (Hflat _ Hcat) as [Hl Hi].
    split; [exact Hl |]. split; [exact Hi |].
    right. split; reflexivity.
Qed.

End DagFacts.

(* ===================================================================== *)
(** * Further properties of [upsert_dataframe] *)
(* ===================================================================== *)

Section UpsertAgain.

Variable config : DatabaseConfig.

(** [upsert_dataframe] leaves every table but its own as it was, whether
    it returns or raises. *)
Lemma upsert_frame (df : DataFrame cell) (table_name date_column : string)
    (schema : option string) (db : PgStore) (other : string) :
  other
  <> qualified (default (postgres_schema config) (truthy schema)) table_name ->
  store (upsert_dataframe config df table_name date_column schema db) !! other
  = db !! other.
Proof.
  intros Hother. unfold upsert_dataframe.
  destruct (empty df); [reflexivity |].
  destruct (date_bounds df date_column) as [[lo hi] | e]; [| reflexivity].
  destruct (db !! qualified _ table_name); [| reflexivity].
  simpl. apply lookup_insert_ne. congruence.
Qed.

(** A second upsert of a frame, into a store whose table is as the first
    upsert left it, changes nothing. *)
Lemma upsert_again (df : DataFrame cell) (table_name date_column : string)
    (schema : option string) (db db' : PgStore)
    (dates : list cell) (stored : list (dict cell)) :
  let name :=
    qualified (default (postgres_schema config) (truthy schema)) table_name in
  let once := upsert_dataframe config df table_name date_column schema db in
  empty df = false ->
  getitem CNaN date_column df = Ok dates ->
  one_kind dates ->
  db !! name = Some stored ->
  db' !! name = store once !! name ->
  raised once = None
  /\ upsert_dataframe config df table_name date_column schema db'
     = mkEffect db' (log once) None.
Proof.
  intros name once Hempty Hdates Hk Hstored Hsame.
  destruct (upsert_effect config df table_name date_column schema db dates
              stored Hempty Hdates Hk Hstored)
    as [lo [hi [Hlo [Hhi [Hrows Heffect]]]]].
  fold name in Heffect. fold once in Heffect.
  rewrite Heffect in Hsame |- *. cbn [store raised log] in *.
  rewrite lookup_insert_eq in Hsame.
  split; [reflexivity |].
  destruct (upsert_effect config df table_name date_column schema db' dates
              _ Hempty Hdates Hk Hsame)
    as [lo' [hi' [Hlo' [Hhi' [_ Heffect']]]]].
  assert (lo' = lo) by congruence. assert (hi' = hi) by congruence.
  subst lo' hi'. fold name in Heffect'. rewrite Heffect'. f_equal.
  rewrite filter_app, filter_negb_idempotent.
  rewrite (filter_none _ (to_records df)).
  - rewrite app_nil_r. apply insert_id. exact Hsame.
  - eapply Forall_impl; [exact Hrows |]. intros r Hr. simpl in Hr.
    rewrite Hr. reflexivity.
Qed.

(** Upserting the same frame a second time changes nothing: when the date
    column holds dates of one kind and the table exists, neither call
    raises, and the second leaves the store exactly as the first left
    it. *)
Theorem upsert_dataframe_is_idempotent
    (df : DataFrame cell) (table_name date_column : string)
    (schema : option string) (db : PgStore)
    (dates : list cell) (stored : list (dict cell)) :
  let name :=
    qualified (default (postgres_schema config) (truthy schema)) table_name in
  let once := upsert_dataframe config df table_name date_column schema db in
  let twice :=
    upsert_dataframe config df table_name date_column schema (store once) in
  getitem CNaN date_column df = Ok dates ->
  one_kind dates ->
  db !! name = Some stored ->
  raised once = None /\ raised twice = None /\ store twice = store once.
Proof.
  intros name once twice Hdates Hk Hstored.
  destruct (empty df) eqn:Hempty.
  - unfold twice, once, upsert_dataframe. rewrite Hempty. simpl. auto.
  - destruct (upsert_again df table_name date_column schema db (store once)
                dates stored Hempty Hdates Hk Hstored eq_refl)
      as [Hraised Htwice].
    fold once in Hraised. unfold twice. rewrite Htwice. auto.
Qed.

End UpsertAgain.

(* ===================================================================== *)
(** * Further properties of [process_insights_data] *)
(* ===================================================================== *)

Section ProcessMore.

Variable float_of_str : string -> option string.
Variable account_id : string.

Lemma int_or_zero_cases (field : option string) :
  match int_or_zero field with
  | Ok _ => int_coerces field = true
  | Raise e => e = ValueError /\ int_coerces field = false
  end.
Proof.
  destruct field as [s|]; simpl; [| reflexivity].
  destruct (int_of_str s); auto.
Qed.

Lemma float_or_zero_cases (field : option string) :
  match float_or_zero float_of_str field with
  | Ok _ => float_coerces float_of_str field = true
  | Raise e => e = ValueError /\ float_coerces float_of_str field = false
  end.
Proof.
  destruct field as [s|]; simpl; [| reflexivity].
  destruct (float_of_str s); auto.
Qed.

Lemma action_info_cases (item : Raw.InsightItem) (a : Raw.Action) :
  match action_info account_id item a with
  | Ok _ => int_coerces (Raw.value a) = true
  | Raise e => e = ValueError /\ int_coerces (Raw.value a) = false
  end.
Proof.
  unfold action_info. pose proof (int_or_zero_cases (Raw.value a)) as Ha.
  destruct (int_or_zero (Raw.value a)); exact Ha.
Qed.

Lemma actions_cases (item : Raw.InsightItem) (actions : list Raw.Action) :
  match map_result (action_info account_id item) actions with
  | Ok _ => forallb (fun a => int_coerces (Raw.value a)) actions = true
  | Raise e =>
      e = ValueError
      /\ forallb (fun a => int_coerces (Raw.value a)) actions = false
  end.
Proof.
  induction actions as [|a actions IH]; simpl; [reflexivity |].
  pose proof (action_info_cases item a) as Ha.
  destruct (action_info account_id item a) as [d | e]; simpl.
  - rewrite Ha. simpl.
    destruct (map_result (action_info account_id item) actions); simpl;
      exact IH.
  - destruct Ha as [-> ->]. auto.
Qed.

(** The loop over the items returns when every numeric field is a number,
    and raises [ValueError] otherwise. *)
Lemma process_items_cases (insights : list Raw.InsightItem) :
  match process_items float_of_str account_id insights with
  | Ok _ => Forall (fun item => coerces float_of_str item = true) insights
  | Raise e =>
      e = ValueError
      /\ Exists (fun item => coerces float_of_str item = false) insights
  end.
Proof.
  induction insights as [|item insights IH]; simpl; [constructor |].
  unfold adset_info, coerces.
  pose proof (float_or_zero_cases (Raw.spend item)) as Hs.
  destruct (float_or_zero float_of_str (Raw.spend item)) as [spend | e]; simpl;
    [| destruct Hs as [-> Hs]; split; [reflexivity |]; left;
       unfold coerces; rewrite Hs; reflexivity].
  pose proof (int_or_zero_cases (Raw.clicks item)) as Hc.
  destruct (int_or_zero (Raw.clicks item)) as [clicks | e]; simpl;
    [| destruct Hc as [-> Hc]; split; [reflexivity |]; left;
       unfold coerces; rewrite Hc, andb_false_r; reflexivity].
  pose proof (int_or_zero_cases (Raw.inline_link_clicks item)) as Hl.
  destruct (int_or_zero (Raw.inline_link_clicks item)) as [links | e]; simpl;
    [| destruct Hl as [-> Hl]; split; [reflexivity |]; left;
       unfold coerces; rewrite Hl, andb_false_r; reflexivity].
  pose proof (int_or_zero_cases (Raw.impressions item)) as Hi.
  destruct (int_or_zero (Raw.impressions item)) as [impressions | e]; simpl;
    [| destruct Hi as [-> Hi]; split; [reflexivity |]; left;
       unfold coerces; rewrite Hi, andb_false_r; reflexivity].
  pose proof (actions_cases item (default [] (Raw.actions item))) as Ha.
  destruct (map_result (action_info account_id item)
              (default [] (Raw.actions item))) as [acts | e]; simpl;
    [| destruct Ha as [-> Ha]; split; [reflexivity |]; left;
       unfold coerces; rewrite Ha, andb_false_r; reflexivity].
  destruct (process_items float_of_str account_id insights) as [[ad ac] | e];
    simpl.
  - constructor; [| exact IH]. unfold coerces.
    rewrite Hs, Hc, Hl, Hi, Ha. reflexivity.
  - destruct IH as [-> IH]. split; [reflexivity |]. right. exact IH.
Qed.

(** The dicts of [actions_data]: one for each action of each item, in the
    order of the items and of their actions. *)
Lemma process_items_actions (insights : list Raw.InsightItem)
    (adset_data actions_data : list (dict cell)) :
  process_items float_of_str account_id insights
  = Ok (adset_data, actions_data) ->
  map (map snd) actions_data = action_records account_id insights
  /\ Forall (fun d => map fst d = actions_columns) actions_data.
Proof.
  revert adset_data actions_data.
  induction insights as [|item insights IH]; intros ad ac; simpl.
  - intros H. inversion H; subst. split; [reflexivity | constructor].
  - destruct (adset_info float_of_str account_id item) as [info | e]; simpl;
      [| discriminate].
    destruct (map_result (action_info account_id item)
                (default [] (Raw.actions item))) as [acts | e] eqn:Eacts;
      simpl; [| discriminate].
    destruct (process_items float_of_str account_id insights)
      as [[ad' ac'] | e]; simpl; [| discriminate].
    intros H. inversion H; subst. destruct (IH ad' ac' eq_refl) as [Hrows Hkeys].
    assert (Hacts : map (map snd) acts
                    = map (action_record account_id item)
                        (default [] (Raw.actions item))
                    /\ Forall (fun d => map fst d = actions_columns) acts).
    { clear -Eacts. revert acts Eacts.
      induction (default [] (Raw.actions item)) as [|a l IHl]; intros acts;
        simpl.
      - intros H. inversion H; subst. split; [reflexivity | constructor].
      - unfold action_record at 1.
        destruct (action_info account_id item a) as [d | e] eqn:Ed; simpl;
          [| discriminate].
        destruct (map_result (action_info account_id item) l) as [ds | e];
          simpl; [| discriminate].
        intros H. inversion H; subst.
        destruct (IHl ds eq_refl) as [Hr Hk].
        split; [simpl; rewrite Hr; reflexivity |].
        constructor; [| exact Hk].
        unfold action_info in Ed.
        destruct (int_or_zero (Raw.value a)); simpl in Ed; [| discriminate].
        inversion Ed; subst. reflexivity. }
    destruct Hacts as [Hr Hk]. split.
    + unfold action_records in *. rewrite List.map_app.
      f_equal; assumption.
    + apply Forall_app. split; assumption.
Qed.

(** For items whose numeric fields are numbers, and at least one insight
    and one campaign, the second frame [process_insights_data] returns
    holds one row for each action of each insight, in the order of the
    insights and of their actions: the account, the ad and the date of the
    insight, the type of the action and its value as an int. When no
    insight has an action, it is the frame without columns. *)
Theorem process_insights_data_returns_one_row_per_action
    (insights : list Raw.InsightItem) (campaigns : list Raw.CampaignItem) :
  insights <> [] ->
  campaigns <> [] ->
  Forall (fun item => coerces float_of_str item = true) insights ->
  exists df_ads df_actions,
    process_insights_data float_of_str insights campaigns account_id
    = Ok (df_ads, df_actions)
    /\ rows df_actions = action_records account_id insights
    /\ columns df_actions
       = (if decide (action_records account_id insights = [])
          then [] else actions_columns)
    /\ Forall (fun item =>
           Forall (fun action =>
               exists n,
                 int_or_zero (Raw.value action) = Ok n
                 /\ action_record account_id item action
                    = [CStr account_id;
                       of_option (Raw.ad_id item);
                       of_option (Raw.action_type action);
                       CInt n;
                       of_option (Raw.date_start item)])
             (default [] (Raw.actions item)))
         insights.
Proof.
  intros Hins Hcamps Hcoerce.
  destruct (process_insights_data_frames float_of_str account_id insights
              campaigns Hins Hcamps Hcoerce)
    as [adset_data [actions_data [Hitems Hframes]]].
  destruct (process_items_actions insights adset_data actions_data Hitems)
    as [Hrows Hkeys].
  eexists. eexists. split; [exact Hframes |].
  assert (Hframe : from_records CNaN actions_data
                   = {| columns :=
                          if decide (action_records account_id insights = [])
                          then [] else actions_columns;
                        rows := action_records account_id insights |}).
  { rewrite <- Hrows. destruct actions_data as [|d actions_data].
    - reflexivity.
    - rewrite decide_False by discriminate.
      destruct nodup_columns as [_ [Hnd _]].
      apply from_records_uniform; [exact Hnd | discriminate | exact Hkeys]. }
  rewrite Hframe. split; [reflexivity |]. split; [reflexivity |].
  eapply Forall_impl; [exact Hcoerce |]. intros item Hitem. simpl in Hitem.
  unfold coerces in Hitem. rewrite !andb_true_iff in Hitem.
  destruct Hitem as [_ Hall]. rewrite forallb_forall in Hall.
  apply Forall_forall. intros action Hin.
  apply list_elem_of_In in Hin. specialize (Hall action Hin).
  destruct (int_or_zero_ok _ Hall) as [n Hn].
  exists n. split; [exact Hn |].
  unfold action_record, action_info. rewrite Hn. reflexivity.
Qed.

End ProcessMore.

(* ===================================================================== *)
(** * Further properties of [extract_meta_ads_data] and of its task *)
(* ===================================================================== *)

Lemma default_truthy_some (s : string) : default s (truthy (Some s)) = s.
Proof. destruct s; reflexivity. Qed.

(** The two tables of a task have different names. *)
Lemma qualified_actions_ne (schema table_name : string) :
  qualified schema table_name <> qualified schema (table_name +:+ "_actions").
Proof.
  unfold qualified. intros H.
  apply (f_equal String.length) in H.
  rewrite !string_app_length in H. simpl in H. lia.
Qed.

Section ExtractMore.

Variable float_of_str : string -> option string.
Variable api_config : GraphAPIConfig.
Variable today : Z.
Variable db_config : DatabaseConfig.

(** The date column of the ads frame of dated items. *)
Lemma ads_frame_dates (account_id : string)
    (insights : list Raw.InsightItem) (campaigns : list Raw.CampaignItem) :
  let df_ads :=
    {| columns := ads_columns;
       rows := flat_map (fun item =>
                   map (ad_record (candidate float_of_str account_id item))
                     (joined_statuses campaigns item))
                 insights |} in
  insights <> [] ->
  Forall (dated_item float_of_str) insights ->
  exists dates,
    empty df_ads = false
    /\ getitem CNaN "date" df_ads = Ok dates
    /\ one_kind dates.
Proof.
  intros df_ads Hne Hdated.
  exists (map (cell_at CNaN 13) (rows df_ads)).
  split; [| split; [reflexivity |]].
  - unfold df_ads. destruct insights as [|item rest]; [congruence |].
    unfold empty. cbn [rows columns]. rewrite flat_map_cons.
    unfold joined_statuses at 1.
    destruct (filter _ campaigns); reflexivity.
  - apply all_str_intro. apply Forall_map.
    unfold df_ads. cbn [rows]. apply Forall_flat_map.
    eapply Forall_impl; [exact Hdated |]. intros item Hitem. simpl.
    apply Forall_map. apply Forall_forall. intros status _.
    apply (ad_record_date float_of_str). exact Hitem.
Qed.

(** The date column of the actions frame of dated items that have an
    action. *)
Lemma actions_frame_dates (account_id : string)
    (insights : list Raw.InsightItem)
    (adset_data actions_data : list (dict cell)) :
  Forall (dated_item float_of_str) insights ->
  process_items float_of_str account_id insights
  = Ok (adset_data, actions_data) ->
  actions_data <> [] ->
  exists dates,
    empty (from_records CNaN actions_data) = false
    /\ getitem CNaN "date" (from_records CNaN actions_data) = Ok dates
    /\ one_kind dates.
Proof.
  intros Hdated Hitems Hne.
  destruct (process_items_ok float_of_str account_id insights)
    as [ad [ac [Hitems' [_ Hacts]]]].
  { eapply Forall_impl; [exact Hdated |]. intros item [H _]. exact H. }
  assert (ac = actions_data) by congruence. subst ac.
  destruct nodup_columns as [_ [Hnd _]].
  assert (Hframe : from_records CNaN actions_data
                   = {| columns := actions_columns;
                        rows := map (map snd) actions_data |}).
  { apply from_records_uniform; [exact Hnd | exact Hne |].
    eapply Forall_impl; [exact Hacts |]. intros x [Hx _]. exact Hx. }
  rewrite Hframe.
  exists (map (cell_at CNaN 4) (map (map snd) actions_data)).
  split; [| split; [reflexivity |]].
  - destruct actions_data; [congruence | reflexivity].
  - apply all_str_intro. rewrite Forall_map, Forall_map.
    eapply Forall_impl; [exact Hacts |].
    intros x [_ [item [Hin Hcell]]]. simpl.
    rewrite Forall_forall in Hdated.
    destruct (Hdated item Hin) as [_ [s Hs]].
    exists s. rewrite Hcell, Hs. reflexivity.
Qed.

(** The upsert of a frame with rows into a table that does not exist
    raises at the [DELETE], the store being as before. *)
Lemma upsert_missing_table (df : DataFrame cell)
    (table_name date_column : string) (schema : option string) (db : PgStore)
    (dates : list cell) :
  let name :=
    qualified (default (postgres_schema db_config) (truthy schema))
      table_name in
  empty df = false ->
  getitem CNaN date_column df = Ok dates ->
  one_kind dates ->
  db !! name = None ->
  upsert_dataframe db_config df table_name date_column schema db
  = mkEffect db [Deleting name] (Some (ProgrammingError name)).
Proof.
  intros name Hempty Hdates Hk Hnone.
  assert (Hne : dates <> []).
  { unfold getitem in Hdates.
    destruct (column_index date_column (columns df)); [|discriminate].
    inversion Hdates; subst dates. unfold empty in Hempty.
    destruct (rows df); [discriminate | discriminate]. }
  destruct (series_bounds dates Hne Hk) as [lo [hi [Hlo [Hhi _]]]].
  unfold upsert_dataframe. rewrite Hempty.
  unfold date_bounds. rewrite Hdates. simpl. rewrite Hlo, Hhi. simpl.
  fold name. rewrite Hnone. reflexivity.
Qed.

(** [extract_meta_ads_data] leaves every table but its two as it was,
    however it ends. *)
Theorem extract_meta_ads_data_touches_its_two_tables_only
    (account_id access_token table_name actions_table_name : string)
    (schema : option string)
    (insights_script : list (Outcome Raw.InsightItem))
    (campaigns_script : list (Outcome Raw.CampaignItem))
    (db : PgStore) (other : string) :
  let schema_name := default (postgres_schema db_config) (truthy schema) in
  other <> qualified schema_name table_name ->
  other <> qualified schema_name actions_table_name ->
  match extract_meta_ads_data float_of_str api_config today db_config
          account_id access_token table_name actions_table_name schema
          insights_script campaigns_script db with
  | Completed db' | Raised _ db' => db' !! other = db !! other
  | Blocked => True
  end.
Proof.
  intros schema_name Hads Hacts. unfold extract_meta_ads_data.
  destruct (get_insights _ today insights_script) as [fetched unread | ?];
    [| exact I].
  destruct (get_campaigns _ campaigns_script) as [fetched' unread' | ?];
    [| exact I].
  destruct (process_insights_data float_of_str (all_data fetched)
              (all_data fetched') account_id) as [[df_ads df_actions] | e];
    [| reflexivity].
  pose proof (upsert_frame db_config df_ads table_name "date" schema db other
                Hads) as H1.
  set (ads := upsert_dataframe db_config df_ads table_name "date" schema db)
    in *.
  destruct (raised ads); [exact H1 |].
  pose proof (upsert_frame db_config df_actions actions_table_name "date"
                schema (store ads) other Hacts) as H2.
  set (acts := upsert_dataframe db_config df_actions actions_table_name "date"
                 schema (store ads)) in *.
  destruct (raised acts); rewrite H2; exact H1.
Qed.

(** When the processing raises, [extract_meta_ads_data] raises the same
    exception before it has written anything: a [KeyError] when the
    insights listing gave no item, a [ValueError] when a numeric field of
    an item or of one of its actions is not a number. *)
Theorem extract_meta_ads_data_writes_nothing_when_processing_raises
    (account_id access_token table_name actions_table_name : string)
    (schema : option string)
    (insights_script : list (Outcome Raw.InsightItem))
    (campaigns_script : list (Outcome Raw.CampaignItem))
    (db : PgStore)
    (fetched : LoopState Raw.InsightItem)
    (unread : list (Outcome Raw.InsightItem))
    (fetched_campaigns : LoopState Raw.CampaignItem)
    (unread_campaigns : list (Outcome Raw.CampaignItem)) :
  let client := mkClient account_id access_token api_config in
  let run :=
    extract_meta_ads_data float_of_str api_config today db_config
      account_id access_token table_name actions_table_name schema
      insights_script campaigns_script db in
  get_insights client today insights_script = Finished fetched unread ->
  get_campaigns client campaigns_script
  = Finished fetched_campaigns unread_campaigns ->
  (all_data fetched = [] ->
   run = Raised (KeyError (if decide (all_data fetched_campaigns = [])
                           then ["campaign_id"; "campaign_status"]
                           else ["campaign_id"]))
           db)
  /\ (Exists (fun item => coerces float_of_str item = false)
        (all_data fetched) ->
      run = Raised ValueError db).
Proof.
  intros client run Hinsights Hcampaigns.
  unfold run, extract_meta_ads_data. fold client.
  rewrite Hinsights, Hcampaigns. split.
  - intros Hnone. rewrite Hnone.
    unfold process_insights_data. cbn [process_items]. rewrite bind_ok.
    destruct (decide (all_data fetched_campaigns = [])) as [-> | Hne];
      [reflexivity |].
    rewrite (status_frame_of_campaigns account_id _ Hne). reflexivity.
  - intros Hbad.
    pose proof (process_items_cases float_of_str account_id
                  (all_data fetched)) as Hcases.
    unfold process_insights_data.
    destruct (process_items float_of_str account_id (all_data fetched))
      as [[ad ac] | e].
    + exfalso. apply Exists_exists in Hbad. destruct Hbad as [item [Hin Hbad]].
      rewrite Forall_forall in Hcases. specialize (Hcases item Hin).
      congruence.
    + destruct Hcases as [-> _]. reflexivity.
Qed.

(** The two writes of an extraction are not one transaction: when the
    ads table exists and the actions table does not, and an insight has an
    action, the ads rows are written, then the call raises at the
    actions table. *)
Theorem extract_meta_ads_data_keeps_ads_when_actions_fail
    (account_id access_token table_name actions_table_name : string)
    (schema : option string)
    (insights_script : list (Outcome Raw.InsightItem))
    (campaigns_script : list (Outcome Raw.CampaignItem))
    (db : PgStore)
    (fetched : LoopState Raw.InsightItem)
    (unread : list (Outcome Raw.InsightItem))
    (fetched_campaigns : LoopState Raw.CampaignItem)
    (unread_campaigns : list (Outcome Raw.CampaignItem))
    (ads_rows : list (dict cell)) :
  let client := mkClient account_id access_token api_config in
  let schema_name := default (postgres_schema db_config) (truthy schema) in
  get_insights client today insights_script = Finished fetched unread ->
  Forall (dated_item float_of_str) (all_data fetched) ->
  action_records account_id (all_data fetched) <> [] ->
  get_campaigns client campaigns_script
  = Finished fetched_campaigns unread_campaigns ->
  all_data fetched_campaigns <> [] ->
  db !! qualified schema_name table_name = Some ads_rows ->
  db !! qualified schema_name actions_table_name = None ->
  exists df_ads df_actions kept,
    process_insights_data float_of_str (all_data fetched)
      (all_data fetched_campaigns) account_id
    = Ok (df_ads, df_actions)
    /\ rows df_ads <> []
    /\ extract_meta_ads_data float_of_str api_config today db_config
         account_id access_token table_name actions_table_name schema
         insights_script campaigns_script db
       = Raised (ProgrammingError (qualified schema_name actions_table_name))
           (<[qualified schema_name table_name := kept ++ to_records df_ads]>
              db).
Proof.
  intros client schema_name Hinsights Hdated Hactions Hcampaigns Hcne
    Hads Hnone.
  assert (Hne : all_data fetched <> []).
  { intros Hnil. rewrite Hnil in Hactions. apply Hactions. reflexivity. }
  assert (Hcoerce : Forall (fun item => coerces float_of_str item = true)
                      (all_data fetched)).
  { eapply Forall_impl; [exact Hdated |]. intros item [H _]. exact H. }
  destruct (process_insights_data_frames float_of_str account_id
              (all_data fetched) (all_data fetched_campaigns) Hne Hcne Hcoerce)
    as [adset_data [actions_data [Hitems Hframes]]].
  destruct (process_items_actions float_of_str account_id _ _ _ Hitems)
    as [Hrows _].
  assert (Hacts : actions_data <> []).
  { intros Hnil. rewrite Hnil in Hrows. simpl in Hrows. congruence. }
  destruct (ads_frame_dates account_id (all_data fetched)
              (all_data fetched_campaigns) Hne Hdated)
    as [dates [Hempty [Hdates Hkind]]].
  destruct (upsert_effect db_config _ table_name "date" schema db dates
              ads_rows Hempty Hdates Hkind Hads)
    as [lo [hi [_ [_ [_ Hupsert]]]]].
  destruct (actions_frame_dates account_id (all_data fetched) adset_data
              actions_data Hdated Hitems Hacts)
    as [dates' [Hempty' [Hdates' Hkind']]].
  fold schema_name in Hupsert.
  match type of Hupsert with
  | _ = mkEffect ?s _ _ => set (db1 := s) in *
  end.
  assert (Hnone1 : db1 !! qualified schema_name actions_table_name = None).
  { unfold db1. rewrite lookup_insert_ne; [exact Hnone |]. congruence. }
  pose proof (upsert_missing_table _ actions_table_name "date" schema db1
                dates' Hempty' Hdates' Hkind' Hnone1) as Hupsert2.
  eexists. eexists. eexists. split; [exact Hframes |]. split.
  - cbn [rows]. destruct (all_data fetched) as [|item rest]; [congruence |].
    rewrite flat_map_cons. unfold joined_statuses at 1.
    destruct (filter _ (all_data fetched_campaigns)); discriminate.
  - unfold extract_meta_ads_data. fold client.
    rewrite Hinsights, Hcampaigns, Hframes. cbv zeta.
    rewrite Hupsert. cbn [raised store]. rewrite Hupsert2. reflexivity.
Qed.

(** Running the task of an account a second time against the same
    answers of the API changes nothing: for dated insights, at least one
    of them and one campaign, and two tables that exist, both runs
    complete and the second leaves the store exactly as the first left
    it. *)
Theorem extract_account_data_is_idempotent
    (account_id token table_name : string)
    (insights_script : list (Outcome Raw.InsightItem))
    (campaigns_script : list (Outcome Raw.CampaignItem))
    (db : PgStore)
    (fetched : LoopState Raw.InsightItem)
    (unread : list (Outcome Raw.InsightItem))
    (fetched_campaigns : LoopState Raw.CampaignItem)
    (unread_campaigns : list (Outcome Raw.CampaignItem))
    (ads_rows actions_rows : list (dict cell)) :
  let client := mkClient account_id token api_config in
  let schema_name := postgres_schema db_config in
  let task :=
    Dag.extract_account_data float_of_str api_config today db_config
      account_id token table_name insights_script campaigns_script in
  get_insights client today insights_script = Finished fetched unread ->
  all_data fetched <> [] ->
  Forall (dated_item float_of_str) (all_data fetched) ->
  get_campaigns client campaigns_script
  = Finished fetched_campaigns unread_campaigns ->
  all_data fetched_campaigns <> [] ->
  db !! qualified schema_name table_name = Some ads_rows ->
  db !! qualified schema_name (table_name +:+ "_actions") = Some actions_rows ->
  exists db',
    task db = Completed db' /\ task db' = Completed db'.
Proof.
  intros client schema_name task Hinsights Hne Hdated Hcampaigns Hcne
    Hads Hacts.
  set (schema := Some (postgres_schema db_config)).
  assert (Hschema : default (postgres_schema db_config) (truthy schema)
                    = schema_name) by apply default_truthy_some.
  assert (Hcoerce : Forall (fun item => coerces float_of_str item = true)
                      (all_data fetched)).
  { eapply Forall_impl; [exact Hdated |]. intros item [H _]. exact H. }
  destruct (process_insights_data_frames float_of_str account_id
              (all_data fetched) (all_data fetched_campaigns) Hne Hcne Hcoerce)
    as [adset_data [actions_data [Hitems Hframes]]].
  destruct (ads_frame_dates account_id (all_data fetched)
              (all_data fetched_campaigns) Hne Hdated)
    as [dates [Hempty [Hdates Hkind]]].
  set (df_ads := {| columns := ads_columns; rows := _ |}) in *.
  set (df_actions := from_records CNaN actions_data) in *.
  set (actions_table := table_name +:+ "_actions") in *.
  rewrite <- Hschema in Hads, Hacts.
  (* the first run *)
  set (ads := upsert_dataframe db_config df_ads table_name "date" schema db).
  set (acts := upsert_dataframe db_config df_actions actions_table "date"
                 schema (store ads)).
  assert (Hdiff : qualified (default (postgres_schema db_config)
                               (truthy schema)) actions_table
                  <> qualified (default (postgres_schema db_config)
                                  (truthy schema)) table_name).
  { intros H. symmetry in H. exact (qualified_actions_ne _ _ H). }
  assert (Hads_only : store ads
                      !! qualified (default (postgres_schema db_config)
                                      (truthy schema)) actions_table
                      = Some actions_rows).
  { unfold ads. rewrite upsert_frame by exact Hdiff. exact Hacts. }
  assert (Hacts_only : store acts
                       !! qualified (default (postgres_schema db_config)
                                       (truthy schema)) table_name
                       = store ads
                         !! qualified (default (postgres_schema db_config)
                                         (truthy schema)) table_name).
  { unfold acts. apply upsert_frame. congruence. }
  destruct (upsert_again db_config df_ads table_name "date" schema db
              (store acts) dates ads_rows Hempty Hdates Hkind Hads Hacts_only)
    as [Hraised1 Hagain1].
  fold ads in Hraised1, Hagain1.
  assert (Hsecond : raised acts = None
                    /\ upsert_dataframe db_config df_actions actions_table
                         "date" schema (store acts)
                       = mkEffect (store acts) (log acts) None).
  { destruct (decide (actions_data = [])) as [Hnil | Hsome].
    - unfold acts, df_actions. rewrite Hnil. split; reflexivity.
    - destruct (actions_frame_dates account_id (all_data fetched) adset_data
                  actions_data Hdated Hitems Hsome)
        as [dates' [Hempty' [Hdates' Hkind']]].
      apply (upsert_again db_config df_actions actions_table "date" schema
               (store ads) (store acts) dates' actions_rows
               Hempty' Hdates' Hkind' Hads_only eq_refl). }
  destruct Hsecond as [Hraised2 Hagain2].
  assert (Hrun : forall store0 : PgStore,
            task store0
            = let ads0 :=
                upsert_dataframe db_config df_ads table_name "date" schema
                  store0 in
              match raised ads0 with
              | Some e => Raised e (store ads0)
              | None =>
                  let acts0 :=
                    upsert_dataframe db_config df_actions actions_table
                      "date" schema (store ads0) in
                  match raised acts0 with
                  | Some e => Raised e (store acts0)
                  | None => Completed (store acts0)
                  end
              end).
  { intros store0. unfold task, Dag.extract_account_data,
      extract_meta_ads_data. fold client.
    rewrite Hinsights, Hcampaigns, Hframes. reflexivity. }
  exists (store acts). split.
  - rewrite Hrun. cbv zeta. fold ads. rewrite Hraised1. fold acts.
    rewrite Hraised2. reflexivity.
  - rewrite Hrun. cbv zeta. rewrite Hagain1. cbn [raised store].
    rewrite Hagain2. reflexivity.
Qed.

End ExtractMore.

(* ===================================================================== *)
(** * Further properties of [sync_postgres_to_sqlserver] *)
(* ===================================================================== *)

(** Every chunk of a positive size holds at most that many rows. *)
Lemma split_rows_sizes {C : Type} (fuel n : nat) (l : list (list C)) :
  Forall (fun part => (length part <= n)%nat) (split_rows fuel n l).
Proof.
  revert l. induction fuel as [|fuel IH]; intros l; [constructor |].
  destruct l as [|row l]; [constructor |].
  change (split_rows (S fuel) n (row :: l))
    with (take n (row :: l) :: split_rows fuel n (drop n (row :: l))).
  constructor; [| apply IH]. rewrite length_take. lia.
Qed.

(** For a positive chunk size, the chunks hold the rows of the frame in
    order, each chunk with the columns of the frame, at least one row and
    at most [chunksize] rows. *)
Theorem chunks_hold_at_most_chunksize_rows (df : DataFrame sqlvalue)
    (chunksize : Z) :
  0 < chunksize ->
  exists chunks,
    chunks_of df chunksize = Ok chunks
    /\ concat (map rows chunks) = rows df
    /\ Forall (fun chunk =>
           columns chunk = columns df
           /\ rows chunk <> []
           /\ Z.of_nat (length (rows chunk)) <= chunksize)
         chunks.
Proof.
  intros Hpos. unfold chunks_of.
  destruct (chunksize =? 0) eqn:E0; [apply Z.eqb_eq in E0; lia |].
  destruct (chunksize <? 0) eqn:E1; [apply Z.ltb_lt in E1; lia |].
  eexists. split; [reflexivity |].
  assert (Hn : (0 < Z.to_nat chunksize)%nat) by lia.
  destruct (split_rows_concat (len df) (Z.to_nat chunksize) (rows df) Hn
              (le_n _)) as [Hc Hf].
  pose proof (split_rows_sizes (len df) (Z.to_nat chunksize) (rows df))
    as Hsizes.
  split.
  - rewrite map_map. simpl. rewrite map_id. exact Hc.
  - apply Forall_map. rewrite Forall_forall in Hf, Hsizes |- *.
    intros part Hpart. specialize (Hf part Hpart).
    specialize (Hsizes part Hpart). simpl.
    split; [reflexivity |]. split; [exact Hf | lia].
Qed.

Section SyncMore.

Variable config : DatabaseConfig.
Variable today_at_read today_at_delete : Z.
Variable fails : nat -> bool.
Variable order : list nat.

Variable view : DataFrame sqlvalue.
Variable view_name target_table date_column : string.
Variable days : Z.
Variable source_schema target_schema : option string.
Variable chunksize max_threads : Z.
Variable db : SqlStore.

Let source : string :=
  qualified (default (postgres_schema config) (truthy source_schema)) view_name.
Let target : string :=
  qualified (default (sqlserver_schema config) (truthy target_schema))
    target_table.
Let start_date : Z := today_at_read - days.
Let run : Effect SqlStore :=
  sync_postgres_to_sqlserver config today_at_read today_at_delete fails order
    view view_name target_table date_column days source_schema target_schema
    chunksize max_threads db.

(** The rows of the target the [DELETE] of line 186 leaves. *)
Let kept (t : Table) : list (dict sqlvalue) :=
  filter (fun r => negb (in_window date_column start_date today_at_delete r))
    (table_rows t).

(** [sync_postgres_to_sqlserver] leaves every table but its target as it
    was, and the column list of the target too, however it ends. *)
Lemma sync_frame (other : string) :
  other <> target -> store run !! other = db !! other.
Proof.
  intros Hother. unfold run, sync_postgres_to_sqlserver.
  fold source target start_date.
  destruct (read_sql view source date_column start_date) as [df | e];
    [| reflexivity].
  destruct (empty df); [reflexivity |].
  destruct (coerce_date_column date_column (_preprocess_dataframe df))
    as [df1 | e]; [| reflexivity].
  destruct (getitem_list SqlNull _ df1) as [df2 | e]; [| reflexivity].
  destruct (db !! target) as [t |]; [| reflexivity].
  destruct (negb (mem date_column (table_columns t))); [reflexivity |].
  destruct (chunks_of df2 chunksize) as [chunks | e];
    [| simpl; apply lookup_insert_ne; congruence].
  destruct (max_threads <=? 0);
    [simpl; apply lookup_insert_ne; congruence |].
  destruct (executor_map fails order chunks _) as [stored errors].
  simpl. apply lookup_insert_ne. congruence.
Qed.

(** When the view has no row on or after the start date, the method
    returns after the read: nothing is deleted from the target, whose
    rows of the window stay, and the target need not even exist. *)
Theorem sync_leaves_target_alone_when_nothing_is_read (i : nat) :
  column_index date_column (columns view) = Some i ->
  Forall (fun row =>
      on_or_after start_date (cell_at SqlNull i row) = Ok false)
    (rows view) ->
  run = mkEffect db
          [SyncStarting source target; ReadRecords 0 source;
           NoDataFound view_name]
          None.
Proof.
  intros Hi Hrows. unfold run, sync_postgres_to_sqlserver.
  fold source target start_date.
  assert (Hread : read_sql view source date_column start_date
                  = Ok {| columns := columns view; rows := [] |}).
  { unfold read_sql. rewrite Hi.
    rewrite (filter_result_ok _ (fun _ => false)) by exact Hrows.
    rewrite filter_none; [reflexivity |].
    apply Forall_forall. reflexivity. }
  rewrite Hread. reflexivity.
Qed.

(** The run of the method on rows that were read: the rows of the window
    are deleted before the chunks are cut and the pool is made. *)
Lemma sync_after_delete (i : nat) (t : Table) :
  column_index date_column (columns view) = Some i ->
  Forall (fun row => is_dated (cell_at SqlNull i row) = true) (rows view) ->
  db !! target = Some t ->
  mem date_column (table_columns t) = true ->
  exists selected df,
    read_sql view source date_column start_date
    = Ok {| columns := columns view; rows := selected |}
    /\ frame_to_write view source date_column start_date (table_columns t)
       = Ok df
    /\ length (rows df) = length selected
    /\ (selected <> [] ->
        let deleted := <[target := mkTable (table_columns t) (kept t)]> db in
        let log2 :=
          [SyncStarting source target; ReadRecords (length selected) source;
           DeletedData target start_date today_at_delete] in
        run
        = match chunks_of df chunksize with
          | Raise e => mkEffect deleted log2 (Some e)
          | Ok chunks =>
              if max_threads <=? 0 then mkEffect deleted log2 (Some ValueError)
              else
                mkEffect
                  (<[target := mkTable (table_columns t)
                                 (kept t ++ written_rows fails order chunks)]>
                     db)
                  (log2 ++ chunk_errors fails order chunks
                   ++ [Inserted (len df) target])
                  None
          end).
Proof.
  intros Hi Hdated Ht Hmem.
  destruct (frame_to_write_ok view source date_column start_date
              (table_columns t) i Hi Hdated)
    as [selected [prepared [Hread [Hprep [Hlen Hframe]]]]].
  eexists. eexists. split; [exact Hread |]. split; [exact Hframe |].
  split; [cbn [rows]; rewrite length_map; exact Hlen |].
  intros Hsel deleted log2.
  unfold run, sync_postgres_to_sqlserver.
  fold source target start_date. rewrite Hread.
  destruct selected as [|row selected]; [congruence |].
  assert (Hempty : empty {| columns := columns view;
                            rows := row :: selected |} = false).
  { unfold empty. simpl. destruct (columns view); [discriminate | reflexivity]. }
  rewrite Hempty.
  unfold prepared_frame in Hprep. rewrite Hread in Hprep.
  change (coerce_date_column date_column
            (_preprocess_dataframe
               {| columns := columns view; rows := row :: selected |})
          = Ok {| columns := columns view; rows := prepared |}) in Hprep.
  rewrite Hprep.
  unfold _get_sqlserver_columns. fold target. rewrite Ht.
  cbn [columns].
  rewrite (getitem_common_columns {| columns := columns view;
                                     rows := prepared |}).
  cbn [columns rows]. rewrite Hmem. simpl negb. cbv iota.
  fold (kept t). fold deleted.
  destruct (chunks_of _ chunksize) as [chunks | e]; [| reflexivity].
  destruct (max_threads <=? 0); [reflexivity |].
  rewrite executor_map_spec. reflexivity.
Qed.

(** The method deletes before it checks how to insert. For rows that were
    read and a target that has the date column: with a chunk size of 0,
    or a pool of no thread, it raises [ValueError] after the rows of the
    window are gone; with a negative chunk size it cuts no chunk, inserts
    nothing, returns normally and prints that it inserted every row. *)
Theorem sync_deletes_window_before_chunking (i : nat) (t : Table)
    (row : list sqlvalue) :
  column_index date_column (columns view) = Some i ->
  Forall (fun row => is_dated (cell_at SqlNull i row) = true) (rows view) ->
  row ∈ rows view ->
  on_or_after start_date (cell_at SqlNull i row) = Ok true ->
  db !! target = Some t ->
  mem date_column (table_columns t) = true ->
  let deleted := <[target := mkTable (table_columns t) (kept t)]> db in
  (chunksize = 0 \/ (0 < chunksize /\ max_threads <= 0) ->
   raised run = Some ValueError /\ store run = deleted)
  /\ (chunksize < 0 -> 0 < max_threads ->
      exists count,
        (0 < count)%nat
        /\ raised run = None
        /\ store run = deleted
        /\ last (log run) = Some (Inserted count target)).
Proof.
  intros Hi Hdated Hrow Hkeep Ht Hmem deleted.
  destruct (sync_after_delete i t Hi Hdated Ht Hmem)
    as [selected [df [Hread [Hframe [Hlen Hrun]]]]].
  assert (Hsel : selected <> []).
  { unfold read_sql in Hread. rewrite Hi in Hread.
    intros Hnil. subst selected.
    assert (Hall : forall l : list (list sqlvalue),
              row ∈ l ->
              filter_result
                (fun r => on_or_after start_date (cell_at SqlNull i r)) l
              <> Ok []).
    { clear -Hkeep. induction l as [|r l IH]; intros Hin; [inversion Hin |].
      simpl. inversion Hin; subst.
      - rewrite Hkeep. simpl.
        destruct (filter_result _ l); simpl; discriminate.
      - destruct (on_or_after start_date (cell_at SqlNull i r)) as [b|];
          simpl; [| discriminate].
        specialize (IH H1).
        destruct (filter_result _ l) as [rest|]; simpl; [| discriminate].
        destruct b; [discriminate |]. intros H. apply IH. exact H. }
    apply (Hall (rows view) Hrow).
    destruct (filter_result _ (rows view)); simpl in Hread; [| discriminate].
    inversion Hread. reflexivity. }
  specialize (Hrun Hsel). cbv zeta in Hrun. fold deleted in Hrun.
  split.
  - intros [Hzero | [Hpos Hthreads]].
    + subst chunksize. rewrite Hrun. split; reflexivity.
    + destruct (chunks_of_spec df chunksize Hpos) as [chunks [Hchunks _]].
      rewrite Hrun, Hchunks.
      destruct (max_threads <=? 0) eqn:E; [split; reflexivity |].
      apply Z.leb_gt in E. lia.
  - intros Hneg Hthreads. exists (len df).
    assert (Hchunks : chunks_of df chunksize = Ok []).
    { unfold chunks_of.
      destruct (chunksize =? 0) eqn:E0; [apply Z.eqb_eq in E0; lia |].
      destruct (chunksize <? 0) eqn:E1; [reflexivity |].
      apply Z.ltb_ge in E1. lia. }
    assert (Hnone : written_rows fails order [] = []
                    /\ chunk_errors fails order [] = []).
    { unfold written_rows, chunk_errors. clear.
      induction order as [|k l [IH1 IH2]]; [split; reflexivity |].
      simpl. split; assumption. }
    destruct Hnone as [Hw He].
    rewrite Hrun, Hchunks.
    destruct (max_threads <=? 0) eqn:E; [apply Z.leb_le in E; lia |].
    rewrite Hw, He, app_nil_r. cbn [raised store log].
    split; [unfold len; rewrite Hlen; destruct selected;
            [congruence | simpl; lia] |].
    split; [reflexivity |]. split; [reflexivity |].
    simpl. reflexivity.
Qed.

End SyncMore.

(** ** [_preprocess_dataframe] *)

Lemma cell_at_serialised_upto (k : nat) (row : list sqlvalue) :
  cell_at SqlNull k (serialised_upto k row) = cell_at SqlNull k row.
Proof.
  unfold cell_at, serialised_upto. rewrite !nth_lookup.
  destruct (Nat.le_gt_cases k (length row)) as [Hin | Hout].
  - rewrite lookup_app_r by (rewrite length_map, length_take; lia).
    rewrite length_map, length_take, lookup_drop. f_equal. f_equal. lia.
  - rewrite take_ge, drop_ge by lia. rewrite app_nil_r.
    rewrite !lookup_ge_None_2; [reflexivity | lia |].
    rewrite length_map. lia.
Qed.

Lemma alter_out_of_range {A : Type} (f : A -> A) (k : nat) (l : list A) :
  (length l <= k)%nat -> alter f k l = l.
Proof.
  revert k. induction l as [|x l IH]; intros k Hk; [reflexivity |].
  destruct k as [|k]; [simpl in Hk; lia |].
  simpl. f_equal. apply IH. simpl in Hk. lia.
Qed.

Lemma alter_serialised_upto (k : nat) (row : list sqlvalue) :
  alter dumps_if_structured k (serialised_upto k row)
  = serialised_upto (S k) row.
Proof.
  unfold serialised_upto.
  destruct (row !! k) as [x|] eqn:Ex.
  - pose proof (lookup_lt_Some _ _ _ Ex) as Hlt.
    rewrite (take_S_r _ _ _ Ex), (drop_S _ _ _ Ex), List.map_app.
    simpl. rewrite <- app_assoc. simpl.
    replace k with (length (map dumps_if_structured (take k row)) + 0)%nat
      at 1 by (rewrite length_map, length_take; lia).
    rewrite alter_app_r. reflexivity.
  - apply lookup_ge_None in Ex.
    rewrite !take_ge, !drop_ge by lia. rewrite app_nil_r.
    apply alter_out_of_range. rewrite length_map. lia.
Qed.

Lemma serialised_upto_same (k : nat) (row : list sqlvalue) :
  is_structured (cell_at SqlNull k row) = false ->
  serialised_upto (S k) row = serialised_upto k row.
Proof.
  unfold serialised_upto, cell_at. rewrite nth_lookup.
  destruct (row !! k) as [x|] eqn:Ex; simpl.
  - intros Hx. rewrite (take_S_r _ _ _ Ex), (drop_S _ _ _ Ex), List.map_app.
    rewrite <- app_assoc. simpl.
    destruct x; try reflexivity. discriminate.
  - intros _. apply lookup_ge_None in Ex.
    rewrite !take_ge, !drop_ge by lia. reflexivity.
Qed.

(** The loop over the columns, after the first [k] of them. *)
Lemma preprocess_upto (k : nat) (df : DataFrame sqlvalue) :
  fold_left (fun (acc : DataFrame sqlvalue) (i : nat) =>
      if existsb is_structured (map (cell_at SqlNull i) (rows acc))
      then apply_column dumps_if_structured i acc
      else acc)
    (seq 0 k) df
  = {| columns := columns df; rows := map (serialised_upto k) (rows df) |}.
Proof.
  induction k as [|k IH].
  - simpl. destruct df as [cols rs]. simpl. f_equal.
    rewrite <- (map_id rs) at 1. apply map_ext. intros row.
    unfold serialised_upto. rewrite take_0, drop_0. reflexivity.
  - rewrite seq_S, fold_left_app, IH. simpl.
    destruct (existsb is_structured
                (map (cell_at SqlNull k) (map (serialised_upto k) (rows df))))
      eqn:E.
    + unfold apply_column. simpl. f_equal. rewrite map_map.
      apply map_ext. intros row. apply alter_serialised_upto.
    + f_equal. apply map_ext_in. intros row Hrow.
      symmetry. apply serialised_upto_same.
      rewrite <- cell_at_serialised_upto.
      destruct (is_structured (cell_at SqlNull k (serialised_upto k row)))
        eqn:Ek; [| reflexivity].
      rewrite <- E. symmetry. apply existsb_exists.
      exists (cell_at SqlNull k (serialised_upto k row)).
      split; [| exact Ek]. apply in_map, in_map. exact Hrow.
Qed.

(** On a frame whose rows hold one cell for each column,
    [_preprocess_dataframe] keeps the columns and replaces every dict or
    list, and nothing else, by its [json.dumps] text: no structured cell
    is left, and preprocessing again changes nothing. *)
Theorem preprocess_dataframe_serialises_structured_cells
    (df : DataFrame sqlvalue) :
  rectangular df ->
  _preprocess_dataframe df
  = {| columns := columns df;
       rows := map (map dumps_if_structured) (rows df) |}
  /\ Forall (Forall (fun v => is_structured v = false))
       (rows (_preprocess_dataframe df))
  /\ _preprocess_dataframe (_preprocess_dataframe df)
     = _preprocess_dataframe df.
Proof.
  assert (Heq : forall frame : DataFrame sqlvalue,
            rectangular frame ->
            _preprocess_dataframe frame
            = {| columns := columns frame;
                 rows := map (map dumps_if_structured) (rows frame) |}).
  { intros frame Hrect. unfold _preprocess_dataframe.
    rewrite preprocess_upto. f_equal. apply map_ext_in. intros row Hrow.
    unfold rectangular in Hrect. rewrite Forall_forall in Hrect.
    apply list_elem_of_In in Hrow. specialize (Hrect row Hrow).
    unfold serialised_upto. rewrite take_ge, drop_ge by lia.
    apply app_nil_r. }
  intros Hrect. rewrite (Heq df Hrect). split; [reflexivity |]. split.
  - cbn [rows]. apply Forall_map. apply Forall_forall. intros row _.
    apply Forall_map. apply Forall_forall. intros v _. simpl.
    destruct v; reflexivity.
  - rewrite Heq.
    + cbn [columns rows]. f_equal. rewrite map_map. apply map_ext.
      intros row. rewrite map_map. apply map_ext. intros v.
      destruct v; reflexivity.
    + unfold rectangular in *. cbn [columns rows]. apply Forall_map.
      eapply Forall_impl; [exact Hrect |]. intros row Hrow. simpl.
      rewrite length_map. exact Hrow.
Qed.

(** ** A second synchronisation *)

(** The serialisation of the structured cells keeps what holds of the
    cells of a column and is not lost by serialising. *)
Lemma preprocess_keeps (Q : sqlvalue -> Prop) (df : DataFrame sqlvalue)
    (i : nat) :
  (forall v, Q v -> Q (dumps_if_structured v)) ->
  Forall (fun row => Q (cell_at SqlNull i row)) (rows df) ->
  Forall (fun row => Q (cell_at SqlNull i row))
    (rows (_preprocess_dataframe df)).
Proof.
  intros HQ. unfold _preprocess_dataframe.
  generalize (seq 0 (length (columns df))). intros js.
  revert df. induction js as [|j js IH]; intros df Hall; [exact Hall |].
  simpl. apply IH.
  destruct (existsb is_structured (map (cell_at SqlNull j) (rows df)));
    [| exact Hall].
  simpl. apply Forall_map. eapply Forall_impl; [exact Hall |].
  intros row Hrow. simpl in Hrow |- *.
  destruct (cell_at_alter dumps_if_structured i j row) as [-> | ->];
    [exact Hrow | apply HQ; exact Hrow].
Qed.

Lemma map_result_Forall2 {A B : Type} (f : A -> result B) (l : list A)
    (l' : list B) :
  map_result f l = Ok l' -> Forall2 (fun a b => f a = Ok b) l l'.
Proof.
  revert l'. induction l as [|a l IH]; intros l'; simpl.
  - intros H. inversion H. constructor.
  - destruct (f a) as [b|] eqn:Ea; simpl; [| discriminate].
    destruct (map_result f l) as [bs|]; simpl; [| discriminate].
    intros H. inversion H; subst. constructor; [exact Ea | apply IH].
    reflexivity.
Qed.

Lemma filter_result_kept {A : Type} (p : A -> result bool) (l l' : list A) :
  filter_result p l = Ok l' -> Forall (fun a => a ∈ l /\ p a = Ok true) l'.
Proof.
  revert l'. induction l as [|a l IH]; intros l'; simpl.
  - intros H. inversion H. constructor.
  - destruct (p a) as [b|] eqn:Ea; simpl; [| discriminate].
    destruct (filter_result p l) as [rest|]; simpl; [| discriminate].
    intros H. inversion H; subst.
    assert (Hrest : Forall (fun x => x ∈ a :: l /\ p x = Ok true) rest).
    { eapply Forall_impl; [apply IH; reflexivity |].
      intros x [Hx Hp]. split; [right; exact Hx | exact Hp]. }
    destruct b; [| exact Hrest].
    constructor; [| exact Hrest]. split; [left | exact Ea].
Qed.

(** The date cell of every prepared row is a date on or after the start
    date, and has what holds of the days of the view. *)
Lemma prepared_dates (P : Z -> Prop) (view : DataFrame sqlvalue)
    (source date_column : string) (start_date : Z) (i : nat)
    (prepared : list (list sqlvalue)) :
  column_index date_column (columns view) = Some i ->
  Forall (fun row =>
      forall d, day_of (cell_at SqlNull i row) = Some d -> P d)
    (rows view) ->
  prepared_frame view source date_column start_date
  = Ok {| columns := columns view; rows := prepared |} ->
  Forall (fun row =>
      exists d, cell_at SqlNull i row = SqlDate d /\ start_date <= d /\ P d)
    prepared.
Proof.
  intros Hi HP. unfold prepared_frame, read_sql. rewrite Hi.
  destruct (filter_result _ (rows view)) as [selected|] eqn:Esel;
    simpl; [| discriminate].
  set (Q := fun v : sqlvalue =>
         exists d, day_of v = Some d /\ start_date <= d /\ P d).
  assert (Hsel : Forall (fun row => Q (cell_at SqlNull i row)) selected).
  { eapply Forall_impl; [exact (filter_result_kept _ _ _ Esel) |].
    intros row [Hin Hkeep]. simpl in Hkeep.
    rewrite Forall_forall in HP. specialize (HP row Hin).
    unfold Q. destruct (cell_at SqlNull i row); try discriminate;
      simpl in Hkeep; inversion Hkeep as [Hle]; apply Z.leb_le in Hle;
      eexists; (split; [reflexivity |]); split; auto. }
  pose proof (preprocess_keeps Q {| columns := columns view; rows := selected |}
                i) as Hpre.
  cbn [rows] in Hpre.
  assert (Hpre' : Forall (fun row => Q (cell_at SqlNull i row))
                    (rows (_preprocess_dataframe
                             {| columns := columns view; rows := selected |}))).
  { apply Hpre; [| exact Hsel].
    intros v [d [Hd Hrest]]. exists d. split; [| exact Hrest].
    destruct v; try discriminate; exact Hd. }
  unfold coerce_date_column.
  destruct (column_index date_column
              (columns (_preprocess_dataframe
                          {| columns := columns view; rows := selected |})))
    as [j|] eqn:Ej; [| discriminate].
  assert (j = i).
  { assert (Hcols : columns (_preprocess_dataframe
                               {| columns := columns view; rows := selected |})
                    = columns view).
    { unfold _preprocess_dataframe. rewrite preprocess_upto. reflexivity. }
    rewrite Hcols in Ej. congruence. }
  subst j.
  destruct (map_result _ _) as [coerced|] eqn:Eco; simpl; [| discriminate].
  intros H. inversion H; subst coerced. clear H.
  apply map_result_Forall2 in Eco.
  revert Eco Hpre'. generalize (rows (_preprocess_dataframe
                                    {| columns := columns view;
                                       rows := selected |})).
  intros before Eco Hbefore.
  induction Eco as [|row row' rest rest' Hrow _ IH]; [constructor |].
  inversion Hbefore as [|? ? [d [Hd Hrest]] Hbefore']; subst.
  constructor; [| apply IH; exact Hbefore'].
  exists d. split; [| exact Hrest].
  assert (Hlt : (i < length row)%nat).
  { apply (nth_inside i row SqlNull). unfold cell_at in Hd.
    destruct (nth i row SqlNull); discriminate. }
  assert (Hto : to_date (cell_at SqlNull i row) = Ok (SqlDate d)).
  { destruct (cell_at SqlNull i row); try discriminate;
      simpl in Hd; inversion Hd; reflexivity. }
  rewrite Hto in Hrow. simpl in Hrow. inversion Hrow; subst row'.
  unfold cell_at. rewrite nth_lookup, list_lookup_insert_eq by exact Hlt.
  reflexivity.
Qed.

Section SyncTwice.

Variable config : DatabaseConfig.
Variable today_at_read today_at_delete : Z.
(** Which inserts fail and in which order the pool commits, in the first
    and in the second run. *)
Variable fails1 fails2 : nat -> bool.
Variable order1 order2 : list nat.

Variable view : DataFrame sqlvalue.
Variable view_name target_table date_column : string.
Variable days : Z.
Variable source_schema target_schema : option string.
Variable chunksize max_threads : Z.
Variable db : SqlStore.

Let source : string :=
  qualified (default (postgres_schema config) (truthy source_schema)) view_name.
Let target : string :=
  qualified (default (sqlserver_schema config) (truthy target_schema))
    target_table.
Let start_date : Z := today_at_read - days.
Let once : Effect SqlStore :=
  sync_postgres_to_sqlserver config today_at_read today_at_delete fails1 order1
    view view_name target_table date_column days source_schema target_schema
    chunksize max_threads db.
Let twice : Effect SqlStore :=
  sync_postgres_to_sqlserver config today_at_read today_at_delete fails2 order2
    view view_name target_table date_column days source_schema target_schema
    chunksize max_threads (store once).

(** A second synchronisation of the same view on the same day, when no
    insert fails and the pool runs every chunk: neither run raises. When
    no row of the view is dated after the day of the run, the second run
    leaves in the target the rows the first left, up to their order: the
    method can be run again. When the rows of the view are dated after
    that day, the [DELETE] of the second run does not reach the rows the
    first run wrote, and the target holds every row twice. *)
Theorem sync_again_replaces_only_the_window (i : nat) (t : Table)
    (df : DataFrame sqlvalue) (chunks : list (DataFrame sqlvalue)) :
  column_index date_column (columns view) = Some i ->
  Forall (fun row => is_dated (cell_at SqlNull i row) = true) (rows view) ->
  db !! target = Some t ->
  mem date_column (table_columns t) = true ->
  0 < chunksize ->
  0 < max_threads ->
  frame_to_write view source date_column start_date (table_columns t)
  = Ok df ->
  chunks_of df chunksize = Ok chunks ->
  order1 ≡ₚ seq 0 (length chunks) ->
  order2 ≡ₚ seq 0 (length chunks) ->
  (forall k, fails1 k = false) ->
  (forall k, fails2 k = false) ->
  raised once = None
  /\ raised twice = None
  /\ exists rows1 rows2,
       store once !! target = Some (mkTable (table_columns t) rows1)
       /\ store twice !! target = Some (mkTable (table_columns t) rows2)
       /\ (Forall (fun row =>
               forall d, day_of (cell_at SqlNull i row) = Some d ->
                         d <= today_at_delete)
             (rows view) ->
           rows2 ≡ₚ rows1)
       /\ (Forall (fun row =>
               forall d, day_of (cell_at SqlNull i row) = Some d ->
                         today_at_delete < d)
             (rows view) ->
           rows2 ≡ₚ rows1 ++ to_records df).
Proof.
  intros Hi Hdated Ht Hmem Hchunk Hthreads Hdf Hchunks Ho1 Ho2 Hf1 Hf2.
  destruct (sync_effect config today_at_read today_at_delete fails1 order1
              view view_name target_table date_column days source_schema
              target_schema chunksize max_threads db i t
              Hi Hdated Ht Hmem Hchunk Hthreads)
    as [selected [prepared [df1 [chunks1 [Hread [Hprep [Hlen [Hframe [Hdf1
         [Hchunks1 [Hcat [Hne [Hraised [Hnone Hsome]]]]]]]]]]]]]].
  fold source target start_date once in Hread, Hprep, Hframe, Hraised, Hnone,
    Hsome.
  assert (Edf : df1 = df) by congruence.
  rewrite Edf in Hdf1, Hchunks1, Hcat, Hne. clear Edf Hframe.
  assert (Echunks : chunks1 = chunks) by congruence.
  rewrite Echunks in Hcat, Hne, Hsome. clear Echunks Hchunks1.
  (* the rows written are dated in the way the rows of the view are *)
  assert (Hwritten : forall P : Z -> Prop,
            Forall (fun row =>
                forall d, day_of (cell_at SqlNull i row) = Some d -> P d)
              (rows view) ->
            Forall (fun r =>
                exists d, dict_get date_column r = Some (SqlDate d)
                          /\ start_date <= d /\ P d)
              (to_records df)).
  { intros P HP.
    pose proof (prepared_dates P view source date_column start_date i prepared
                  Hi HP Hprep) as Hdates.
    rewrite Hdf1. unfold to_records. cbn [columns rows].
    rewrite Forall_map, Forall_map.
    eapply Forall_impl; [exact Hdates |]. intros row [d [Hd Hrest]]. simpl.
    exists d. split; [| exact Hrest].
    rewrite dict_get_project.
    - rewrite Hi. simpl. rewrite Hd. reflexivity.
    - apply common_columns_spec. split.
      + apply list_elem_of_In. clear -Hi.
        revert i Hi. induction (columns view) as [|c cols IH]; intros i Hi;
          [discriminate |].
        simpl in Hi. destruct (String.eqb c date_column) eqn:E.
        * apply String.eqb_eq in E. left. exact E.
        * destruct (column_index date_column cols) as [j|]; [| discriminate].
          right. apply (IH j). reflexivity.
      + apply mem_elem_of. exact Hmem. }
  destruct (written_rows_permutation fails1 order1 df chunks Hcat Hne Ho1)
    as [_ [_ Hw1]].
  specialize (Hw1 (fun k _ => Hf1 k)).
  destruct (written_rows_permutation fails2 order2 df chunks Hcat Hne Ho2)
    as [_ [_ Hw2]].
  specialize (Hw2 (fun k _ => Hf2 k)).
  split; [exact Hraised |].
  destruct selected as [|row selected].
  - (* nothing was read: both runs leave the store alone *)
    assert (Honce : store once = db) by (apply Hnone; reflexivity).
    destruct (sync_effect config today_at_read today_at_delete fails2 order2
                view view_name target_table date_column days source_schema
                target_schema chunksize max_threads db i t
                Hi Hdated Ht Hmem Hchunk Hthreads)
      as [selected2 [_ [_ [_ [Hread2 [_ [_ [_ [_
           [_ [_ [_ [Hraised2 [Hnone2 _]]]]]]]]]]]]]].
    fold source target start_date in Hread2.
    assert (selected2 = []) by congruence. subst selected2.
    unfold twice. rewrite Honce.
    split; [exact Hraised2 |].
    exists (table_rows t), (table_rows t).
    rewrite (Hnone2 eq_refl).
    assert (Hrecords : to_records df = []).
    { rewrite Hdf1. unfold to_records. cbn [rows]. rewrite map_map.
      destruct prepared; [reflexivity | simpl in Hlen; lia]. }
    rewrite Hrecords, app_nil_r.
    destruct t as [cols stored]. simpl.
    repeat split; try exact Ht; intros _; reflexivity.
  - destruct (Hsome ltac:(discriminate)) as [Hstore1 _].
    set (keep := fun r : dict sqlvalue =>
           negb (in_window date_column start_date today_at_delete r)) in *.
    set (kept := filter keep (table_rows t)) in *.
    set (rows1 := kept ++ written_rows fails1 order1 chunks) in *.
    set (t1 := mkTable (table_columns t) rows1) in *.
    assert (Ht1 : store once !! target = Some t1)
      by (rewrite Hstore1; apply lookup_insert_eq).
    destruct (sync_effect config today_at_read today_at_delete fails2 order2
                view view_name target_table date_column days source_schema
                target_schema chunksize max_threads (store once) i t1
                Hi Hdated Ht1 Hmem Hchunk Hthreads)
      as [selected2 [_ [df2 [chunks2 [Hread2 [_ [_ [Hframe2 [_
           [Hchunks2 [_ [_ [Hraised2 [_ Hsome2]]]]]]]]]]]]]].
    fold source target start_date twice in Hread2, Hframe2, Hraised2, Hsome2.
    assert (selected2 = row :: selected) by congruence. subst selected2.
    cbn [table_columns t1] in Hframe2.
    assert (Edf : df2 = df) by congruence.
    rewrite Edf in Hchunks2. clear Edf.
    assert (Echunks : chunks2 = chunks) by congruence.
    rewrite Echunks in Hsome2. clear Echunks.
    destruct (Hsome2 ltac:(discriminate)) as [Hstore2 _].
    cbn [table_columns table_rows t1] in Hstore2. fold keep in Hstore2.
    split; [exact Hraised2 |].
    exists rows1, (filter keep rows1 ++ written_rows fails2 order2 chunks).
    split; [exact Ht1 |].
    split; [rewrite Hstore2; apply lookup_insert_eq |].
    assert (Hkept : filter keep rows1
                    = kept ++ filter keep (written_rows fails1 order1 chunks)).
    { unfold rows1, kept. rewrite filter_app. f_equal.
      apply filter_negb_idempotent. }
    rewrite Hkept. split.
    + intros Hin.
      assert (Hnone1 : filter keep (written_rows fails1 order1 chunks) = []).
      { apply filter_none. rewrite Hw1.
        eapply Forall_impl; [exact (Hwritten _ Hin) |].
        intros r [d [Hd [Hlo Hhi]]]. unfold keep, in_window. rewrite Hd.
        simpl in Hhi.
        rewrite (proj2 (Z.leb_le _ _) Hlo), (proj2 (Z.leb_le _ _) Hhi).
        reflexivity. }
      rewrite Hnone1, app_nil_r. unfold rows1. rewrite Hw1, Hw2.
      reflexivity.
    + intros Hout.
      assert (Hall1 : filter keep (written_rows fails1 order1 chunks)
                      = written_rows fails1 order1 chunks).
      { apply filter_all. rewrite Hw1.
        eapply Forall_impl; [exact (Hwritten _ Hout) |].
        intros r [d [Hd [Hlo Hhi]]]. unfold keep, in_window. rewrite Hd.
        simpl in Hhi.
        rewrite (proj2 (Z.leb_gt _ _) Hhi), andb_false_r. reflexivity. }
      rewrite Hall1. unfold rows1. rewrite Hw2. reflexivity.
Qed.

End SyncTwice.

(* ===================================================================== *)
(** * The synchronisation task of the DAG *)
(* ===================================================================== *)

Section SyncTask.

Variable config : DatabaseConfig.
Variable views : string -> DataFrame sqlvalue.
Variable runtime : string -> Dag.Runtime.
Variable db : SqlStore.

Let ads_target : string := qualified (sqlserver_schema config) "graph_ads".
Let actions_target : string :=
  qualified (sqlserver_schema config) "graph_ads_actions".

(** The call of the method for one view of the task. *)
Let sync_view (view_name target_table : string) (store0 : SqlStore)
  : Effect SqlStore :=
  sync_postgres_to_sqlserver config
    (Dag.today_at_read (runtime view_name))
    (Dag.today_at_delete (runtime view_name))
    (Dag.fails (runtime view_name)) (Dag.order (runtime view_name))
    (views view_name) view_name target_table "date" 15
    (Some (postgres_schema config)) (Some (sqlserver_schema config))
    1000 8 store0.

Lemma sync_view_frame (view_name target_table : string) (store0 : SqlStore)
    (other : string) :
  other <> qualified (sqlserver_schema config) target_table ->
  store (sync_view view_name target_table store0) !! other = store0 !! other.
Proof.
  intros Hother. unfold sync_view. apply sync_frame.
  rewrite default_truthy_some. exact Hother.
Qed.

(** The task [sync_to_sqlserver] synchronises the ads view, then the
    actions view. It touches no table but the two targets; the ads target
    is as the first synchronisation leaves it; an exception of the first
    synchronisation ends the task and leaves the actions target as it
    was, and otherwise the task ends as the second synchronisation
    does. *)
Theorem sync_to_sqlserver_runs_the_views_in_turn :
  let first := sync_view "vw_graph_ads" "graph_ads" db in
  let second :=
    sync_view "vw_graph_ads_actions" "graph_ads_actions" (store first) in
  let task := Dag.sync_to_sqlserver config views runtime db in
  (forall other,
     other <> ads_target -> other <> actions_target ->
     store task !! other = db !! other)
  /\ store task !! ads_target = store first !! ads_target
  /\ (forall e,
        raised first = Some e ->
        raised task = Some e
        /\ store task !! actions_target = db !! actions_target)
  /\ (raised first = None ->
      raised task = raised second
      /\ store task = store second
      /\ log task = log first ++ log second).
Proof.
  intros first second task.
  assert (Hdiff : ads_target <> actions_target).
  { unfold ads_target, actions_target, qualified. intros H.
    apply (f_equal String.length) in H.
    rewrite !string_app_length in H. simpl in H. lia. }
  assert (Htask : match raised first with
                  | Some e => task = first
                  | None =>
                      store task = store second
                      /\ raised task = raised second
                      /\ log task = log first ++ log second
                  end).
  { unfold task, Dag.sync_to_sqlserver, Dag.sync_mappings. simpl.
    fold (sync_view "vw_graph_ads" "graph_ads" db). fold first.
    destruct (raised first); [reflexivity |].
    fold (sync_view "vw_graph_ads_actions" "graph_ads_actions" (store first)).
    fold second.
    destruct (raised second) eqn:E; simpl; [auto |].
    rewrite app_nil_r. auto. }
  split; [| split; [| split]].
  - intros other Hads Hactions.
    destruct (raised first).
    + rewrite Htask. apply sync_view_frame. exact Hads.
    + destruct Htask as [-> _]. unfold second.
      rewrite sync_view_frame by exact Hactions.
      apply sync_view_frame. exact Hads.
  - destruct (raised first); [rewrite Htask; reflexivity |].
    destruct Htask as [-> _]. unfold second.
    apply sync_view_frame. exact Hdiff.
  - intros e He. rewrite He in Htask. rewrite Htask. split; [exact He |].
    apply sync_view_frame. intros H. apply Hdiff. symmetry. exact H.
  - intros Hnone. rewrite Hnone in Htask. destruct Htask as [Hs [Hr Hl]].
    auto.
Qed.

End SyncTask.

(* ===================================================================== *)
(** * The SQL Server connection string *)
(* ===================================================================== *)

Section ConnectionFacts.

Import PyStr Urllib Connection.

Lemma replace_char_app (old new : ascii) (a b : string) :
  replace_char old new (a +:+ b)
  = replace_char old new a +:+ replace_char old new b.
Proof.
  induction a as [|c a IH]; [reflexivity |].
  rewrite append_cons. simpl. rewrite IH, append_cons. reflexivity.
Qed.

(** One byte, escaped with the blank kept and then written as [+]: its
    characters are safe, and it reads back as the byte. *)
Lemma escaped_byte_with_blank (c : ascii) :
  forallb url_safe
    (list_ascii_of_string (replace_char " " "+" (quoter " " c))) = true
  /\ forall rest,
       unquote (replace_char "+" " "
                  (replace_char " " "+" (quoter " " c) +:+ rest))
       = String c (unquote (replace_char "+" " " rest)).
Proof.
  destruct c as [[] [] [] [] [] [] [] []]; split; reflexivity.
Qed.

(** One byte, escaped with nothing kept. *)
Lemma escaped_byte (c : ascii) :
  forallb url_safe (list_ascii_of_string (quoter EmptyString c)) = true
  /\ forall rest,
       unquote (replace_char "+" " " (quoter EmptyString c +:+ rest))
       = String c (unquote (replace_char "+" " " rest)).
Proof.
  destruct c as [[] [] [] [] [] [] [] []]; split; reflexivity.
Qed.

(** [quote_plus] writes safe characters only, and [unquote_plus] reads
    its result back as the text. *)
Lemma quote_plus_round_trip (s : string) :
  forallb url_safe (list_ascii_of_string (quote_plus s)) = true
  /\ unquote_plus (quote_plus s) = s.
Proof.
  unfold quote_plus, unquote_plus. destruct (has_char " " s).
  - induction s as [|c s [IHsafe IHback]]; [split; reflexivity |].
    destruct (escaped_byte_with_blank c) as [Hsafe Hback].
    simpl quote. rewrite replace_char_app. split.
    + rewrite list_ascii_app, forallb_app, Hsafe, IHsafe. reflexivity.
    + rewrite Hback, IHback. reflexivity.
  - induction s as [|c s [IHsafe IHback]]; [split; reflexivity |].
    destruct (escaped_byte c) as [Hsafe Hback].
    simpl quote. split.
    + rewrite list_ascii_app, forallb_app, Hsafe, IHsafe. reflexivity.
    + rewrite Hback, IHback. reflexivity.
Qed.

(** Whatever the environment holds, host, user or password with any
    characters or unset, the SQL Server connection string is the prefix
    [mssql+pyodbc:///?odbc_connect=] followed by a text made of letters,
    digits, [_.-~+%] only, which [unquote_plus] reads back as the ODBC
    string: the escaping loses nothing and lets no character of a setting
    end the query parameter. *)
Theorem sqlserver_connection_string_escapes_the_odbc_string
    (env : gmap string string) :
  exists query,
    get_sqlserver_connection_string env
    = "mssql+pyodbc:///?odbc_connect=" +:+ query
    /\ forallb url_safe (list_ascii_of_string query) = true
    /\ unquote_plus query = odbc_string (settings_of env).
Proof.
  exists (quote_plus (odbc_string (settings_of env))).
  split; [reflexivity |]. apply quote_plus_round_trip.
Qed.

End ConnectionFacts.

(* ===================================================================== *)
(** * The further properties on concrete runs *)
(* ===================================================================== *)

(** The third of three accounts, with two tokens, gets the first token. *)
Lemma get_account_with_token_rotates_tokens_witness :
  (2 < length (AccountsConfig.accounts sample_accounts))%nat
  /\ AccountsConfig.tokens sample_accounts <> []
  /\ exists account token,
       AccountsConfig.get_account_with_token sample_accounts 2
       = AccountsConfig.Returns (account, token)
       /\ AccountsConfig.accounts sample_accounts !! 2%nat = Some account
       /\ AccountsConfig.tokens sample_accounts !! 0%nat = Some token.
Proof.
  assert (H1 : (2 < length (AccountsConfig.accounts sample_accounts))%nat)
    by (simpl; lia).
  assert (H2 : AccountsConfig.tokens sample_accounts <> []) by discriminate.
  split; [exact H1 |]. split; [exact H2 |].
  destruct (get_account_with_token_rotates_tokens sample_accounts 2 H1 H2)
    as [account [token [Hget [Haccount [Htoken _]]]]].
  exists account, token. repeat split; assumption.
Defined.

(** The index -1 is the last account. *)
Lemma get_account_with_token_index_bounds_witness :
  - 3 <= -1 < 0
  /\ AccountsConfig.tokens sample_accounts <> []
  /\ exists account token,
       AccountsConfig.get_account_with_token sample_accounts (-1)
       = AccountsConfig.Returns (account, token)
       /\ AccountsConfig.accounts sample_accounts !! 2%nat = Some account
       /\ AccountsConfig.tokens sample_accounts !! 1%nat = Some token.
Proof.
  assert (H1 : - 3 <= -1 < 0) by lia.
  assert (H2 : AccountsConfig.tokens sample_accounts <> []) by discriminate.
  split; [exact H1 |]. split; [exact H2 |].
  exact (proj2 (proj2 (proj2
           (get_account_with_token_index_bounds sample_accounts (-1))))
           H1 H2).
Defined.

(** Three accounts in two groups: two accounts, then one. *)
Lemma split_accounts_into_groups_partitions_witness :
  0 < 2
  /\ AccountsConfig.accounts sample_accounts <> []
  /\ exists groups,
       AccountsConfig.split_accounts_into_groups sample_accounts 2
       = AccountsConfig.Returns groups
       /\ concat groups = AccountsConfig.accounts sample_accounts
       /\ 0 < Z.of_nat (length groups) <= 2.
Proof.
  assert (H1 : 0 < 2) by lia.
  assert (H2 : AccountsConfig.accounts sample_accounts <> []) by discriminate.
  split; [exact H1 |]. split; [exact H2 |].
  destruct (split_accounts_into_groups_partitions sample_accounts 2 H1 H2)
    as [groups [Hsplit [Hcat [Hlen _]]]].
  exists groups. repeat split; try assumption; apply Hlen.
Defined.

(** Three accounts and minus one group: no group at all. *)
Lemma split_accounts_into_groups_edge_cases_witness :
  -1 < 0
  /\ 2 <= Z.of_nat (length (AccountsConfig.accounts sample_accounts))
  /\ - -1 < Z.of_nat (length (AccountsConfig.accounts sample_accounts)) - 1
  /\ AccountsConfig.split_accounts_into_groups sample_accounts (-1)
     = AccountsConfig.Returns [].
Proof.
  assert (H1 : -1 < 0) by lia.
  assert (H2 : 2 <= Z.of_nat (length (AccountsConfig.accounts sample_accounts)))
    by (simpl; lia).
  assert (H3 : - -1
               < Z.of_nat (length (AccountsConfig.accounts sample_accounts)) - 1)
    by (simpl; lia).
  repeat (split; [assumption |]).
  exact (proj2 (proj2 (proj2
           (split_accounts_into_groups_edge_cases sample_accounts (-1))))
           H1 H2 H3).
Defined.

(** The DAG of the sample environment. *)
Lemma dag_runs_each_account_with_its_token_witness :
  AccountsConfig.__init__ sample_environ
  = AccountsConfig.Returns sample_accounts
  /\ AccountsConfig.validate_configuration sample_accounts
     = AccountsConfig.Returns true
  /\ exists graph,
       Dag.dag sample_environ = AccountsConfig.Returns graph
       /\ length (concat (map Dag.tasks (Dag.task_groups graph))) = 3%nat.
Proof.
  assert (H1 : AccountsConfig.__init__ sample_environ
               = AccountsConfig.Returns sample_accounts) by reflexivity.
  assert (H2 : AccountsConfig.validate_configuration sample_accounts
               = AccountsConfig.Returns true) by (vm_compute; reflexivity).
  split; [exact H1 |]. split; [exact H2 |].
  destruct (dag_runs_each_account_with_its_token sample_environ
              sample_accounts H1 H2)
    as [graph [Hdag [Hlen _]]].
  exists graph. split; [exact Hdag | exact Hlen].
Defined.

(** The frame of 2 and 3 January, upserted twice. *)
Lemma upsert_dataframe_is_idempotent_witness :
  let db : PgStore := {["public.ads" := sample_rows]} in
  let once :=
    upsert_dataframe default_database_config sample_frame "ads" "date" None
      db in
  let twice :=
    upsert_dataframe default_database_config sample_frame "ads" "date" None
      (store once) in
  getitem CNaN "date" sample_frame
  = Ok [CStr "2024-01-02"; CStr "2024-01-03"]
  /\ one_kind [CStr "2024-01-02"; CStr "2024-01-03"]
  /\ db !! "public.ads" = Some sample_rows
  /\ raised once = None /\ raised twice = None /\ store twice = store once.
Proof.
  intros db once twice.
  assert (H1 : getitem CNaN "date" sample_frame
               = Ok [CStr "2024-01-02"; CStr "2024-01-03"]) by reflexivity.
  assert (H2 : one_kind [CStr "2024-01-02"; CStr "2024-01-03"])
    by reflexivity.
  assert (H3 : db !! "public.ads" = Some sample_rows) by reflexivity.
  repeat (split; [assumption |]).
  exact (upsert_dataframe_is_idempotent default_database_config sample_frame
           "ads" "date" None db _ sample_rows H1 H2 H3).
Defined.

(** One insight with one action. *)
Lemma process_insights_data_returns_one_row_per_action_witness :
  [sample_insight] <> []
  /\ [sample_campaign] <> []
  /\ Forall (fun item => coerces (fun _ => None) item = true) [sample_insight]
  /\ exists df_ads df_actions,
       process_insights_data (fun _ => None) [sample_insight]
         [sample_campaign] "1"
       = Ok (df_ads, df_actions)
       /\ rows df_actions
          = [[CStr "1"; CStr "ad1"; CStr "purchase"; CInt 2;
              CStr "2024-01-01"]].
Proof.
  assert (H1 : [sample_insight] <> []) by discriminate.
  assert (H2 : [sample_campaign] <> []) by discriminate.
  assert (H3 : Forall (fun item => coerces (fun _ => None) item = true)
                 [sample_insight]) by (repeat constructor).
  repeat (split; [assumption |]).
  destruct (process_insights_data_returns_one_row_per_action (fun _ => None)
              "1" [sample_insight] [sample_campaign] H1 H2 H3)
    as [df_ads [df_actions [Hrun [Hrows _]]]].
  exists df_ads, df_actions. split; [exact Hrun |].
  rewrite Hrows. reflexivity.
Defined.

(** The extraction of the sample account leaves a third table alone. *)
Lemma extract_meta_ads_data_touches_its_two_tables_only_witness :
  let db : PgStore := <["public.other" := sample_rows]> sample_tables in
  "public.other" <> qualified "public" "ads"
  /\ "public.other" <> qualified "public" "ads_actions"
  /\ match extract_meta_ads_data (fun _ => None) default_config 19738
             default_database_config "1" "token" "ads" "ads_actions" None
             [page "" [sample_insight] None] [page "" [sample_campaign] None]
             db with
     | Completed db' | Raised _ db' =>
         db' !! "public.other" = Some sample_rows
     | Blocked => True
     end.
Proof.
  intros db.
  assert (H1 : "public.other" <> qualified "public" "ads") by discriminate.
  assert (H2 : "public.other" <> qualified "public" "ads_actions")
    by discriminate.
  split; [exact H1 |]. split; [exact H2 |].
  exact (extract_meta_ads_data_touches_its_two_tables_only (fun _ => None)
           default_config 19738 default_database_config "1" "token" "ads"
           "ads_actions" None [page "" [sample_insight] None]
           [page "" [sample_campaign] None] db "public.other" H1 H2).
Defined.

(** An account whose insights listing is one page without items. *)
Lemma extract_meta_ads_data_writes_nothing_when_processing_raises_witness :
  let client := mkClient "1" "token" default_config in
  let fetched : LoopState Raw.InsightItem :=
    {| all_data := [];
       next_url := None;
       page_count := 2;
       trace := [Get (request_for default_config (insights_url client)
                        (insights_params client 19738) (insights_url client))] |} in
  let fetched_campaigns :=
    {| all_data := [sample_campaign];
       next_url := None;
       page_count := 2;
       trace := [Get (request_for default_config (campaigns_url client)
                        (campaigns_params client) (campaigns_url client))] |} in
  get_insights client 19738 [page "" [] None] = Finished fetched []
  /\ get_campaigns client [page "" [sample_campaign] None]
     = Finished fetched_campaigns []
  /\ all_data fetched = []
  /\ extract_meta_ads_data (fun _ => None) default_config 19738
       default_database_config "1" "token" "ads" "ads_actions" None
       [page "" [] None] [page "" [sample_campaign] None] sample_tables
     = Raised (KeyError ["campaign_id"]) sample_tables.
Proof.
  intros client fetched fetched_campaigns.
  assert (H1 : get_insights client 19738 [page "" [] None]
               = Finished fetched []) by reflexivity.
  assert (H2 : get_campaigns client [page "" [sample_campaign] None]
               = Finished fetched_campaigns []) by reflexivity.
  assert (H3 : all_data fetched = []) by reflexivity.
  repeat (split; [assumption |]).
  exact (proj1 (extract_meta_ads_data_writes_nothing_when_processing_raises
                  (fun _ => None) default_config 19738 default_database_config
                  "1" "token" "ads" "ads_actions" None [page "" [] None]
                  [page "" [sample_campaign] None] sample_tables
                  fetched [] fetched_campaigns [] H1 H2) H3).
Defined.

(** The sample account, with a store that lacks the actions table. *)
Lemma extract_meta_ads_data_keeps_ads_when_actions_fail_witness :
  let client := mkClient "1" "token" default_config in
  let db : PgStore := {["public.ads" := []]} in
  let fetched :=
    {| all_data := [sample_insight];
       next_url := None;
       page_count := 2;
       trace := [Get (request_for default_config (insights_url client)
                        (insights_params client 19738) (insights_url client))] |} in
  let fetched_campaigns :=
    {| all_data := [sample_campaign];
       next_url := None;
       page_count := 2;
       trace := [Get (request_for default_config (campaigns_url client)
                        (campaigns_params client) (campaigns_url client))] |} in
  get_insights client 19738 [page "" [sample_insight] None]
  = Finished fetched []
  /\ Forall (dated_item (fun _ => None)) (all_data fetched)
  /\ action_records "1" (all_data fetched) <> []
  /\ get_campaigns client [page "" [sample_campaign] None]
     = Finished fetched_campaigns []
  /\ all_data fetched_campaigns <> []
  /\ db !! "public.ads" = Some []
  /\ db !! "public.ads_actions" = None
  /\ exists db',
       extract_meta_ads_data (fun _ => None) default_config 19738
         default_database_config "1" "token" "ads" "ads_actions" None
         [page "" [sample_insight] None] [page "" [sample_campaign] None] db
       = Raised (ProgrammingError "public.ads_actions") db'
       /\ is_Some (db' !! "public.ads").
Proof.
  intros client db fetched fetched_campaigns.
  assert (H1 : get_insights client 19738 [page "" [sample_insight] None]
               = Finished fetched []) by reflexivity.
  assert (H2 : Forall (dated_item (fun _ => None)) (all_data fetched)).
  { repeat constructor. eexists. reflexivity. }
  assert (H3 : action_records "1" (all_data fetched) <> []) by discriminate.
  assert (H4 : get_campaigns client [page "" [sample_campaign] None]
               = Finished fetched_campaigns []) by reflexivity.
  assert (H5 : all_data fetched_campaigns <> []) by discriminate.
  assert (H6 : db !! "public.ads" = Some []) by reflexivity.
  assert (H7 : db !! "public.ads_actions" = None) by reflexivity.
  repeat (split; [assumption |]).
  destruct (extract_meta_ads_data_keeps_ads_when_actions_fail (fun _ => None)
              default_config 19738 default_database_config "1" "token" "ads"
              "ads_actions" None [page "" [sample_insight] None]
              [page "" [sample_campaign] None] db fetched []
              fetched_campaigns [] [] H1 H2 H3 H4 H5 H6 H7)
    as [df_ads [df_actions [kept [Hframes [Hrows Hrun]]]]].
  eexists. split; [exact Hrun |].
  rewrite lookup_insert_eq. eexists. reflexivity.
Defined.

(** The task of the sample account, run twice. *)
Lemma extract_account_data_is_idempotent_witness :
  let client := mkClient "1" "token" default_config in
  let task :=
    Dag.extract_account_data (fun _ => None) default_config 19738
      default_database_config "1" "token" "ads"
      [page "" [sample_insight] None] [page "" [sample_campaign] None] in
  let fetched :=
    {| all_data := [sample_insight];
       next_url := None;
       page_count := 2;
       trace := [Get (request_for default_config (insights_url client)
                        (insights_params client 19738) (insights_url client))] |} in
  let fetched_campaigns :=
    {| all_data := [sample_campaign];
       next_url := None;
       page_count := 2;
       trace := [Get (request_for default_config (campaigns_url client)
                        (campaigns_params client) (campaigns_url client))] |} in
  get_insights client 19738 [page "" [sample_insight] None]
  = Finished fetched []
  /\ all_data fetched <> []
  /\ Forall (dated_item (fun _ => None)) (all_data fetched)
  /\ get_campaigns client [page "" [sample_campaign] None]
     = Finished fetched_campaigns []
  /\ all_data fetched_campaigns <> []
  /\ sample_tables !! "public.ads" = Some []
  /\ sample_tables !! "public.ads_actions" = Some []
  /\ exists db', task sample_tables = Completed db' /\ task db' = Completed db'.
Proof.
  intros client task fetched fetched_campaigns.
  assert (H1 : get_insights client 19738 [page "" [sample_insight] None]
               = Finished fetched []) by reflexivity.
  assert (H2 : all_data fetched <> []) by discriminate.
  assert (H3 : Forall (dated_item (fun _ => None)) (all_data fetched)).
  { repeat constructor. eexists. reflexivity. }
  assert (H4 : get_campaigns client [page "" [sample_campaign] None]
               = Finished fetched_campaigns []) by reflexivity.
  assert (H5 : all_data fetched_campaigns <> []) by discriminate.
  assert (H6 : sample_tables !! "public.ads" = Some []) by reflexivity.
  assert (H7 : sample_tables !! "public.ads_actions" = Some [])
    by reflexivity.
  repeat (split; [assumption |]).
  exact (extract_account_data_is_idempotent (fun _ => None) default_config
           19738 default_database_config "1" "token" "ads"
           [page "" [sample_insight] None] [page "" [sample_campaign] None]
           sample_tables fetched [] fetched_campaigns [] [] [] H1 H2 H3 H4 H5
           H6 H7).
Defined.

(** The sample view read long after its last row. *)
Lemma sync_leaves_target_alone_when_nothing_is_read_witness :
  column_index "a" (columns sample_view) = Some 0%nat
  /\ Forall (fun row =>
         on_or_after (30000 - 15) (cell_at SqlNull 0 row) = Ok false)
       (rows sample_view)
  /\ sync_postgres_to_sqlserver default_database_config 30000 30000
       second_fails [1%nat; 0%nat] sample_view "v" "t" "a" 15 None None 2 8
       sample_store
     = mkEffect sample_store
         [SyncStarting "public.v" "dbo.t"; ReadRecords 0 "public.v";
          NoDataFound "v"]
         None.
Proof.
  assert (H1 : column_index "a" (columns sample_view) = Some 0%nat)
    by reflexivity.
  assert (H2 : Forall (fun row =>
                   on_or_after (30000 - 15) (cell_at SqlNull 0 row) = Ok false)
                 (rows sample_view)) by (repeat constructor).
  split; [exact H1 |]. split; [exact H2 |].
  exact (sync_leaves_target_alone_when_nothing_is_read
           default_database_config 30000 30000 second_fails [1%nat; 0%nat]
           sample_view "v" "t" "a" 15 None None 2 8 sample_store 0%nat H1 H2).
Defined.

(** The sample view synchronised with a chunk size of 0. *)
Lemma sync_deletes_window_before_chunking_witness :
  let run :=
    sync_postgres_to_sqlserver default_database_config 19738 19738
      second_fails [1%nat; 0%nat] sample_view "v" "t" "a" 15 None None 0 8
      sample_store in
  column_index "a" (columns sample_view) = Some 0%nat
  /\ Forall (fun row => is_dated (cell_at SqlNull 0 row) = true)
       (rows sample_view)
  /\ [SqlDate 19730; SqlText "x"; SqlInt 1] ∈ rows sample_view
  /\ on_or_after (19738 - 15)
       (cell_at SqlNull 0 [SqlDate 19730; SqlText "x"; SqlInt 1]) = Ok true
  /\ sample_store !! "dbo.t" = Some sample_target
  /\ mem "a" (table_columns sample_target) = true
  /\ raised run = Some ValueError
  /\ store run
     = <["dbo.t" :=
           mkTable ["a"; "c"; "d"]
             [[("a", SqlDate 19000); ("c", SqlInt 0); ("d", SqlInt 0)]]]>
         sample_store.
Proof.
  intros run.
  assert (H1 : column_index "a" (columns sample_view) = Some 0%nat)
    by reflexivity.
  assert (H2 : Forall (fun row => is_dated (cell_at SqlNull 0 row) = true)
                 (rows sample_view)) by (repeat constructor).
  assert (H3 : [SqlDate 19730; SqlText "x"; SqlInt 1] ∈ rows sample_view)
    by left.
  assert (H4 : on_or_after (19738 - 15)
                 (cell_at SqlNull 0 [SqlDate 19730; SqlText "x"; SqlInt 1])
               = Ok true) by reflexivity.
  assert (H5 : sample_store !! "dbo.t" = Some sample_target) by reflexivity.
  assert (H6 : mem "a" (table_columns sample_target) = true) by reflexivity.
  repeat (split; [assumption |]).
  exact (proj1 (sync_deletes_window_before_chunking default_database_config
                  19738 19738 second_fails [1%nat; 0%nat] sample_view "v" "t"
                  "a" 15 None None 0 8 sample_store 0%nat sample_target _
                  H1 H2 H3 H4 H5 H6)
           (or_introl eq_refl)).
Defined.

(** Three rows in chunks of two. *)
Lemma chunks_hold_at_most_chunksize_rows_witness :
  0 < 2
  /\ exists chunks,
       chunks_of sample_written 2 = Ok chunks
       /\ concat (map rows chunks) = rows sample_written
       /\ Forall (fun chunk => Z.of_nat (length (rows chunk)) <= 2) chunks.
Proof.
  assert (H1 : 0 < 2) by lia.
  split; [exact H1 |].
  destruct (chunks_hold_at_most_chunksize_rows sample_written 2 H1)
    as [chunks [Hchunks [Hcat Hall]]].
  exists chunks. split; [exact Hchunks |]. split; [exact Hcat |].
  eapply Forall_impl; [exact Hall |]. intros chunk [_ [_ H]]. exact H.
Defined.

(** The sample view, whose second row holds a json value. *)
Lemma preprocess_dataframe_serialises_structured_cells_witness :
  rectangular sample_view
  /\ _preprocess_dataframe sample_view
     = {| columns := ["a"; "b"; "c"];
          rows := [[SqlDate 19730; SqlText "x"; SqlInt 1];
                   [SqlTimestamp 19731 3600; SqlText "{}"; SqlInt 2];
                   [SqlDate 19732; SqlText "z"; SqlInt 3]] |}.
Proof.
  assert (H1 : rectangular sample_view) by (repeat constructor).
  split; [exact H1 |].
  exact (proj1 (preprocess_dataframe_serialises_structured_cells sample_view
                  H1)).
Defined.

(** The sample view synchronised twice on the day of its last row. *)
Lemma sync_again_replaces_only_the_window_witness :
  let once :=
    sync_postgres_to_sqlserver default_database_config 19738 19738
      (fun _ => false) [1%nat; 0%nat] sample_view "v" "t" "a" 15 None None 2 8
      sample_store in
  let twice :=
    sync_postgres_to_sqlserver default_database_config 19738 19738
      (fun _ => false) [0%nat; 1%nat] sample_view "v" "t" "a" 15 None None 2 8
      (store once) in
  column_index "a" (columns sample_view) = Some 0%nat
  /\ Forall (fun row => is_dated (cell_at SqlNull 0 row) = true)
       (rows sample_view)
  /\ sample_store !! "dbo.t" = Some sample_target
  /\ mem "a" (table_columns sample_target) = true
  /\ 0 < 2
  /\ 0 < 8
  /\ frame_to_write sample_view "public.v" "a" (19738 - 15)
       (table_columns sample_target) = Ok sample_written
  /\ chunks_of sample_written 2 = Ok sample_chunks
  /\ [1%nat; 0%nat] ≡ₚ seq 0 (length sample_chunks)
  /\ [0%nat; 1%nat] ≡ₚ seq 0 (length sample_chunks)
  /\ Forall (fun row =>
         forall d, day_of (cell_at SqlNull 0 row) = Some d -> d <= 19738)
       (rows sample_view)
  /\ raised once = None
  /\ raised twice = None
  /\ exists rows1 rows2,
       store once !! "dbo.t" = Some (mkTable ["a"; "c"; "d"] rows1)
       /\ store twice !! "dbo.t" = Some (mkTable ["a"; "c"; "d"] rows2)
       /\ rows2 ≡ₚ rows1.
Proof.
  intros once twice.
  assert (H1 : column_index "a" (columns sample_view) = Some 0%nat)
    by reflexivity.
  assert (H2 : Forall (fun row => is_dated (cell_at SqlNull 0 row) = true)
                 (rows sample_view)) by (repeat constructor).
  assert (H3 : sample_store !! "dbo.t" = Some sample_target) by reflexivity.
  assert (H4 : mem "a" (table_columns sample_target) = true) by reflexivity.
  assert (H5 : 0 < 2) by lia.
  assert (H6 : 0 < 8) by lia.
  assert (H7 : frame_to_write sample_view "public.v" "a" (19738 - 15)
                 (table_columns sample_target) = Ok sample_written)
    by reflexivity.
  assert (H8 : chunks_of sample_written 2 = Ok sample_chunks) by reflexivity.
  assert (H9 : [1%nat; 0%nat] ≡ₚ seq 0 (length sample_chunks))
    by apply perm_swap.
  assert (H10 : [0%nat; 1%nat] ≡ₚ seq 0 (length sample_chunks))
    by reflexivity.
  assert (H11 : Forall (fun row =>
                    forall d, day_of (cell_at SqlNull 0 row) = Some d ->
                              d <= 19738)
                  (rows sample_view)).
  { repeat constructor; simpl; intros d Hd; inversion Hd; lia. }
  repeat (split; [assumption |]).
  destruct (sync_again_replaces_only_the_window default_database_config
              19738 19738 (fun _ => false) (fun _ => false)
              [1%nat; 0%nat] [0%nat; 1%nat] sample_view "v" "t" "a" 15 None
              None 2 8 sample_store 0%nat sample_target sample_written
              sample_chunks H1 H2 H3 H4 H5 H6 H7 H8 H9 H10
              (fun _ => eq_refl) (fun _ => eq_refl))
    as [Honce [Htwice [rows1 [rows2 [Hs1 [Hs2 [Hsame _]]]]]]].
  split; [exact Honce |]. split; [exact Htwice |].
  exists rows1, rows2. split; [exact Hs1 |]. split; [exact Hs2 |].
  exact (Hsame H11).
Defined.
